(** * modules/processing.py: the generation orchestrator, embedded and verified

    The development follows the Python module top to bottom.  Part I is the
    shallow embedding (one Rocq [Module] per Python class or group of
    functions, with the names of the source); Part II states and proves the
    properties.  The continuations of both parts cover the rest of the
    module and [scripts/animatediff_ui.py] of the AnimateDiff extension.

    Conventions of the embedding:
    - Python [int] is [Z]; [//] is [Z.div] (both round towards minus
      infinity) and raises [ZeroDivisionError] on a zero divisor;
    - Python [float] is the kernel's binary64 [float] ([PrimFloat]), so
      [int(w * hr_scale)], [w / h < x / y] and [int(2.5 * r + 0.5)] are
      evaluated bit for bit as CPython evaluates them;
    - an exception is a value of [Py.exn]; fallible code returns
      [Py.result];
    - a dict whose order is observable (the generation parameters) is an
      association list in insertion order;
    - the cache slots, which Python shares by reference between instances,
      live in a store ([gmap]) and are passed around by location;
    - the neural network, the samplers, OpenCV and the script hooks are
      external collaborators: they enter as the fields of a type class or
      as events in a trace. *)

From Stdlib Require Import ZArith List String Ascii Bool Lia Floats DecimalString.
From stdpp Require Import base option list gmap strings.
From coqutil Require Import Datatypes.RecordSetters.
Import RecordSetters.TriangleBracketNotations.

(* ===================================================================== *)
(** * Part I: the embedding                                               *)
(* ===================================================================== *)

(** ** Python values, exceptions and the operations the module relies on *)

Module Py.

Inductive exn : Type :=
| IndexError
| ValueError
| ZeroDivisionError
| OverflowError
| AssertionError
| NansException
| TypeError
| RuntimeError (msg : string)
| Exception (msg : string).

Inductive result (A : Type) : Type :=
| Ok (a : A)
| Raise (e : exn).
Arguments Ok {A} a.
Arguments Raise {A} e.

#[global] Instance result_ret : MRet result := fun A a => Ok a.
#[global] Instance result_bind : MBind result := fun A B f m =>
  match m with
  | Ok a => f a
  | Raise e => Raise e
  end.
#[global] Instance result_fmap : FMap result := fun A B f m =>
  match m with
  | Ok a => Ok (f a)
  | Raise e => Raise e
  end.

Definition is_ok {A} (r : result A) : bool :=
  match r with Ok _ => true | Raise _ => false end.

(** [assert c] *)
Definition py_assert (c : bool) : result unit :=
  if c then Ok tt else Raise AssertionError.

Local Open Scope Z_scope.

(** [a // b] on ints. *)
Definition floordiv (a b : Z) : result Z :=
  if b =? 0 then Raise ZeroDivisionError else Ok (a / b).

(** An int as an unrounded binary float: the mantissa [|z|] at exponent 0. *)
Definition spec_of_Z (z : Z) : spec_float :=
  match z with
  | 0 => S754_zero false
  | Z.pos m => S754_finite false m 0
  | Z.neg m => S754_finite true m 0
  end.

(** [float(z)], which the interpreter also applies to the int operand of
    an arithmetic operation with a float: the binary64 nearest to [z],
    ties to even, and [OverflowError] when that is beyond the largest
    float.  Ints of any size convert; below 2^53 in absolute value (every
    image dimension is) the conversion is exact. *)
Definition float_of_Z (z : Z) : result float :=
  match binary_normalize prec emax z 0 false with
  | S754_infinity _ => Raise OverflowError
  | f => Ok (SF2Prim f)
  end.

(** [a / b] on ints, true division: the quotient of the two ints rounded
    once to the nearest binary64, ties to even ([0 / b] takes the sign of
    [b]; a quotient too small for a float is a zero); [ZeroDivisionError]
    on a zero divisor and [OverflowError] when the quotient is beyond
    the largest float. *)
Definition truediv (a b : Z) : result float :=
  if b =? 0 then Raise ZeroDivisionError
  else match SFdiv prec emax (spec_of_Z a) (spec_of_Z b) with
       | S754_infinity _ => Raise OverflowError
       | q => Ok (SF2Prim q)
       end.

Arguments float_of_Z : simpl never.
Arguments truediv : simpl never.

(** The integer part of a finite float's magnitude, and whether a
    fractional part was dropped. *)
Definition magnitude (m : positive) (e : Z) : Z * bool :=
  if 0 <=? e then (Z.shiftl (Z.pos m) e, false)
  else (Z.shiftr (Z.pos m) (- e),
        negb (Z.land (Z.pos m) (Z.ones (- e)) =? 0)).

(** [int(f)]: truncation towards zero. *)
Definition int_of_float (f : float) : result Z :=
  match Prim2SF f with
  | S754_zero _ => Ok 0
  | S754_infinity _ => Raise OverflowError
  | S754_nan => Raise ValueError
  | S754_finite s m e =>
      let '(q, _) := magnitude m e in
      Ok (if s then - q else q)
  end.

(** [math.ceil(f)] *)
Definition ceil (f : float) : result Z :=
  match Prim2SF f with
  | S754_zero _ => Ok 0
  | S754_infinity _ => Raise OverflowError
  | S754_nan => Raise ValueError
  | S754_finite s m e =>
      let '(q, frac) := magnitude m e in
      Ok (if s then - q else if frac then q + 1 else q)
  end.

(** [math.sqrt(f)] *)
Definition sqrt (f : float) : result float :=
  if PrimFloat.ltb f 0%float then Raise ValueError else Ok (PrimFloat.sqrt f).

(** [str(z)] on an int. *)
Definition str_of_Z (z : Z) : string := NilZero.string_of_int (Z.to_int z).

(** Sequence indices: [l[i]] with Python's negative indices. *)
Definition getitem {A} (l : list A) (i : Z) : result A :=
  let n := Z.of_nat (length l) in
  let j := if i <? 0 then i + n else i in
  if (j <? 0) || (n <=? j) then Raise IndexError
  else match l !! Z.to_nat j with
       | Some x => Ok x
       | None => Raise IndexError
       end.

(** The bounds of [l[a:b]] for a sequence of length [n]. *)
Definition slice_bound (n i : Z) : Z :=
  if i <? 0 then Z.max 0 (i + n) else Z.min i n.

(** [len(l[a:b])] for a sequence (or a tensor axis) of length [n]. *)
Definition slice_len (n a b : Z) : Z :=
  Z.max 0 (slice_bound n b - slice_bound n a).

(** [l[a:b]] *)
Definition slice {A} (l : list A) (a b : Z) : list A :=
  let n := Z.of_nat (length l) in
  let lo := slice_bound n a in
  take (Z.to_nat (slice_bound n b - lo)) (drop (Z.to_nat lo) l).

(** [n * [x]] *)
Definition list_mul {A} (n : Z) (x : A) : list A := replicate (Z.to_nat n) x.

(** [range(n)] *)
Definition range (n : Z) : list Z := Z.of_nat <$> seq 0 (Z.to_nat n).

(** Truth value of a list ([[]] is falsy) and of an optional list. *)
Definition truthy {A} (o : option (list A)) : bool :=
  match o with
  | Some (_ :: _) => true
  | _ => false
  end.

(** [a or b] where [a] may be [None] or a list. *)
Definition or_list {A} (a : option (list A)) (b : list A) : list A :=
  match a with
  | Some ((_ :: _) as l) => l
  | _ => b
  end.

End Py.

Import Py.

(** ** Values stored in the generation parameters *)

(** The values that reach [extra_generation_params] and the infotext:
    [None], booleans, ints, floats, strings, and the list of strings a
    list-valued [hr_prompt] puts under "Hires prompt". *)
Inductive pyval : Type :=
| PyNone
| PyBool (b : bool)
| PyInt (z : Z)
| PyFloat (f : float)
| PyStr (s : string)
| PyList (l : list string).

(** A [dict] with [str] keys, in insertion order. *)
Definition dict_of (V : Type) : Type := list (string * V).

(** [d.get(k)] *)
Fixpoint lookup_key {V} (k : string) (d : dict_of V) : option V :=
  match d with
  | [] => None
  | (k', v) :: d' => if String.eqb k k' then Some v else lookup_key k d'
  end.

Definition dict : Type := dict_of pyval.

Module Dict.

(** [d.get(k)] *)
Definition get (k : string) (d : dict) : option pyval := lookup_key k d.

(** [d[k] = v]: an existing key keeps its position. *)
Fixpoint set (k : string) (v : pyval) (d : dict) : dict :=
  match d with
  | [] => [(k, v)]
  | (k', v') :: d' =>
      if String.eqb k k' then (k, v) :: d' else (k', v') :: set k v d'
  end.

(** [d.pop(k, None)]: the key is gone afterwards. *)
Fixpoint pop (k : string) (d : dict) : dict :=
  match d with
  | [] => []
  | (k', v') :: d' => if String.eqb k k' then pop k d' else (k', v') :: pop k d'
  end.

(** [d.update(e)] *)
Definition update (e d : dict) : dict :=
  fold_left (fun acc kv => set kv.1 kv.2 acc) e d.

Definition keys (d : dict) : list string := fst <$> d.

End Dict.

(** ** Prompts and seeds as the request carries them *)

(** [prompt] is a [str] or, from the API and scripts, a list of them. *)
Inductive prompt_t : Type :=
| PromptStr (s : string)
| PromptList (l : list string).

(** [seed] is an [int]; the UI also hands over [None] and the empty
    string, and scripts a list of ints. *)
Inductive seed_t : Type :=
| SeedNone
| SeedEmpty
| SeedInt (z : Z)
| SeedList (l : list Z).

#[global] Instance prompt_eq_dec : EqDecision prompt_t.
Proof. solve_decision. Defined.

#[global] Instance seed_eq_dec : EqDecision seed_t.
Proof. solve_decision. Defined.

(** [tuple(x)] of a prompt: the characters of a [str], the items of a
    list. *)
Fixpoint chars (s : string) : list string :=
  match s with
  | EmptyString => []
  | String c s' => String c EmptyString :: chars s'
  end.

Definition tuple_of_prompt (x : prompt_t) : list string :=
  match x with
  | PromptStr s => chars s
  | PromptList l => l
  end.

Definition pyval_of_prompt (x : prompt_t) : pyval :=
  match x with
  | PromptStr s => PyStr s
  | PromptList l => PyList l
  end.

(** ** [modules.shared]: options and the job state *)

Record Options : Type := {
  use_old_hires_fix_width_height : bool;
  auto_vae_precision : bool;
  CLIP_stop_at_last_layers : Z;
  sdxl_crop_left : Z;
  sdxl_crop_top : Z;
}.

Record State : Type := {
  interrupted : bool;
  skipped : bool;
  job_count : Z;
  job_no : Z;
  processing_has_refined_job_count : bool;
  (** the total of [shared.total_tqdm], set by [updateTotal] *)
  tqdm_total : Z;
}.

(** some of those options should not be changed at all because they would
    break the model *)
Definition opt_C : Z := 4.
Definition opt_f : Z := 8.

(** ** class StableDiffusionProcessing: the fields the orchestrator uses *)

Module Processing.

Record StableDiffusionProcessing : Type := {
prompt : prompt_t;
negative_prompt : prompt_t;
styles : list string;
seed : seed_t;
subseed : seed_t;
subseed_strength : float;
sampler_name : option string;
batch_size : Z;
n_iter : Z;
steps : Z;
width : Z;
height : Z;
extra_generation_params : dict;
denoising_strength : option float;
(** whether [self.scripts] holds a script runner: [None] from the
    constructor, set by the caller that runs scripts *)
scripts : bool;
all_prompts : option (list string);
all_negative_prompts : option (list string);
all_seeds : option (list Z);
all_subseeds : option (list Z);
main_prompt : string;
main_negative_prompt : string;
iteration : Z;
prompts : list string;
negative_prompts : list string;
seeds : list Z;
subseeds : list Z;
}.

(** The constructor's defaults for a request with the given prompt. *)
Definition default_processing (pr : prompt_t) : StableDiffusionProcessing := {|
prompt := pr;
negative_prompt := PromptStr "";
styles := [];
seed := SeedInt (-1);
subseed := SeedInt (-1);
subseed_strength := 0%float;
sampler_name := None;
batch_size := 1;
n_iter := 1;
steps := 50;
width := 512;
height := 512;
extra_generation_params := [];
denoising_strength := Some 0%float;
scripts := false;
all_prompts := None;
all_negative_prompts := None;
all_seeds := None;
all_subseeds := None;
main_prompt := "";
main_negative_prompt := "";
iteration := 0;
prompts := [];
negative_prompts := [];
seeds := [];
subseeds := [];
|}.

End Processing.

Abbreviation StableDiffusionProcessing := Processing.StableDiffusionProcessing.

(** ** The [random] module *)

(** Python's global generator: a state and [random.randrange(n)], which
    draws from [range(n)]. *)
Class RandomSource : Type := {
  rng_state : Type;
  randrange : Z -> rng_state -> Z * rng_state;
  randrange_in_range :
    forall n g, (0 < n)%Z -> (0 <= (randrange n g).1 < n)%Z;
}.

(** A linear congruential generator, to run the model on concrete
    requests. *)
#[program] Definition lcg : RandomSource := {|
  rng_state := Z;
  randrange n g := (((1103515245 * g + 12345) mod n)%Z, (1103515245 * g + 12345)%Z);
|}.
Next Obligation. intros n g Hn. simpl. apply Z.mod_pos_bound. exact Hn. Qed.

(** ** Seeds *)

Section Seeds.
Context {RS : RandomSource}.

(** def get_fixed_seed(seed) *)
Definition get_fixed_seed (seed : seed_t) (g : rng_state) : seed_t * rng_state :=
  match seed with
  | SeedNone | SeedEmpty | SeedInt (-1) =>
      let '(r, g') := randrange 4294967294 g in (SeedInt r, g')
  | _ => (seed, g)
  end.

(** def fix_seed(p) *)
Definition fix_seed (p : StableDiffusionProcessing) (g : rng_state)
  : StableDiffusionProcessing * rng_state :=
  let '(s, g) := get_fixed_seed p.(Processing.seed) g in
  let p := p <| Processing.seed := s |> in
  let '(ss, g) := get_fixed_seed p.(Processing.subseed) g in
  (p <| Processing.subseed := ss |>, g).

End Seeds.

(** [int(seed)] for a scalar seed: the empty string does not parse. *)
Definition int_of_seed (s : seed_t) : result Z :=
  match s with
  | SeedInt z => Ok z
  | SeedEmpty => Raise ValueError
  | SeedNone | SeedList _ => Raise TypeError
  end.

(** The seeds of the whole run, from the fixed [seed]:
    [[int(seed) + (x if p.subseed_strength == 0 else 0)
      for x in range(len(p.all_prompts))]],
    or the list itself when [type(seed) == list]. *)
Definition expand_seeds (s : seed_t) (strength : float) (n_prompts : Z)
  : result (list Z) :=
  match s with
  | SeedList l => Ok l
  | _ =>
      if (0 <? n_prompts)%Z then
        z ← int_of_seed s;
        Ok ((fun x => (z + (if PrimFloat.eqb strength 0%float then x else 0))%Z)
              <$> range n_prompts)
      else Ok []
  end.

(** [[int(subseed) + x for x in range(len(p.all_prompts))]] *)
Definition expand_subseeds (s : seed_t) (n_prompts : Z) : result (list Z) :=
  match s with
  | SeedList l => Ok l
  | _ =>
      if (0 <? n_prompts)%Z then
        z ← int_of_seed s;
        Ok ((fun x => (z + x)%Z) <$> range n_prompts)
      else Ok []
  end.

(** ** class Processed *)

Module Processed.

Record t (Image : Type) : Type := {
  images : list Image;
  prompt : string;
  negative_prompt : string;
  seed : Z;
  subseed : Z;
  subseed_strength : float;
  info : string;
  comments : string;
  width : Z;
  height : Z;
  sampler_name : option string;
  steps : Z;
  batch_size : Z;
  denoising_strength : option float;
  extra_generation_params : dict;
  index_of_first_image : Z;
  all_prompts : list string;
  all_negative_prompts : list string;
  all_seeds : list Z;
  all_subseeds : list Z;
  infotexts : list string;
}.
Arguments images {Image}.
Arguments prompt {Image}.
Arguments negative_prompt {Image}.
Arguments seed {Image}.
Arguments subseed {Image}.
Arguments info {Image}.
Arguments comments {Image}.
Arguments all_prompts {Image}.
Arguments all_negative_prompts {Image}.
Arguments all_seeds {Image}.
Arguments all_subseeds {Image}.
Arguments infotexts {Image}.
Arguments index_of_first_image {Image}.

(** [x if type(x) != list else x[0]] on a prompt. *)
Definition scalar_prompt (x : prompt_t) : result string :=
  match x with
  | PromptStr s => Ok s
  | PromptList l => getitem l 0
  end.

(** [int(x if type(x) != list else x[0]) if x is not None else -1] *)
Definition scalar_seed (x : seed_t) : result Z :=
  match x with
  | SeedNone => Ok (-1)%Z
  | SeedList l => getitem l 0
  | s => int_of_seed s
  end.

(** def __init__(self, p, images_list, seed=-1, info="", subseed=None,
    all_prompts=None, all_negative_prompts=None, all_seeds=None,
    all_subseeds=None, index_of_first_image=0, infotexts=None,
    comments="") *)
Definition init {Image} (p : StableDiffusionProcessing)
    (images_list : list Image) (seed : seed_t) (info : string)
    (subseed : seed_t)
    (all_prompts all_negative_prompts : option (list string))
    (all_seeds all_subseeds : option (list Z))
    (index_of_first_image : Z) (infotexts : option (list string))
    (comments : string) : result (t Image) :=
  self_prompt ← scalar_prompt p.(Processing.prompt);
  self_negative_prompt ← scalar_prompt p.(Processing.negative_prompt);
  self_seed ← scalar_seed seed;
  self_subseed ← scalar_seed subseed;
  Ok {|
    images := images_list;
    prompt := self_prompt;
    negative_prompt := self_negative_prompt;
    seed := self_seed;
    subseed := self_subseed;
    subseed_strength := p.(Processing.subseed_strength);
    info := info;
    comments := comments;
    width := p.(Processing.width);
    height := p.(Processing.height);
    sampler_name := p.(Processing.sampler_name);
    steps := p.(Processing.steps);
    batch_size := p.(Processing.batch_size);
    denoising_strength := p.(Processing.denoising_strength);
    extra_generation_params := p.(Processing.extra_generation_params);
    index_of_first_image := index_of_first_image;
    all_prompts :=
      or_list all_prompts (or_list p.(Processing.all_prompts) [self_prompt]);
    all_negative_prompts :=
      or_list all_negative_prompts
        (or_list p.(Processing.all_negative_prompts) [self_negative_prompt]);
    all_seeds := or_list all_seeds (or_list p.(Processing.all_seeds) [self_seed]);
    all_subseeds :=
      or_list all_subseeds (or_list p.(Processing.all_subseeds) [self_subseed]);
    infotexts := or_list infotexts [info];
  |}.

End Processed.

(** ** The main loop: [process_images_inner] *)

(** What the loop calls and does not implement: prompt styles, the script
    hooks, the variant's [init], and the work of one batch (extra networks,
    conditioning, sampling, decoding, per-image post-processing), which
    yields the batch's finished images and the comments of the hijack.
    [run_batch] sees and returns the job state: another thread sets
    [interrupted] and [skipped] while a batch runs. *)
Class Collaborators : Type := {
  Image : Type;
  apply_styles_to_prompt : string -> list string -> string;
  apply_negative_styles_to_prompt : string -> list string -> string;
  scripts_process : StableDiffusionProcessing -> StableDiffusionProcessing;
  variant_init :
    StableDiffusionProcessing -> State -> result (StableDiffusionProcessing * State);
  before_process_batch : Z -> StableDiffusionProcessing -> StableDiffusionProcessing;
  run_batch :
    Z -> StableDiffusionProcessing -> State ->
    result (list Image * list string * StableDiffusionProcessing * State);
  infotext : StableDiffusionProcessing -> Z -> string;
  nextjob : State -> State;
  scripts_postprocess :
    StableDiffusionProcessing -> Processed.t Image -> Processed.t Image;
}.

Section MainLoop.
Context {RS : RandomSource} {C : Collaborators}.
Local Open Scope Z_scope.

Definition len {A} (l : list A) : Z := Z.of_nat (length l).

(** def setup_prompts(self) *)
Definition setup_prompts (p : StableDiffusionProcessing)
  : result StableDiffusionProcessing :=
  let all_prompts :=
    match p.(Processing.prompt) with
    | PromptList l => l
    | PromptStr s => list_mul (p.(Processing.batch_size) * p.(Processing.n_iter)) s
    end in
  let all_negative_prompts :=
    match p.(Processing.negative_prompt) with
    | PromptList l => l
    | PromptStr s => list_mul (p.(Processing.batch_size) * p.(Processing.n_iter)) s
    end in
  let all_prompts :=
    (fun x => apply_styles_to_prompt x p.(Processing.styles)) <$> all_prompts in
  let all_negative_prompts :=
    (fun x => apply_negative_styles_to_prompt x p.(Processing.styles))
      <$> all_negative_prompts in
  let p := p <| Processing.all_prompts := Some all_prompts |>
             <| Processing.all_negative_prompts := Some all_negative_prompts |> in
  main_prompt ← getitem all_prompts 0;
  main_negative_prompt ← getitem all_negative_prompts 0;
  Ok (p <| Processing.main_prompt := main_prompt |>
        <| Processing.main_negative_prompt := main_negative_prompt |>).

(** The locals and globals the loop threads through its iterations. *)
Record Run : Type := {
  run_p : StableDiffusionProcessing;
  run_state : State;
  comments : list string;
  infotexts : list string;
  output_images : list Image;
}.

(** [comments[comment] = 1]: the keys of a dict, in insertion order. *)
Definition add_comment (acc : list string) (c : string) : list string :=
  if existsb (String.eqb c) acc then acc else acc ++ [c].

(** [state.skipped = False] when it was set. *)
Definition clear_skipped (st : State) : State :=
  if st.(skipped) then st <| skipped := false |> else st.

(** The slices of iteration [n]:
    [p.prompts = p.all_prompts[n * p.batch_size : (n + 1) * p.batch_size]]
    and the same for the negative prompts, the seeds and the subseeds. *)
Definition slice_batch (n : Z) (p : StableDiffusionProcessing)
  : StableDiffusionProcessing :=
  let all_of {A} (o : option (list A)) := default [] o in
  let lo := n * p.(Processing.batch_size) in
  let hi := (n + 1) * p.(Processing.batch_size) in
  let p := p <| Processing.prompts :=
                  slice (all_of p.(Processing.all_prompts)) lo hi |> in
  let p := p <| Processing.negative_prompts :=
                  slice (all_of p.(Processing.all_negative_prompts)) lo hi |> in
  let p := p <| Processing.seeds :=
                  slice (all_of p.(Processing.all_seeds)) lo hi |> in
  p <| Processing.subseeds :=
         slice (all_of p.(Processing.all_subseeds)) lo hi |>.

(** What a finished batch appends to the locals of the loop. *)
Definition append_batch (r : Run) (imgs : list Image) (cs : list string)
    (p : StableDiffusionProcessing) (st : State) : Run := {|
  run_p := p;
  run_state := nextjob st;
  comments := fold_left add_comment cs r.(comments);
  infotexts := r.(infotexts) ++ (infotext p <$> range (len imgs));
  output_images := r.(output_images) ++ imgs;
|}.

(** [for n in range(p.n_iter): ...], over the values of [n] still to
    come.  Both [break]s leave the loop with what the earlier iterations
    appended. *)
Fixpoint iterations (ns : list Z) (r : Run) : result Run :=
  match ns with
  | [] => Ok r
  | n :: ns' =>
      let p := r.(run_p) <| Processing.iteration := n |> in
      let st := clear_skipped r.(run_state) in
      if st.(interrupted) then
        Ok (r <| run_p := p |> <| run_state := st |>)
      else
        let p := before_process_batch n (slice_batch n p) in
        if len p.(Processing.prompts) =? 0 then
          Ok (r <| run_p := p |> <| run_state := st |>)
        else
          '(imgs, cs, p, st) ← run_batch n p st;
          iterations ns' (append_batch r imgs cs p st)
  end.

(** [process_images_inner], from "seed = get_fixed_seed(p.seed)" to
    "p.all_subseeds = ...": the seeds of the run. *)
Definition resolve_seeds (p : StableDiffusionProcessing) (g : rng_state)
  : result (StableDiffusionProcessing * rng_state) :=
  let '(seed, g) := get_fixed_seed p.(Processing.seed) g in
  let '(subseed, g) := get_fixed_seed p.(Processing.subseed) g in
  p ← setup_prompts p;
  let n := len (default [] p.(Processing.all_prompts)) in
  all_seeds ← expand_seeds seed p.(Processing.subseed_strength) n;
  let p := p <| Processing.all_seeds := Some all_seeds |> in
  all_subseeds ← expand_subseeds subseed n;
  let p := p <| Processing.all_subseeds := Some all_subseeds |> in
  Ok (p, g).

(** [Processed(p, images_list=output_images, seed=p.all_seeds[0],
    info=infotexts[0], comments=..., subseed=p.all_subseeds[0],
    index_of_first_image=index_of_first_image, infotexts=infotexts)] *)
Definition assemble (r : Run) : result (Processed.t Image) :=
  let p := r.(run_p) in
  seed0 ← getitem (default [] p.(Processing.all_seeds)) 0;
  info0 ← getitem r.(infotexts) 0;
  subseed0 ← getitem (default [] p.(Processing.all_subseeds)) 0;
  Processed.init p r.(output_images) (SeedInt seed0) info0
    (SeedInt subseed0) None None None None 0 (Some r.(infotexts))
    (String.concat "" ((fun c => c ++ String "010"%char "")%string
                         <$> r.(comments))).

(** def process_images_inner(p) -> Processed *)
Definition process_images_inner (p : StableDiffusionProcessing)
    (st : State) (g : rng_state)
  : result (Processed.t Image * StableDiffusionProcessing * State * rng_state) :=
  _ ← match p.(Processing.prompt) with
      | PromptList l => py_assert (0 <? len l)
      | PromptStr _ => Ok tt
      end;
  '(p, g) ← resolve_seeds p g;
  let p := scripts_process p in
  '(p, st) ← variant_init p st;
  let st := if st.(job_count) =? -1
            then st <| job_count := p.(Processing.n_iter) |> else st in
  r ← iterations (range p.(Processing.n_iter))
        {| run_p := p; run_state := st; comments := [];
           infotexts := []; output_images := [] |};
  res ← assemble r;
  Ok (scripts_postprocess r.(run_p) res, r.(run_p), r.(run_state), g).

End MainLoop.

(** ** The conditioning cache: [get_conds_with_caching] *)

Module Cache.

(** [extra_network_data]: the dict that [extra_networks.parse_prompts]
    returns, from the name of a kind of network to the parameters of its
    uses in the prompts.  Two dicts are equal when they have the same
    keys with equal values, whatever the order of insertion: a finite
    map. *)
Definition network_data : Type := gmap string (list string).

(** [cached_params]: the tuple the cache compares. *)
Record cached_params : Type := {
  required_prompts : list string;
  steps : Z;
  clip_stop_at_last_layers : Z;
  sd_checkpoint_info : string;
  extra_network_data : network_data;
  crop_left : Z;
  crop_top : Z;
  width : Z;
  height : Z;
}.

#[global] Instance cached_params_eq_dec : EqDecision cached_params.
Proof. solve_decision. Defined.

Section WithTensor.
(** The conditioning tensors, and the function being memoised:
    [function(shared.sd_model, required_prompts, steps)]. *)
Context {Tensor : Type}.

(** A cache is a two-element Python list: the arguments last used (or
    [None]) and the result stored for them. *)
Record slot : Type := {
  slot_key : option cached_params;
  slot_value : option Tensor;
}.

(** [[None, None]] *)
Definition empty_slot : slot := {| slot_key := None; slot_value := None |}.

(** The slots are shared objects ([StableDiffusionProcessing.cached_c]
    and friends): a store of slots by location. *)
Definition store : Type := gmap nat slot.

Definition read (σ : store) (l : nat) : slot := default empty_slot (σ !! l).

(** The world of one call: the slots, and the calls made to the compute
    function so far (most recent last). *)
Record world : Type := {
  slots : store;
  calls : list (list string * Z);
}.

(** [for cache in caches: if cache[0] is not None and
    cached_params == cache[0]: return cache[1]] *)
Fixpoint find_hit (σ : store) (k : cached_params) (caches : list nat)
  : option (option Tensor) :=
  match caches with
  | [] => None
  | l :: rest =>
      match (read σ l).(slot_key) with
      | Some k' =>
          if decide (k = k') then Some (read σ l).(slot_value)
          else find_hit σ k rest
      | None => find_hit σ k rest
      end
  end.

(** [cached_params = (required_prompts, steps,
    opts.CLIP_stop_at_last_layers, shared.sd_model.sd_checkpoint_info,
    extra_network_data, opts.sdxl_crop_left, opts.sdxl_crop_top,
    self.width, self.height)] *)
Definition key_of (opts : Options) (checkpoint : string)
    (self_width self_height : Z) (required_prompts : list string) (steps : Z)
    (extra_network_data : network_data) : cached_params := {|
  required_prompts := required_prompts;
  steps := steps;
  clip_stop_at_last_layers := opts.(CLIP_stop_at_last_layers);
  sd_checkpoint_info := checkpoint;
  extra_network_data := extra_network_data;
  crop_left := opts.(sdxl_crop_left);
  crop_top := opts.(sdxl_crop_top);
  width := self_width;
  height := self_height;
|}.

(** def get_conds_with_caching(self, function, required_prompts, steps,
    caches, extra_network_data) *)
Definition get_conds_with_caching
    (opts : Options) (checkpoint : string) (self_width self_height : Z)
    (function : list string -> Z -> Tensor)
    (required_prompts : list string) (steps : Z) (caches : list nat)
    (extra_network_data : network_data) (w : world)
  : result (option Tensor * world) :=
  let cached_params :=
    key_of opts checkpoint self_width self_height required_prompts steps
      extra_network_data in
  match find_hit w.(slots) cached_params caches with
  | Some v => Ok (v, w)
  | None =>
      cache ← getitem caches 0;
      let v := function required_prompts steps in
      (* cache[1] = function(shared.sd_model, required_prompts, steps) *)
      let σ := <[cache := {| slot_key := (read w.(slots) cache).(slot_key);
                             slot_value := Some v |}]> w.(slots) in
      (* cache[0] = cached_params *)
      let σ := <[cache := {| slot_key := Some cached_params;
                             slot_value := (read σ cache).(slot_value) |}]> σ in
      Ok ((read σ cache).(slot_value),
          {| slots := σ; calls := w.(calls) ++ [(required_prompts, steps)] |})
  end.

(** The slot at [l] holds the key [k]. *)
Definition holds (σ : store) (l : nat) (k : cached_params) : Prop :=
  (read σ l).(slot_key) = Some k.

End WithTensor.
Arguments slot : clear implicits.
Arguments store : clear implicits.
Arguments world : clear implicits.

End Cache.

(** ** [decode_latent_batch] *)

Module Decode.

(** [devices.dtype_vae] *)
Inductive dtype : Type := float16 | bfloat16 | float32.

#[global] Instance dtype_eq_dec : EqDecision dtype.
Proof. solve_decision. Defined.

(** The VAE and the NaN test of [modules.devices]:
    [decode d x] is [model.decode_first_stage] on the latent [x] cast to
    [d]; [has_nans s] holds when [devices.test_for_nans(s, "vae")]
    raises [NansException]. *)
Class VAE : Type := {
  Latent : Type;
  Sample : Type;
  decode : dtype -> Latent -> Sample;
  has_nans : Sample -> bool;
}.

(** What the function leaves behind besides its result. *)
Inductive event : Type :=
| Decoded (i : nat) (d : dtype)
| PrintErrorExplanation.

Record devices : Type := {
  dtype_vae : dtype;
  trace : list event;
}.

Section WithVAE.
Context {V : VAE}.

(** def decode_first_stage(model, x) *)
Definition decode_first_stage (i : nat) (x : Latent) (dev : devices)
  : Sample * devices :=
  (decode dev.(dtype_vae) x,
   dev <| trace := dev.(trace) ++ [Decoded i dev.(dtype_vae)] |>).

(** The body of [for i in range(batch.shape[0])], from sample [i] on. *)
Fixpoint decode_from (opts : Options) (check_for_nans : bool)
    (i : nat) (batch : list Latent) (samples : list Sample) (dev : devices)
  : result (list Sample) * devices :=
  match batch with
  | [] => (Ok samples, dev)
  | x :: batch' =>
      let '(sample, dev) := decode_first_stage i x dev in
      if check_for_nans && has_nans sample then
        if bool_decide (dev.(dtype_vae) = float32)
           || negb opts.(auto_vae_precision)
        then (Raise NansException, dev)
        else
          let dev := dev <| trace := dev.(trace) ++ [PrintErrorExplanation] |> in
          let dev := dev <| dtype_vae := float32 |> in
          let '(sample, dev) := decode_first_stage i x dev in
          decode_from opts check_for_nans (S i) batch' (samples ++ [sample]) dev
      else
        decode_from opts check_for_nans (S i) batch' (samples ++ [sample]) dev
  end.

(** def decode_latent_batch(model, batch, target_device=None,
    check_for_nans=False) *)
Definition decode_latent_batch (opts : Options) (batch : list Latent)
    (check_for_nans : bool) (dev : devices)
  : result (list Sample) * devices :=
  decode_from opts check_for_nans 0 batch [] dev.

(** No sample of [batch] fails the NaN test at precision [d], or the test
    is off. *)
Definition clean (check_for_nans : bool) (d : dtype) (batch : list Latent) : Prop :=
  check_for_nans = false \/ Forall (fun x => has_nans (decode d x) = false) batch.

End WithVAE.

End Decode.

(** ** The infotext: [create_infotext] from the generation parameters on *)

Module Infotext.

(** CPython's [repr] of a float and of a string, used by [str] on a
    float and on a list.  A float's [repr] is made of digits, a sign, a
    point, an exponent mark, or is [inf] or [nan]. *)
Class Repr : Type := {
  float_repr : float -> string;
  str_repr : string -> string;
}.

Definition comma : ascii := ","%char.
Definition colon : ascii := ":"%char.
Definition newline : ascii := "010"%char.
Definition dquote : ascii := "034"%char.
Definition backslash : ascii := "092"%char.

(** [c in s] for a one-character [c]. *)
Fixpoint contains (c : ascii) (s : string) : bool :=
  match s with
  | EmptyString => false
  | String c' s' => Ascii.eqb c c' || contains c s'
  end.

Definition hex_digit (n : N) : ascii :=
  match n with
  | 0 => "0" | 1 => "1" | 2 => "2" | 3 => "3" | 4 => "4" | 5 => "5"
  | 6 => "6" | 7 => "7" | 8 => "8" | 9 => "9" | 10 => "a" | 11 => "b"
  | 12 => "c" | 13 => "d" | 14 => "e" | _ => "f"
  end%N%char.

(** [json.dumps] of one character of a string, [ensure_ascii=False]:
    the quote, the backslash and the control characters are escaped,
    every other byte is copied. *)
Definition json_escape_char (c : ascii) : string :=
  let n := N_of_ascii c in
  if Ascii.eqb c dquote then String backslash (String dquote "")
  else if Ascii.eqb c backslash then String backslash (String backslash "")
  else if (n =? 10)%N then String backslash "n"
  else if (n =? 13)%N then String backslash "r"
  else if (n =? 9)%N then String backslash "t"
  else if (n =? 8)%N then String backslash "b"
  else if (n =? 12)%N then String backslash "f"
  else if (n <? 32)%N then
    String backslash
      (String "u" (String "0" (String "0"
         (String (hex_digit (n / 16)) (String (hex_digit (n mod 16)) "")))))
  else String c "".

Fixpoint json_escape (s : string) : string :=
  match s with
  | EmptyString => EmptyString
  | String c s' => (json_escape_char c ++ json_escape s')%string
  end.

(** [json.dumps(s)] on a string: the JSON string literal. *)
Definition json_string (s : string) : string :=
  String dquote (json_escape s ++ String dquote "").

(** The characters a JSON string literal cannot hold as they are: the
    quote, the backslash and the control characters. *)
Definition escaped (c : ascii) : bool :=
  Ascii.eqb c dquote || Ascii.eqb c backslash || (N_of_ascii c <? 32)%N.

(** [s] between two double quotes. *)
Definition in_quotes (s : string) : string :=
  String dquote (s ++ String dquote "")%string.

Section WithRepr.
Context {R : Repr}.

(** [str(v)], which is also what an f-string field prints. *)
Definition str (v : pyval) : string :=
  match v with
  | PyNone => "None"
  | PyBool true => "True"
  | PyBool false => "False"
  | PyInt z => str_of_Z z
  | PyFloat f => float_repr f
  | PyStr s => s
  | PyList l => "[" ++ String.concat ", " (str_repr <$> l) ++ "]"
  end%string.

(** [json.dumps(v, ensure_ascii=False)], for finite floats. *)
Definition json_dumps (v : pyval) : string :=
  match v with
  | PyNone => "null"
  | PyBool true => "true"
  | PyBool false => "false"
  | PyInt z => str_of_Z z
  | PyFloat f => float_repr f
  | PyStr s => json_string s
  | PyList l => "[" ++ String.concat ", " (json_string <$> l) ++ "]"
  end%string.

(** [k == v] for a key [k], always a [str]. *)
Definition key_eq (k : string) (v : pyval) : bool :=
  match v with
  | PyStr s => String.eqb k s
  | _ => false
  end.

(** def quote(text): the value itself, or its JSON form as a string. *)
Definition quote (text : pyval) : pyval :=
  if negb (contains comma (str text)) && negb (contains newline (str text))
     && negb (contains colon (str text))
  then text
  else PyStr (json_dumps text).

(** [[k if k == v else f"{k}: {quote(v)}" for k, v in
    generation_params.items() if v is not None]] *)
Fixpoint generation_params_items (generation_params : dict) : list string :=
  match generation_params with
  | [] => []
  | (k, v) :: rest =>
      match v with
      | PyNone => generation_params_items rest
      | _ =>
          (if key_eq k v then k else k ++ ": " ++ str (quote v))%string
            :: generation_params_items rest
      end
  end.

(** [generation_params_text = ", ".join([...])] *)
Definition generation_params_text (generation_params : dict) : string :=
  String.concat ", " (generation_params_items generation_params).

(** The formatting rule in the words of the specification: a value needs
    quotes when its string form has a comma, a newline or a colon; an
    entry is the bare key when key and value are equal, else
    [key: value] with the value in JSON form when it needs quotes. *)
Definition has_special (s : string) : bool :=
  contains comma s || contains newline s || contains colon s.

Definition render_entry (kv : string * pyval) : string :=
  let '(k, v) := kv in
  if key_eq k v then k
  else (k ++ ": " ++ (if has_special (str v) then json_dumps v else str v))%string.

Definition is_none (v : pyval) : bool :=
  match v with PyNone => true | _ => false end.

End WithRepr.

End Infotext.

(** ** class StableDiffusionProcessingTxt2Img *)

(** def old_hires_fix_first_pass_dimensions(width, height):
    old algorithm for auto-calculating first pass size *)
Definition old_hires_fix_first_pass_dimensions (width height : Z) : result (Z * Z) :=
  let desired_pixel_count := (512 * 512)%Z in
  let actual_pixel_count := (width * height)%Z in
  ratio ← truediv desired_pixel_count actual_pixel_count;
  scale ← Py.sqrt ratio;
  fw ← float_of_Z width;
  w ← ceil (PrimFloat.div (PrimFloat.mul scale fw) 64%float);
  fh ← float_of_Z height;
  h ← ceil (PrimFloat.div (PrimFloat.mul scale fh) 64%float);
  Ok ((w * 64)%Z, (h * 64)%Z).

Module Txt2Img.

Record StableDiffusionProcessingTxt2Img : Type := {
  base : StableDiffusionProcessing;
  enable_hr : bool;
  hr_scale : float;
  hr_upscaler : option string;
  hr_second_pass_steps : Z;
  hr_resize_x : Z;
  hr_resize_y : Z;
  hr_upscale_to_x : Z;
  hr_upscale_to_y : Z;
  hr_sampler_name : option string;
  hr_prompt : prompt_t;
  hr_negative_prompt : prompt_t;
  truncate_x : Z;
  truncate_y : Z;
  applied_old_hires_behavior_to : option (Z * Z);
  is_hr_pass : bool;
}.

Abbreviation t := StableDiffusionProcessingTxt2Img.

Local Open Scope Z_scope.

(** def __init__(self, enable_hr=False, denoising_strength=0.75,
    firstphase_width=0, firstphase_height=0, hr_scale=2.0,
    hr_upscaler=None, hr_second_pass_steps=0, hr_resize_x=0,
    hr_resize_y=0, hr_sampler_name=None, hr_prompt="",
    hr_negative_prompt="", **kwargs) *)
Definition new (kwargs : StableDiffusionProcessing) (enable_hr : bool)
    (denoising_strength : option float) (firstphase_width firstphase_height : Z)
    (hr_scale : float) (hr_upscaler : option string) (hr_second_pass_steps : Z)
    (hr_resize_x hr_resize_y : Z) (hr_sampler_name : option string)
    (hr_prompt hr_negative_prompt : prompt_t) : t :=
  let self := {|
    base := kwargs <| Processing.denoising_strength := denoising_strength |>;
    enable_hr := enable_hr;
    hr_scale := hr_scale;
    hr_upscaler := hr_upscaler;
    hr_second_pass_steps := hr_second_pass_steps;
    hr_resize_x := hr_resize_x;
    hr_resize_y := hr_resize_y;
    hr_upscale_to_x := hr_resize_x;
    hr_upscale_to_y := hr_resize_y;
    hr_sampler_name := hr_sampler_name;
    hr_prompt := hr_prompt;
    hr_negative_prompt := hr_negative_prompt;
    truncate_x := 0;
    truncate_y := 0;
    applied_old_hires_behavior_to := None;
    is_hr_pass := false;
  |} in
  if negb (firstphase_width =? 0) || negb (firstphase_height =? 0) then
    self <| hr_upscale_to_x := kwargs.(Processing.width) |>
         <| hr_upscale_to_y := kwargs.(Processing.height) |>
         <| base := self.(base) <| Processing.width := firstphase_width |>
                                <| Processing.height := firstphase_height |> |>
  else self.

Definition width (self : t) : Z := self.(base).(Processing.width).
Definition height (self : t) : Z := self.(base).(Processing.height).
Definition extra_generation_params (self : t) : dict :=
  self.(base).(Processing.extra_generation_params).
Definition denoising_strength (self : t) : option float :=
  self.(base).(Processing.denoising_strength).

(** [self.extra_generation_params[k] = v] *)
Definition set_param (k : string) (v : pyval) (self : t) : t :=
  self <| base := self.(base) <| Processing.extra_generation_params :=
                    Dict.set k v (extra_generation_params self) |> |>.

(** [self.extra_generation_params.pop(k, None)] *)
Definition pop_param (k : string) (self : t) : t :=
  self <| base := self.(base) <| Processing.extra_generation_params :=
                    Dict.pop k (extra_generation_params self) |> |>.

Definition set_size (w h : Z) (self : t) : t :=
  self <| base := self.(base) <| Processing.width := w |>
                              <| Processing.height := h |> |>.

(** [init], lines "if opts.use_old_hires_fix_width_height and ...". *)
Definition apply_old_hires_behavior (opts : Options) (self : t) : result t :=
  if opts.(use_old_hires_fix_width_height)
     && negb (bool_decide (self.(applied_old_hires_behavior_to)
                           = Some (width self, height self)))
  then
    let self := self <| hr_resize_x := width self |>
                     <| hr_resize_y := height self |>
                     <| hr_upscale_to_x := width self |>
                     <| hr_upscale_to_y := height self |> in
    '(w, h) ← old_hires_fix_first_pass_dimensions (width self) (height self);
    let self := set_size w h self in
    Ok (self <| applied_old_hires_behavior_to := Some (width self, height self) |>)
  else Ok self.

(** [init], lines "if self.hr_resize_x == 0 and self.hr_resize_y == 0:"
    to the end of its [else]: the target resolution of the second pass
    and the truncation. *)
Definition resolve_target (self : t) : result t :=
  if (self.(hr_resize_x) =? 0) && (self.(hr_resize_y) =? 0) then
    let self := set_param "Hires upscale" (PyFloat self.(hr_scale)) self in
    fw ← float_of_Z (width self);
    x ← int_of_float (PrimFloat.mul fw self.(hr_scale));
    let self := self <| hr_upscale_to_x := x |> in
    fh ← float_of_Z (height self);
    y ← int_of_float (PrimFloat.mul fh self.(hr_scale));
    Ok (self <| hr_upscale_to_y := y |>)
  else
    let self :=
      set_param "Hires resize"
        (PyStr (str_of_Z self.(hr_resize_x) ++ "x" ++ str_of_Z self.(hr_resize_y)))
        self in
    if self.(hr_resize_y) =? 0 then
      let self := self <| hr_upscale_to_x := self.(hr_resize_x) |> in
      y ← floordiv (self.(hr_resize_x) * height self) (width self);
      Ok (self <| hr_upscale_to_y := y |>)
    else if self.(hr_resize_x) =? 0 then
      x ← floordiv (self.(hr_resize_y) * width self) (height self);
      Ok (self <| hr_upscale_to_x := x |>
               <| hr_upscale_to_y := self.(hr_resize_y) |>)
    else
      let target_w := self.(hr_resize_x) in
      let target_h := self.(hr_resize_y) in
      src_ratio ← truediv (width self) (height self);
      dst_ratio ← truediv self.(hr_resize_x) self.(hr_resize_y);
      self ←
        (if PrimFloat.ltb src_ratio dst_ratio then
           let self := self <| hr_upscale_to_x := self.(hr_resize_x) |> in
           y ← floordiv (self.(hr_resize_x) * height self) (width self);
           Ok (self <| hr_upscale_to_y := y |>)
         else
           x ← floordiv (self.(hr_resize_y) * width self) (height self);
           Ok (self <| hr_upscale_to_x := x |>
                    <| hr_upscale_to_y := self.(hr_resize_y) |>));
      Ok (self <| truncate_x := (self.(hr_upscale_to_x) - target_w) / opt_f |>
               <| truncate_y := (self.(hr_upscale_to_y) - target_h) / opt_f |>).

(** [init], from "if self.hr_sampler_name is not None" to the end of the
    target resolution: everything before the special case. *)
Definition resolve_hires (opts : Options) (self : t) : result t :=
  let self :=
    match self.(hr_sampler_name) with
    | Some h =>
        if negb (bool_decide (Some h = self.(base).(Processing.sampler_name)))
        then set_param "Hires sampler" (PyStr h) self else self
    | None => self
    end in
  let self :=
    if negb (bool_decide (tuple_of_prompt self.(hr_prompt)
                          = tuple_of_prompt self.(base).(Processing.prompt)))
    then set_param "Hires prompt" (pyval_of_prompt self.(hr_prompt)) self
    else self in
  let self :=
    if negb (bool_decide (tuple_of_prompt self.(hr_negative_prompt)
                          = tuple_of_prompt self.(base).(Processing.negative_prompt)))
    then set_param "Hires negative prompt"
           (pyval_of_prompt self.(hr_negative_prompt)) self
    else self in
  self ← apply_old_hires_behavior opts self;
  resolve_target self.

(** [init], the body of "special case: the user has chosen to do
    nothing". *)
Definition disable_hr (self : t) : t :=
  let self := self <| enable_hr := false |> in
  let self := self <| base := self.(base)
                        <| Processing.denoising_strength := None |> |> in
  let self := pop_param "Hires upscale" self in
  pop_param "Hires resize" self.

(** [init], from "if not state.processing_has_refined_job_count" on. *)
Definition announce_hires (self : t) (state : State) : t * State :=
  let state :=
    if negb state.(processing_has_refined_job_count) then
      let state :=
        if state.(job_count) =? -1
        then state <| job_count := self.(base).(Processing.n_iter) |>
        else state in
      let hr_steps :=
        if self.(hr_second_pass_steps) =? 0
        then self.(base).(Processing.steps) else self.(hr_second_pass_steps) in
      let state :=
        state <| tqdm_total :=
                   (self.(base).(Processing.steps) + hr_steps) * state.(job_count) |> in
      let state := state <| job_count := state.(job_count) * 2 |> in
      state <| processing_has_refined_job_count := true |>
    else state in
  let self :=
    if negb (self.(hr_second_pass_steps) =? 0)
    then set_param "Hires steps" (PyInt self.(hr_second_pass_steps)) self
    else self in
  let self :=
    match self.(hr_upscaler) with
    | Some u => set_param "Hires upscaler" (PyStr u) self
    | None => self
    end in
  (self, state).

(** def init(self, all_prompts, all_seeds, all_subseeds) *)
Definition init (opts : Options) (self : t) (state : State) : result (t * State) :=
  if negb self.(enable_hr) then Ok (self, state)
  else
    self ← resolve_hires opts self;
    (* special case: the user has chosen to do nothing *)
    if (self.(hr_upscale_to_x) =? width self)
       && (self.(hr_upscale_to_y) =? height self)
    then Ok (disable_hr self, state)
    else Ok (announce_hires self state).

(** *** [sample] *)

(** An entry of [shared.latent_upscale_modes]; the default of the
    fallback lookup is the bare string ["nearest"]. *)
Inductive scale_mode : Type :=
| ModeDict (mode : string) (antialias : bool)
| ModeStr (s : string).

Record Shared : Type := {
  latent_upscale_modes : dict_of scale_mode;
  latent_upscale_default_mode : string;
  (** the names of [shared.sd_upscalers] *)
  sd_upscalers : list string;
}.

(** A tensor is followed by its shape: batch, channels, height, width. *)
Definition shape : Type := Z * Z * Z * Z.

(** The calls [sample] makes to its collaborators, in order. *)
Inductive event : Type :=
| CreateSampler (name : option string)
| SamplerSample (x : shape)
| Interpolate (size : Z * Z) (mode : string) (antialias : bool)
| ResizeImage (w h : Z) (upscaler_name : option string)
| NextJob
| BeforeHr
| SamplerSampleImg2Img (sampler : option string) (samples : shape) (steps : Z).

(** [a or b] on names: [None] and the empty string are falsy. *)
Definition or_name (a b : option string) : option string :=
  match a with
  | Some EmptyString | None => b
  | Some _ => a
  end.

(** [self.sampler_name in ["PLMS", "UniPC"]] *)
Definition lacks_img2img (name : option string) : bool :=
  match name with
  | Some n => String.eqb n "PLMS" || String.eqb n "UniPC"
  | None => false
  end.

(** The name given to [sd_samplers.create_sampler] for the second pass. *)
Definition img2img_sampler_name (self : t) : option string :=
  let name := or_name self.(hr_sampler_name) self.(base).(Processing.sampler_name) in
  (* PLMS/UniPC do not support img2img so we just silently switch to DDIM *)
  if lacks_img2img self.(base).(Processing.sampler_name) then Some "DDIM"%string
  else name.

(** The length left on an axis of length [n] by the slice
    [truncate // 2 : n - (truncate + 1) // 2]. *)
Definition crop_axis (n truncate : Z) : Z :=
  slice_len n (truncate / 2) (n - (truncate + 1) / 2).

(** [samples[:, :, self.truncate_y // 2 : ..., self.truncate_x // 2 : ...]] *)
Definition crop_samples (self : t) (samples : shape) : shape :=
  let '(b, c, h, w) := samples in
  (b, c, crop_axis h self.(truncate_y), crop_axis w self.(truncate_x)).

(** [latent_scale_mode] of [sample]. *)
Definition latent_scale_mode (shared : Shared) (self : t) : option scale_mode :=
  match self.(hr_upscaler) with
  | Some u => lookup_key u shared.(latent_upscale_modes)
  | None =>
      Some (default (ModeStr "nearest")
              (lookup_key shared.(latent_upscale_default_mode)
                 shared.(latent_upscale_modes)))
  end.

(** [sample], from "if latent_scale_mode is not None" to the end of its
    [else]: the upscaled latent and the calls made for it. *)
Definition upscale (shared : Shared) (self : t) (samples : shape)
  : result (shape * list event) :=
  let target_width := self.(hr_upscale_to_x) in
  let target_height := self.(hr_upscale_to_y) in
  let '(b, c, _, _) := samples in
  match latent_scale_mode shared self with
  | Some (ModeDict mode antialias) =>
      let size := (target_height / opt_f, target_width / opt_f) in
      Ok ((b, c, size.1, size.2), [Interpolate size mode antialias])
  | Some (ModeStr _) => Raise TypeError
  | None =>
      Ok ((b, opt_C, target_height / opt_f, target_width / opt_f),
          (fun _ => ResizeImage target_width target_height self.(hr_upscaler))
            <$> range b)
  end.

(** def sample(self, conditioning, unconditional_conditioning, seeds,
    subseeds, subseed_strength, prompts), on the noise [x] that
    [self.rng.next()] returns.  The samplers keep the shape of their
    input; the first stage encodes an image to a latent [opt_f] times
    smaller with [opt_C] channels. *)
Definition sample (shared : Shared) (self : t) (x : shape)
  : result (shape * t * list event) :=
  let tr := [CreateSampler self.(base).(Processing.sampler_name)] in
  _ ← (if self.(enable_hr)
          && negb (bool_decide (is_Some (latent_scale_mode shared self)))
       then
         if negb (existsb (fun name => bool_decide (Some name = self.(hr_upscaler)))
                    shared.(sd_upscalers))
         then Raise (Exception ("could not find upscaler named "
                                ++ default "None" self.(hr_upscaler))%string)
         else Ok tt
       else Ok tt);
  let samples := x in
  let tr := tr ++ [SamplerSample x] in
  if negb self.(enable_hr) then Ok (samples, self, tr)
  else
    let self := self <| is_hr_pass := true |> in
    '(samples, upscaling) ← upscale shared self samples;
    let tr := tr ++ upscaling ++ [NextJob] in
    let name := img2img_sampler_name self in
    let tr := tr ++ [CreateSampler name] in
    let samples := crop_samples self samples in
    let tr := tr ++ (if self.(base).(Processing.scripts) then [BeforeHr] else []) in
    let steps :=
      if self.(hr_second_pass_steps) =? 0
      then self.(base).(Processing.steps) else self.(hr_second_pass_steps) in
    let tr := tr ++ [SamplerSampleImg2Img name samples steps] in
    let self := self <| is_hr_pass := false |> in
    Ok (samples, self, tr).

(** The words of the specification for the second pass. *)
Definition target (self : t) : Z * Z := (self.(hr_upscale_to_x), self.(hr_upscale_to_y)).
Definition truncation (self : t) : Z * Z := (self.(truncate_x), self.(truncate_y)).

(** [int(n * self.hr_scale)] *)
Definition scaled (n : Z) (self : t) : result Z :=
  f ← float_of_Z n;
  int_of_float (PrimFloat.mul f self.(hr_scale)).

(** [self.width / self.height < self.hr_resize_x / self.hr_resize_y] *)
Definition src_ratio_lt_dst_ratio (self : t) : result bool :=
  src_ratio ← truediv (width self) (height self);
  dst_ratio ← truediv self.(hr_resize_x) self.(hr_resize_y);
  Ok (PrimFloat.ltb src_ratio dst_ratio).

(** The float comparison of the two ratios decides as the exact
    comparison does (it always does for image sizes: both quotients are
    correctly rounded, and distinct ratios of ints below 2^26 are more
    than an ulp apart). *)
Definition ratio_test_exact (self : t) : Prop :=
  src_ratio_lt_dst_ratio self
  = Ok (width self * self.(hr_resize_y) <? self.(hr_resize_x) * height self).

End Txt2Img.

(** ** class StableDiffusionProcessingImg2Img: the mask of [init] *)

Module Img2Img.

(** PIL, NumPy and OpenCV on the mask. [GaussianBlur m ksize sigma] is
    [cv2.GaussianBlur(np_mask, ksize, sigma)]. *)
Class MaskOps : Type := {
  Mask : Type;
  create_binary_mask : Mask -> Mask;
  invert : Mask -> Mask;
  GaussianBlur : Mask -> Z * Z -> Z -> Mask;
}.

Local Open Scope Z_scope.

(** [kernel_size = 2 * int(2.5 * radius + 0.5) + 1] *)
Definition kernel_size (radius : Z) : result Z :=
  r ← float_of_Z radius;
  k ← int_of_float (PrimFloat.add (PrimFloat.mul 2.5%float r) 0.5%float);
  Ok (2 * k + 1).

Section WithMaskOps.
Context {M : MaskOps}.

(** [init], from "image_mask = create_binary_mask(image_mask)" to the
    end of the two blurs. *)
Definition blurred_mask (inpainting_mask_invert : bool)
    (mask_blur_x mask_blur_y : Z) (image_mask : Mask) : result Mask :=
  let image_mask := create_binary_mask image_mask in
  let image_mask :=
    if inpainting_mask_invert then invert image_mask else image_mask in
  image_mask ←
    (if 0 <? mask_blur_x then
       kernel_size ← kernel_size mask_blur_x;
       Ok (GaussianBlur image_mask (kernel_size, 1) mask_blur_x)
     else Ok image_mask);
  if 0 <? mask_blur_y then
    kernel_size ← kernel_size mask_blur_y;
    Ok (GaussianBlur image_mask (1, kernel_size) mask_blur_y)
  else Ok image_mask.

End WithMaskOps.

End Img2Img.

(** ** A pipeline to run the loop on *)

(** No scripts and no styles; the image of a prompt is its seed; the user
    presses Interrupt while batch [interrupt_during] runs. *)
Definition plain_pipeline (interrupt_during : option Z) : Collaborators := {|
  Image := Z;
  apply_styles_to_prompt x _ := x;
  apply_negative_styles_to_prompt x _ := x;
  scripts_process p := p;
  variant_init p st := Ok (p, st);
  before_process_batch _ p := p;
  run_batch n p st :=
    Ok (p.(Processing.seeds), [], p,
        if bool_decide (Some n = interrupt_during)
        then st <| interrupted := true |> else st);
  infotext p i :=
    ("Seed: " ++ str_of_Z (nth (Z.to_nat i) p.(Processing.seeds) 0%Z))%string;
  nextjob st := st <| job_no := (st.(job_no) + 1)%Z |>;
  scripts_postprocess _ res := res;
|}.

(** The request of the specification's end-to-end scenario: batch_size=2,
    n_iter=1, seed=42, subseed_strength=0 (width and height 512). *)
Definition scenario_request : StableDiffusionProcessing :=
  (Processing.default_processing (PromptStr "a cat"))
    <| Processing.seed := SeedInt 42 |> <| Processing.batch_size := 2%Z |>.

(** [shared.state] at the start of a job. *)
Definition fresh_state : State := {|
  interrupted := false;
  skipped := false;
  job_count := -1;
  job_no := 0;
  processing_has_refined_job_count := false;
  tqdm_total := 0;
|}.

(** ** Vocabulary of the specification *)

(** The seeds that ask for a random one. *)
Definition asks_random (s : seed_t) : Prop :=
  s = SeedNone \/ s = SeedEmpty \/ s = SeedInt (-1).

(** A seed that is not a list. *)
Definition scalar (s : seed_t) : Prop := forall l, s <> SeedList l.

(** What [Processed] reports for a prompt: the string itself, or the
    first element of a list. *)
Definition reported_prompt (x : prompt_t) (out : string) : Prop :=
  match x with
  | PromptStr s => out = s
  | PromptList l => head l = Some out
  end.

(** What [Processed] reports for a seed: [-1] for [None], the int itself,
    or the first element of a list. *)
Definition reported_seed (x : seed_t) (out : Z) : Prop :=
  match x with
  | SeedNone => out = (-1)%Z
  | SeedInt z => out = z
  | SeedList l => head l = Some out
  | SeedEmpty => False
  end.

(** A list field of [Processed]: the constructor's argument when it
    provides one, else the request's, else the singleton of the scalar. *)
Definition defaulted {A} (arg req : option (list A)) (x : A) (out : list A) : Prop :=
  (forall l, arg = Some l -> l <> [] -> out = l)
  /\ (truthy arg = false -> forall l, req = Some l -> l <> [] -> out = l)
  /\ (truthy arg = false -> truthy req = false -> out = [x]).

(** The trace of decoding [n] samples, from index [i] on, at precision
    [d], one decode each. *)
Fixpoint decoded_run (i : nat) (d : Decode.dtype) (n : nat) : list Decode.event :=
  match n with
  | O => []
  | S n' => Decode.Decoded i d :: decoded_run (S i) d n'
  end.

(** A VAE that yields a NaN image for the latent [0] at every precision;
    a sample records the precision it was decoded at. *)
Definition nan_vae : Decode.VAE := {|
  Decode.Latent := nat;
  Decode.Sample := Decode.dtype * nat;
  Decode.decode d x := (d, x);
  Decode.has_nans s := Nat.eqb s.2 0;
|}.

(** A VAE that overflows to NaN on the latent [0] in half precision only. *)
Definition half_nan_vae : Decode.VAE := {|
  Decode.Latent := nat;
  Decode.Sample := Decode.dtype * nat;
  Decode.decode d x := (d, x);
  Decode.has_nans s :=
    Nat.eqb s.2 0 && negb (bool_decide (s.1 = Decode.float32));
|}.

Definition default_options : Options := {|
  use_old_hires_fix_width_height := false;
  auto_vae_precision := true;
  CLIP_stop_at_last_layers := 1;
  sdxl_crop_left := 0;
  sdxl_crop_top := 0;
|}.

(** A text-to-image request of 512 by 512 with the second pass enabled,
    its hires prompts as [setup_prompts] leaves them (the base prompts). *)
Definition hires_request (hr_scale : float) (hr_resize_x hr_resize_y : Z)
    (sampler_name hr_sampler_name : option string) : Txt2Img.t :=
  Txt2Img.new
    ((Processing.default_processing (PromptStr "a cat"))
       <| Processing.sampler_name := sampler_name |>)
    true (Some 0.75%float) 0 0 hr_scale (Some "Latent"%string) 0
    hr_resize_x hr_resize_y hr_sampler_name (PromptStr "a cat") (PromptStr "").

(** The request with [d] as its [extra_generation_params]. *)
Definition with_params (d : dict) (self : Txt2Img.t) : Txt2Img.t :=
  self <| Txt2Img.base :=
            self.(Txt2Img.base) <| Processing.extra_generation_params := d |> |>.

(** The request once its caller has set a script runner
    ([p.scripts = modules.scripts.scripts_txt2img]). *)
Definition with_scripts (self : Txt2Img.t) : Txt2Img.t :=
  self <| Txt2Img.base := self.(Txt2Img.base) <| Processing.scripts := true |> |>.

(** [modules.shared] with the latent upscale modes of the web UI. *)
Definition default_shared : Txt2Img.Shared := {|
  Txt2Img.latent_upscale_modes :=
    [("Latent", Txt2Img.ModeDict "bilinear" false);
     ("Latent (antialiased)", Txt2Img.ModeDict "bilinear" true);
     ("Latent (nearest)", Txt2Img.ModeDict "nearest" false)]%string;
  Txt2Img.latent_upscale_default_mode := "Latent"%string;
  Txt2Img.sd_upscalers := ["None"; "Lanczos"; "Nearest"]%string;
|}.

(** The kernel size as the specification words it, with [ceil]. *)
Definition kernel_size_with_ceil (radius : Z) : result Z :=
  r ← float_of_Z radius;
  k ← ceil (PrimFloat.add (PrimFloat.mul 2.5%float r) 0.5%float);
  Ok (2 * k + 1)%Z.

(** One blur of the mask pipeline in closed form: no blur for a radius
    that is not positive, else a Gaussian blur along one axis with
    [2 * floor(2.5 * radius + 0.5) + 1] taps. *)
Definition blur_axis {M : Img2Img.MaskOps} (horizontal : bool) (radius : Z)
    (m : Img2Img.Mask) : Img2Img.Mask :=
  if (0 <? radius)%Z then
    let k := (2 * ((5 * radius + 1) / 2) + 1)%Z in
    Img2Img.GaussianBlur m (if horizontal then (k, 1%Z) else (1%Z, k)) radius
  else m.

(** Masks that record what was done to them. *)
Inductive mask_op : Type :=
| BinaryMask
| Inverted
| Blurred (ksize : Z * Z) (sigma : Z).

Definition recording_masks : Img2Img.MaskOps := {|
  Img2Img.Mask := list mask_op;
  Img2Img.create_binary_mask m := m ++ [BinaryMask];
  Img2Img.invert m := m ++ [Inverted];
  Img2Img.GaussianBlur m ksize sigma := m ++ [Blurred ksize sigma];
|}.

(** The radii the kernel size is checked for, one by one. *)
Definition max_checked_radius : Z := 1024.

Definition kernel_size_is_floor (radius : Z) : bool :=
  match Img2Img.kernel_size radius with
  | Ok k => (k =? 2 * ((5 * radius + 1) / 2) + 1)%Z
  | Raise _ => false
  end.

(* ===================================================================== *)
(** * Part I, continued: the rest of the module                           *)
(* ===================================================================== *)

(** ** [setup_conds], [calculate_hr_conds] and [close] *)

Module Conds.

(** The lists an instance refers to: [self.cached_uc], [self.cached_c],
    [self.cached_hr_uc], [self.cached_hr_c].  The constructors copy the
    references from the class attributes. *)
Record caches : Type := {
  cached_uc : nat;
  cached_c : nat;
  cached_hr_uc : nat;
  cached_hr_c : nat;
}.

Section WithTensor.
Context {Tensor : Type}.

(** [prompt_parser.get_learned_conditioning] and
    [prompt_parser.get_multicond_learned_conditioning], applied to
    [shared.sd_model]. *)
Variable get_learned_conditioning : list string -> Z -> Tensor.
Variable get_multicond_learned_conditioning : list string -> Z -> Tensor.

(** [self.uc], [self.c], [self.hr_uc], [self.hr_c] and
    [self.step_multiplier]. *)
Record conds : Type := {
  uc : option Tensor;
  c : option Tensor;
  hr_uc : option Tensor;
  hr_c : option Tensor;
  step_multiplier : Z;
}.

(** class StableDiffusionProcessing: def setup_conds(self).
    [second_order] is
    [sampler_config and sampler_config.options.get("second_order", False)]
    for the configuration of [self.sampler_name]. *)
Definition setup_conds (opts : Options) (checkpoint : string)
    (second_order : bool) (ks : caches) (self : StableDiffusionProcessing)
    (extra_network_data : Cache.network_data)
    (cs : conds) (w : Cache.world Tensor)
  : result (conds * Cache.world Tensor) :=
  let prompts := self.(Processing.prompts) in
  let negative_prompts := self.(Processing.negative_prompts) in
  let step_multiplier := (if second_order then 2 else 1)%Z in
  '(uc, w) ←
    Cache.get_conds_with_caching opts checkpoint self.(Processing.width)
      self.(Processing.height) get_learned_conditioning negative_prompts
      (self.(Processing.steps) * step_multiplier)%Z [ks.(cached_uc)]
      extra_network_data w;
  '(c, w) ←
    Cache.get_conds_with_caching opts checkpoint self.(Processing.width)
      self.(Processing.height) get_multicond_learned_conditioning prompts
      (self.(Processing.steps) * step_multiplier)%Z [ks.(cached_c)]
      extra_network_data w;
  Ok ({| uc := uc; c := c; hr_uc := cs.(hr_uc); hr_c := cs.(hr_c);
         step_multiplier := step_multiplier |}, w).

(** class StableDiffusionProcessingTxt2Img: def calculate_hr_conds(self),
    on the slices [self.hr_prompts], [self.hr_negative_prompts] and
    [self.hr_extra_network_data]. *)
Definition calculate_hr_conds (opts : Options) (checkpoint : string)
    (ks : caches) (self : StableDiffusionProcessing)
    (hr_prompts hr_negative_prompts : list string)
    (hr_extra_network_data : Cache.network_data)
    (cs : conds) (w : Cache.world Tensor)
  : result (conds * Cache.world Tensor) :=
  match cs.(hr_c) with
  | Some _ => Ok (cs, w)
  | None =>
      '(hr_uc, w) ←
        Cache.get_conds_with_caching opts checkpoint self.(Processing.width)
          self.(Processing.height) get_learned_conditioning hr_negative_prompts
          (self.(Processing.steps) * cs.(step_multiplier))%Z
          [ks.(cached_hr_uc); ks.(cached_uc)] hr_extra_network_data w;
      '(hr_c, w) ←
        Cache.get_conds_with_caching opts checkpoint self.(Processing.width)
          self.(Processing.height) get_multicond_learned_conditioning hr_prompts
          (self.(Processing.steps) * cs.(step_multiplier))%Z
          [ks.(cached_hr_c); ks.(cached_c)] hr_extra_network_data w;
      Ok ({| uc := cs.(uc); c := cs.(c); hr_uc := hr_uc; hr_c := hr_c;
             step_multiplier := cs.(step_multiplier) |}, w)
  end.

(** class StableDiffusionProcessingTxt2Img: def setup_conds(self).
    [hires_fix_use_firstpass_conds] is the option of that name and
    [lowvram] is [lowvram.is_enabled(shared.sd_model)]; activating the
    extra networks does not touch the caches. *)
Definition setup_conds_txt2img (opts : Options) (checkpoint : string)
    (second_order hires_fix_use_firstpass_conds lowvram : bool)
    (ks : caches) (self : StableDiffusionProcessing) (enable_hr : bool)
    (extra_network_data : Cache.network_data)
    (hr_prompts hr_negative_prompts : list string)
    (hr_extra_network_data : Cache.network_data)
    (cs : conds) (w : Cache.world Tensor)
  : result (conds * Cache.world Tensor) :=
  '(cs, w) ← setup_conds opts checkpoint second_order ks self extra_network_data cs w;
  let cs := {| uc := cs.(uc); c := cs.(c); hr_uc := None; hr_c := None;
               step_multiplier := cs.(step_multiplier) |} in
  if enable_hr then
    if hires_fix_use_firstpass_conds then
      calculate_hr_conds opts checkpoint ks self hr_prompts hr_negative_prompts
        hr_extra_network_data cs w
    else if lowvram then
      (* if in lowvram mode, we need to calculate conds right away, before
         the cond NN is unloaded *)
      calculate_hr_conds opts checkpoint ks self hr_prompts hr_negative_prompts
        hr_extra_network_data cs w
    else Ok (cs, w)
  else Ok (cs, w).

(** [[None, None]]: a new list object.  The store holds every list the
    program has created (those of the class attributes from the start),
    so a location outside it is one no list has. *)
Definition new_list (σ : Cache.store Tensor) : nat * Cache.store Tensor :=
  let l := fresh (dom σ) in (l, <[l := Cache.empty_slot]> σ).

(** class StableDiffusionProcessing: def close(self), on the class
    attributes: unless the cache is persistent, [cached_c] and [cached_uc]
    are bound to new lists. *)
Definition close (experimental_persistent_cond_cache : bool) (cls : caches)
    (w : Cache.world Tensor) : caches * Cache.world Tensor :=
  if negb experimental_persistent_cond_cache then
    let '(lc, σ) := new_list w.(Cache.slots) in
    let '(luc, σ) := new_list σ in
    ({| cached_uc := luc; cached_c := lc;
        cached_hr_uc := cls.(cached_hr_uc); cached_hr_c := cls.(cached_hr_c) |},
     {| Cache.slots := σ; Cache.calls := w.(Cache.calls) |})
  else (cls, w).

(** class StableDiffusionProcessingTxt2Img: def close(self). *)
Definition close_txt2img (experimental_persistent_cond_cache : bool)
    (cls : caches) (w : Cache.world Tensor) : caches * Cache.world Tensor :=
  let '(cls, w) := close experimental_persistent_cond_cache cls w in
  if negb experimental_persistent_cond_cache then
    let '(lhuc, σ) := new_list w.(Cache.slots) in
    let '(lhc, σ) := new_list σ in
    ({| cached_uc := cls.(cached_uc); cached_c := cls.(cached_c);
        cached_hr_uc := lhuc; cached_hr_c := lhc |},
     {| Cache.slots := σ; Cache.calls := w.(Cache.calls) |})
  else (cls, w).

(** No conditioning computed yet. *)
Definition no_conds : conds :=
  {| uc := None; c := None; hr_uc := None; hr_c := None; step_multiplier := 1 |}.

End WithTensor.
Arguments conds : clear implicits.

(** The four lists are four different objects. *)
Definition distinct (ks : caches) : Prop :=
  NoDup [ks.(cached_uc); ks.(cached_c); ks.(cached_hr_uc); ks.(cached_hr_c)].

End Conds.

(** The lists of the class attributes as a program starts, and the world
    at that point: the four lists are [[None, None]] and nothing has been
    computed. *)
Definition class_caches : Conds.caches := {|
  Conds.cached_uc := 0; Conds.cached_c := 1;
  Conds.cached_hr_uc := 2; Conds.cached_hr_c := 3;
|}.

Definition initial_world {Tensor : Type} : Cache.world Tensor :=
  {| Cache.slots :=
       <[3%nat := Cache.empty_slot]>
         (<[2%nat := Cache.empty_slot]>
            (<[1%nat := Cache.empty_slot]> (<[0%nat := Cache.empty_slot]> ∅)));
     Cache.calls := [] |}.

(** A request whose current batch is set up, and conditioning functions
    that return their arguments. *)
Definition batch_request : StableDiffusionProcessing :=
  scenario_request <| Processing.prompts := ["a cat"; "a cat"]%string |>
                   <| Processing.negative_prompts := [""; ""]%string |>.

Definition echo_conditioning (tag : string) (prompts : list string) (steps : Z)
  : string * list string * Z := (tag, prompts, steps).

(** How often a trace reports the fallback to 32-bit floats, and how many
    calls of the VAE it records. *)
Definition is_explanation (e : Decode.event) : bool :=
  match e with Decode.PrintErrorExplanation => true | _ => false end.

Definition explanations (tr : list Decode.event) : nat :=
  length (List.filter is_explanation tr).

Definition decodes (tr : list Decode.event) : nat :=
  length (List.filter (fun e => negb (is_explanation e)) tr).

(** A coarse [repr] to run examples whose values are ints and strings
    without quotes or escapes: a string between single quotes, a float by
    its class. *)
Definition example_repr : Infotext.Repr := {|
  Infotext.float_repr f :=
    (if PrimFloat.is_nan f then "nan"
     else if PrimFloat.is_infinity f then "inf" else "0.0")%string;
  Infotext.str_repr s := ("'" ++ s ++ "'")%string;
|}.

(** ** The prompts of the second pass *)

Module HrPrompts.
Section WithCollaborators.
Context {C : Collaborators}.

(** [self.all_hr_prompts] and [self.all_hr_negative_prompts], which are
    [None] until [setup_prompts] sets them; [setup_prompts] below gives
    [None] when it returns without touching them. *)
Record lists : Type := {
  all_hr_prompts : list string;
  all_hr_negative_prompts : list string;
}.

(** class StableDiffusionProcessingTxt2Img: def setup_prompts(self) *)
Definition setup_prompts (self : Txt2Img.t)
  : result (Txt2Img.t * option lists) :=
  base ← setup_prompts self.(Txt2Img.base);
  let self := self <| Txt2Img.base := base |> in
  if negb self.(Txt2Img.enable_hr) then Ok (self, None)
  else
    let self :=
      if bool_decide (self.(Txt2Img.hr_prompt) = PromptStr "")
      then self <| Txt2Img.hr_prompt := base.(Processing.prompt) |>
      else self in
    let self :=
      if bool_decide (self.(Txt2Img.hr_negative_prompt) = PromptStr "")
      then self <| Txt2Img.hr_negative_prompt := base.(Processing.negative_prompt) |>
      else self in
    let all_hr_prompts :=
      match self.(Txt2Img.hr_prompt) with
      | PromptList l => l
      | PromptStr s =>
          list_mul (base.(Processing.batch_size) * base.(Processing.n_iter))%Z s
      end in
    let all_hr_negative_prompts :=
      match self.(Txt2Img.hr_negative_prompt) with
      | PromptList l => l
      | PromptStr s =>
          list_mul (base.(Processing.batch_size) * base.(Processing.n_iter))%Z s
      end in
    let all_hr_prompts :=
      (fun x => apply_styles_to_prompt x base.(Processing.styles))
        <$> all_hr_prompts in
    let all_hr_negative_prompts :=
      (fun x => apply_negative_styles_to_prompt x base.(Processing.styles))
        <$> all_hr_negative_prompts in
    Ok (self, Some {| all_hr_prompts := all_hr_prompts;
                      all_hr_negative_prompts := all_hr_negative_prompts |}).

End WithCollaborators.
End HrPrompts.

(** The keys [init] may write or remove in [extra_generation_params]. *)
Definition hires_keys : list string :=
  ["Hires sampler"; "Hires prompt"; "Hires negative prompt"; "Hires upscale";
   "Hires resize"; "Hires steps"; "Hires upscaler"]%string.

(** The options with the old first-pass sizing switched on. *)
Definition old_hires_options : Options :=
  default_options <| use_old_hires_fix_width_height := true |>.

(** A hires request that leaves the prompts of the second pass empty, and
    one that carries a parameter of an extension. *)
Definition plain_hires_request : Txt2Img.t :=
  Txt2Img.new (Processing.default_processing (PromptStr "a cat"))
    true (Some 0.75%float) 0 0 2%float (Some "Latent"%string) 0 0 0 None
    (PromptStr "") (PromptStr "").

Definition tagged_hires_request : Txt2Img.t :=
  Txt2Img.set_param "Lora hashes" (PyStr "abc") (hires_request 2 0 0 None None).

(** ** The batch of image-to-image *)

Module Img2ImgInit.

(** PIL, NumPy and the helpers of [modules.images] and [modules.masking]
    on the init images: [masked image m] is the overlay built from
    [image] and the mask [m] ("image_masked.convert("RGBA")"), and
    [to_array] the conversion to a float array, channels first. *)
Class ImageOps : Type := {
  Img : Type;
  Array : Type;
  Correction : Type;
  flatten : Img -> Img;
  resize_image : Z -> Img -> Z -> Z -> Img;
  crop : Img -> Z * Z * Z * Z -> Img;
  masked : Img -> Img -> Img;
  fill : Img -> Img -> Img;
  setup_color_correction : Img -> Correction;
  to_array : Img -> Array;
}.

Local Open Scope Z_scope.

(** [l * n] on a list. *)
Definition seq_mul {A} (l : list A) (n : Z) : list A :=
  mjoin (replicate (Z.to_nat n) l).

Section WithImageOps.
Context {I : ImageOps}.

(** The attributes of the request that the loop over the init images and
    the batching read and write. *)
Record request : Type := {
  init_images : list Img;
  resize_mode : Z;
  width : Z;
  height : Z;
  inpainting_fill : Z;
  batch_size : Z;
  overlay_images : option (list Img);
  color_corrections : option (list Correction);
}.

(** The masks [init] has prepared when [image_mask is not None]: the
    local [image_mask], [self.mask_for_overlay] and the local
    [latent_mask]. *)
Record masks : Type := {
  image_mask : Img;
  mask_for_overlay : Img;
  latent_mask : Img;
}.

(** The body of [for img in self.init_images] (saving the init image
    apart). *)
Definition prepare (m : option masks) (crop_region : option (Z * Z * Z * Z))
    (add_color_corrections : bool)
    (acc : list Array * request) (img : Img) : list Array * request :=
  let '(imgs, self) := acc in
  let image := flatten img in
  let image :=
    if negb (bool_decide (is_Some crop_region))
       && negb (self.(resize_mode) =? 3)
    then resize_image self.(resize_mode) image self.(width) self.(height)
    else image in
  let self :=
    match m with
    | Some ms =>
        self <| overlay_images :=
                  (fun l => l ++ [masked image ms.(mask_for_overlay)])
                    <$> self.(overlay_images) |>
    | None => self
    end in
  (* crop_region is not None if we are doing inpaint full res *)
  let image :=
    match crop_region with
    | Some r => resize_image 2 (crop image r) self.(width) self.(height)
    | None => image
    end in
  let image :=
    match m with
    | Some ms =>
        if negb (self.(inpainting_fill) =? 1) then fill image ms.(latent_mask)
        else image
    | None => image
    end in
  let self :=
    if add_color_corrections then
      self <| color_corrections :=
                (fun l => l ++ [setup_color_correction image])
                  <$> self.(color_corrections) |>
    else self in
  (imgs ++ [to_array image], self).

(** [init], from "self.overlay_images = []" to the end of the loop. *)
Definition collect (img2img_color_correction : bool) (m : option masks)
    (crop_region : option (Z * Z * Z * Z)) (self : request)
  : list Array * request :=
  let self :=
    match m with
    | Some _ => self <| overlay_images := Some [] |>
    | None => self
    end in
  let add_color_corrections :=
    img2img_color_correction
    && negb (bool_decide (is_Some self.(color_corrections))) in
  let self :=
    if add_color_corrections then self <| color_corrections := Some [] |>
    else self in
  fold_left (prepare m crop_region add_color_corrections)
    self.(init_images) ([], self).

(** [init], from "if len(imgs) == 1:" to the end of its [else]:
    [batch_images], as the list of its rows.  NumPy refuses a negative
    number of repeats. *)
Definition batch (imgs : list Array) (self : request)
  : result (list Array * request) :=
  match imgs with
  | [img] =>
      if self.(batch_size) <? 0 then Raise ValueError
      else
        let batch_images := list_mul self.(batch_size) img in
        let self :=
          self <| overlay_images :=
                    (fun l => seq_mul l self.(batch_size))
                      <$> self.(overlay_images) |> in
        let self :=
          match self.(color_corrections) with
          | Some [c] =>
              self <| color_corrections := Some (seq_mul [c] self.(batch_size)) |>
          | _ => self
          end in
        Ok (batch_images, self)
  | _ =>
      if Z.of_nat (length imgs) <=? self.(batch_size) then
        Ok (imgs, self <| batch_size := Z.of_nat (length imgs) |>)
      else
        Raise (RuntimeError
                 ("bad number of images passed: "
                  ++ str_of_Z (Z.of_nat (length imgs)) ++ "; expecting "
                  ++ str_of_Z self.(batch_size) ++ " or less")%string)
  end.

Definition init_batch (img2img_color_correction : bool) (m : option masks)
    (crop_region : option (Z * Z * Z * Z)) (self : request)
  : result (list Array * request) :=
  let '(imgs, self) := collect img2img_color_correction m crop_region self in
  batch imgs self.

End WithImageOps.
Arguments request : clear implicits.
Arguments request {I}.

End Img2ImgInit.

(** Image operations that keep the name of the image and record what was
    done to it. *)
Definition naming_images : Img2ImgInit.ImageOps := {|
  Img2ImgInit.Img := string;
  Img2ImgInit.Array := string;
  Img2ImgInit.Correction := string;
  Img2ImgInit.flatten img := img;
  Img2ImgInit.resize_image _ img _ _ := img;
  Img2ImgInit.crop img _ := img;
  Img2ImgInit.masked img m := (img ++ "/" ++ m)%string;
  Img2ImgInit.fill img _ := img;
  Img2ImgInit.setup_color_correction img := img;
  Img2ImgInit.to_array img := img;
|}.

(** An inpainting request for a batch of four. *)
Definition inpaint_request (init_images : list (@Img2ImgInit.Img naming_images))
  : Img2ImgInit.request (I := naming_images) := {|
  Img2ImgInit.init_images := init_images;
  Img2ImgInit.resize_mode := 0;
  Img2ImgInit.width := 512;
  Img2ImgInit.height := 512;
  Img2ImgInit.inpainting_fill := 1;
  Img2ImgInit.batch_size := 4;
  Img2ImgInit.overlay_images := None;
  Img2ImgInit.color_corrections := None;
|}.

Definition inpaint_masks : Img2ImgInit.masks (I := naming_images) := {|
  Img2ImgInit.image_mask := ("mask"%string : @Img2ImgInit.Img naming_images);
  Img2ImgInit.mask_for_overlay := ("mask"%string : @Img2ImgInit.Img naming_images);
  Img2ImgInit.latent_mask := ("mask"%string : @Img2ImgInit.Img naming_images);
|}.

(** ** [scripts/animatediff_ui.py] *)

Module AnimateDiff.

Local Open Scope Z_scope.

Section WithFrame.
(** The image given as [last_frame]. *)
Context {Frame : Type}.

(** class AnimateDiffProcess.  The attributes are kept in the order
    [__init__] assigns them, which is the order of [vars(self)];
    [video_default] does not exist until [set_p] assigns it.  The
    numbers are ints, as the defaults are. *)
Record AnimateDiffProcess : Type := {
  model : string;
  enable : bool;
  video_length : Z;
  fps : Z;
  loop_number : Z;
  closed_loop : bool;
  batch_size : Z;
  stride : Z;
  overlap : Z;
  format : list string;
  interp : string;
  interp_x : Z;
  reverse : list string;
  video_source : option string;
  video_path : string;
  latent_power : Z;
  latent_scale : Z;
  last_frame : option Frame;
  latent_power_last : Z;
  latent_scale_last : Z;
  video_default : option bool;
}.

(** def __init__(self, model="mm_sd_v15_v2.ckpt", enable=False, ...):
    the instance the defaults give. *)
Definition new : AnimateDiffProcess := {|
  model := "mm_sd_v15_v2.ckpt";
  enable := false;
  video_length := 0;
  fps := 8;
  loop_number := 0;
  closed_loop := false;
  batch_size := 16;
  stride := 1;
  overlap := -1;
  format := ["GIF"; "PNG"];
  interp := "Off";
  interp_x := 10;
  reverse := [];
  video_source := None;
  video_path := "";
  latent_power := 1;
  latent_scale := 32;
  last_frame := None;
  latent_power_last := 1;
  latent_scale_last := 32;
  video_default := None;
|}.

(** The values of the attributes. *)
Inductive attr : Type :=
| AStr (s : string)
| ABool (b : bool)
| AInt (z : Z)
| AList (l : list string)
| ANone
| AFrame (f : Frame).

Definition of_option {A} (f : A -> attr) (o : option A) : attr :=
  match o with Some a => f a | None => ANone end.

(** [list(vars(self).values())] *)
Definition vars_values (self : AnimateDiffProcess) : list attr :=
  [AStr self.(model); ABool self.(enable); AInt self.(video_length);
   AInt self.(fps); AInt self.(loop_number); ABool self.(closed_loop);
   AInt self.(batch_size); AInt self.(stride); AInt self.(overlap);
   AList self.(format); AStr self.(interp); AInt self.(interp_x);
   AList self.(reverse); of_option AStr self.(video_source);
   AStr self.(video_path); AInt self.(latent_power); AInt self.(latent_scale);
   of_option AFrame self.(last_frame); AInt self.(latent_power_last);
   AInt self.(latent_scale_last)]
  ++ match self.(video_default) with
     | Some b => [ABool b]
     | None => []
     end.

(** def get_list(self, is_img2img: bool) *)
Definition get_list (self : AnimateDiffProcess) (is_img2img : bool) : list attr :=
  let list_var := vars_values self in
  if negb is_img2img then slice list_var 0 (Z.of_nat (length list_var) - 5)
  else list_var.

(** [not set(["GIF", "MP4", "PNG"]).isdisjoint(self.format)] *)
Definition saves_some_format (format : list string) : bool :=
  existsb (fun f => existsb (String.eqb f) ["GIF"; "MP4"; "PNG"]%string) format.

(** def _check(self) *)
Definition _check (self : AnimateDiffProcess) : result unit :=
  _ ← py_assert ((0 <=? self.(video_length)) && (0 <? self.(fps)));
  py_assert (saves_some_format self.(format)).

(** def set_p(self, p), on [p.batch_size] and [p.do_not_save_samples]. *)
Definition set_p (self : AnimateDiffProcess) (p : StableDiffusionProcessing)
    (do_not_save_samples : bool)
  : result (AnimateDiffProcess * StableDiffusionProcessing * bool) :=
  _ ← _check self;
  let p :=
    if self.(video_length) <? self.(batch_size)
    then p <| Processing.batch_size := self.(batch_size) |>
    else p <| Processing.batch_size := self.(video_length) |> in
  let self :=
    if self.(video_length) =? 0
    then self <| video_length := p.(Processing.batch_size) |>
              <| video_default := Some true |>
    else self <| video_default := Some false |> in
  let self :=
    if self.(overlap) =? -1
    then self <| overlap := self.(batch_size) / 4 |>
    else self in
  let do_not_save_samples :=
    if negb (existsb (String.eqb "PNG") self.(format)) then true
    else do_not_save_samples in
  Ok (self, p, do_not_save_samples).

End WithFrame.
Arguments AnimateDiffProcess : clear implicits.
Arguments attr : clear implicits.

End AnimateDiff.

(** ** Proof tactics *)

(** Open a text-to-image request and compute through the setters. *)
Ltac open_self self :=
  let b := fresh "b" in
  destruct self as [b ? ? ? ? ? ? ? ? ? ? ? ? ? ? ?]; destruct b;
  unfold Txt2Img.width, Txt2Img.height, Txt2Img.target, Txt2Img.truncation,
    Txt2Img.scaled, Txt2Img.src_ratio_lt_dst_ratio in *;
  simpl in *; unfold constant in *.

(** Replace the right-hand side of an equation by its value. *)
Ltac compute_rhs H :=
  match type of H with
  | _ = ?rhs => let v := eval vm_compute in rhs in change rhs with v in H
  end.

(* ===================================================================== *)
(** * Part II: the properties                                             *)
(* ===================================================================== *)

(** ** Python helpers *)

Lemma bind_Ok {A B} (a : A) (f : A -> result B) : Ok a ≫= f = f a.
Proof. reflexivity. Qed.

Lemma bind_Raise {A B} (e : exn) (f : A -> result B) : Raise e ≫= f = Raise e.
Proof. reflexivity. Qed.

Lemma length_range (n : Z) : length (range n) = Z.to_nat n.
Proof. unfold range. rewrite length_fmap. apply length_seq. Qed.

Lemma lookup_range (n : Z) (i : nat) :
  (i < Z.to_nat n)%nat -> range n !! i = Some (Z.of_nat i).
Proof.
  intros Hi. unfold range. rewrite list_lookup_fmap.
  rewrite lookup_seq_lt by exact Hi. reflexivity.
Qed.

Lemma float_pos_not_zero (f : float) :
  PrimFloat.ltb 0%float f = true -> PrimFloat.eqb f 0%float = false.
Proof.
  rewrite FloatAxioms.ltb_spec, FloatAxioms.eqb_spec.
  change (Prim2SF 0%float) with (S754_zero false).
  destruct (Prim2SF f) as [s | s | | s m e]; try destruct s; cbn; congruence.
Qed.

(** ** Seeds (C1) *)

Section SeedFacts.
Context {RS : RandomSource} {C : Collaborators}.
Local Open Scope Z_scope.

Lemma get_fixed_seed_random (s : seed_t) (g : rng_state) :
  asks_random s ->
  get_fixed_seed s g
  = (SeedInt (randrange 4294967294 g).1, (randrange 4294967294 g).2)
  /\ 0 <= (randrange 4294967294 g).1 < 4294967294.
Proof.
  intros Hs. split.
  - destruct Hs as [-> | [-> | ->]]; simpl;
      destruct (randrange 4294967294 g); reflexivity.
  - apply randrange_in_range. lia.
Qed.

Lemma get_fixed_seed_unchanged (s : seed_t) (g : rng_state) :
  ~ asks_random s -> get_fixed_seed s g = (s, g).
Proof.
  intros Hs. unfold asks_random in Hs.
  destruct s as [ | | z | l]; try reflexivity; try tauto.
  destruct (decide (z = -1)) as [-> | Hz]; [tauto |].
  destruct z as [ | q | q]; try reflexivity.
  destruct q; try reflexivity. congruence.
Qed.

Lemma scalar_fixed (s : seed_t) (g : rng_state) :
  scalar s -> exists z, (get_fixed_seed s g).1 = SeedInt z.
Proof.
  intros Hs.
  destruct (decide (s = SeedInt (-1))) as [-> | Hne].
  { eexists. rewrite (proj1 (get_fixed_seed_random _ g (or_intror (or_intror eq_refl)))).
    reflexivity. }
  destruct s as [ | | z | l].
  - eexists. rewrite (proj1 (get_fixed_seed_random _ g (or_introl eq_refl))). reflexivity.
  - eexists. rewrite (proj1 (get_fixed_seed_random _ g (or_intror (or_introl eq_refl)))).
    reflexivity.
  - exists z. rewrite get_fixed_seed_unchanged; [reflexivity |].
    intros [H | [H | H]]; congruence.
  - destruct (Hs l eq_refl).
Qed.

Lemma expand_seeds_int (z : Z) (strength : float) (n : Z) :
  expand_seeds (SeedInt z) strength n
  = Ok ((fun x => z + (if PrimFloat.eqb strength 0%float then x else 0))
          <$> range n).
Proof.
  unfold expand_seeds. destruct (0 <? n) eqn:Hn; [reflexivity |].
  apply Z.ltb_ge in Hn. unfold range.
  replace (Z.to_nat n) with 0%nat by lia. reflexivity.
Qed.

Lemma expand_subseeds_int (z n : Z) :
  expand_subseeds (SeedInt z) n = Ok ((fun x => z + x) <$> range n).
Proof.
  unfold expand_subseeds. destruct (0 <? n) eqn:Hn; [reflexivity |].
  apply Z.ltb_ge in Hn. unfold range.
  replace (Z.to_nat n) with 0%nat by lia. reflexivity.
Qed.

Lemma setup_prompts_frame (p p1 : StableDiffusionProcessing) :
  setup_prompts p = Ok p1 ->
  p1.(Processing.subseed_strength) = p.(Processing.subseed_strength)
  /\ p1.(Processing.all_prompts) <> None.
Proof.
  unfold setup_prompts.
  destruct (getitem _ 0) as [mn | e]; destruct (getitem _ 0) as [mp | e'];
    simpl; try discriminate.
  intros [= <-]. split; [reflexivity | discriminate].
Qed.

(** C1.  A run that enters [process_images_inner] with a scalar seed and
    subseed first fixes them: [-1], [None] and the empty string become
    the value that [random.randrange(4294967294)] draws, which advances
    the generator and lies in [range(4294967294)]; any other seed is
    kept and nothing is drawn for it.  The seed is fixed first, the
    subseed after it.  The run then gives every image (one per prompt)
    its seed:
    [seed + i] when [subseed_strength == 0], [seed] for every [i] when
    [subseed_strength > 0], and [subseed + i] as its subseed. *)
Theorem process_images_inner_seeds
    (p p1 : StableDiffusionProcessing) (g : rng_state) :
  scalar p.(Processing.seed) ->
  scalar p.(Processing.subseed) ->
  setup_prompts p = Ok p1 ->
  let n := length (default [] p1.(Processing.all_prompts)) in
  let strength := p.(Processing.subseed_strength) in
  exists (s ss : Z) (g1 g2 : rng_state) (seeds subseeds : list Z),
    get_fixed_seed p.(Processing.seed) g = (SeedInt s, g1)
    /\ get_fixed_seed p.(Processing.subseed) g1 = (SeedInt ss, g2)
    /\ (asks_random p.(Processing.seed) ->
        (s, g1) = randrange 4294967294 g /\ 0 <= s < 4294967294)
    /\ (~ asks_random p.(Processing.seed) ->
        p.(Processing.seed) = SeedInt s /\ g1 = g)
    /\ (asks_random p.(Processing.subseed) ->
        (ss, g2) = randrange 4294967294 g1 /\ 0 <= ss < 4294967294)
    /\ (~ asks_random p.(Processing.subseed) ->
        p.(Processing.subseed) = SeedInt ss /\ g2 = g1)
    /\ resolve_seeds p g
       = Ok (p1 <| Processing.all_seeds := Some seeds |>
                <| Processing.all_subseeds := Some subseeds |>, g2)
    /\ length seeds = n /\ length subseeds = n
    /\ forall i : nat, (i < n)%nat ->
         (PrimFloat.eqb strength 0%float = true ->
          seeds !! i = Some (s + Z.of_nat i))
         /\ (PrimFloat.ltb 0%float strength = true -> seeds !! i = Some s)
         /\ subseeds !! i = Some (ss + Z.of_nat i).
Proof.
  intros Hseed Hsub Hsetup n strength.
  destruct (scalar_fixed _ g Hseed) as [s Hs].
  destruct (get_fixed_seed p.(Processing.seed) g) as [s' g1] eqn:E1.
  simpl in Hs. subst s'.
  destruct (scalar_fixed _ g1 Hsub) as [ss Hss].
  destruct (get_fixed_seed p.(Processing.subseed) g1) as [ss' g2] eqn:E2.
  simpl in Hss. subst ss'.
  destruct (setup_prompts_frame _ _ Hsetup) as [Hstr _].
  exists s, ss, g1, g2.
  eexists. eexists.
  split; [reflexivity |]. split; [exact E2 |].
  split.
  { intros Hr. destruct (get_fixed_seed_random _ g Hr) as [Hg Hb].
    rewrite Hg in E1. injection E1 as <- <-.
    split; [destruct (randrange 4294967294 g); reflexivity | exact Hb]. }
  split.
  { intros Hr. rewrite (get_fixed_seed_unchanged _ g Hr) in E1.
    injection E1 as -> ->. split; reflexivity. }
  split.
  { intros Hr. destruct (get_fixed_seed_random _ g1 Hr) as [Hg Hb].
    rewrite Hg in E2. injection E2 as <- <-.
    split; [destruct (randrange 4294967294 g1); reflexivity | exact Hb]. }
  split.
  { intros Hr. rewrite (get_fixed_seed_unchanged _ g1 Hr) in E2.
    injection E2 as -> ->. split; reflexivity. }
  split.
  { unfold resolve_seeds. rewrite E1, E2, Hsetup.
    cbv beta iota zeta. rewrite bind_Ok.
    rewrite expand_seeds_int, bind_Ok.
    rewrite expand_subseeds_int, bind_Ok. reflexivity. }
  assert (Hn : Z.to_nat (len (default [] p1.(Processing.all_prompts))) = n).
  { unfold len, n. lia. }
  split; [rewrite length_fmap, length_range; exact Hn |].
  split; [rewrite length_fmap, length_range; exact Hn |].
  intros i Hi. rewrite <- Hn in Hi.
  rewrite !list_lookup_fmap, (lookup_range _ _ Hi). simpl.
  rewrite Hstr. fold strength.
  split; [intros ->; reflexivity |].
  split; [| reflexivity].
  intros Hpos. rewrite (float_pos_not_zero _ Hpos). f_equal. lia.
Qed.

(** [int_of_seed] never meets a list or [None] in a run: the fixed seed
    of a scalar is an int. *)
Lemma fixed_seed_is_int (s : seed_t) (g : rng_state) :
  scalar s -> is_ok (int_of_seed (get_fixed_seed s g).1) = true.
Proof. intros Hs. destruct (scalar_fixed s g Hs) as [z ->]. reflexivity. Qed.

End SeedFacts.

(** The scenario of the specification, run without scripts on the
    generator [lcg] in state 7: all_seeds = [42, 43] (the subseed, left at
    -1, takes the first draw).  The same request with seed -1: the seed
    takes the first draw, 7724619060 mod 4294967294 = 3429651766, and the
    subseed the second. *)
Lemma process_images_inner_seeds_witness :
  (exists p' g',
     resolve_seeds (RS := lcg) (C := plain_pipeline None) scenario_request
       (7%Z : @rng_state lcg)
     = Ok (p', g')
     /\ p'.(Processing.all_seeds) = Some [42; 43]%Z
     /\ g' = 7724619060%Z)
  /\ (exists p' g',
        resolve_seeds (RS := lcg) (C := plain_pipeline None)
          (scenario_request <| Processing.seed := SeedInt (-1) |>)
          (7%Z : @rng_state lcg)
        = Ok (p', g')
        /\ p'.(Processing.all_seeds) = Some [3429651766; 3429651767]%Z
        /\ g' = (1103515245 * 7724619060 + 12345)%Z).
Proof.
  split.
  - destruct (process_images_inner_seeds (RS := lcg) (C := plain_pipeline None)
                scenario_request
                (scenario_request
                   <| Processing.all_prompts := Some ["a cat"; "a cat"]%string |>
                   <| Processing.all_negative_prompts := Some [""; ""]%string |>
                   <| Processing.main_prompt := "a cat"%string |>
                   <| Processing.main_negative_prompt := ""%string |>)
                (7%Z : @rng_state lcg))
      as (s & ss & g1 & g2 & seeds & subseeds & E1 & _ & _ & Hkeep & Hdraw & _
          & Hres & Hlen & _ & Hat).
    + intros l. discriminate.
    + intros l. discriminate.
    + reflexivity.
    + destruct Hkeep as [Hs Hg1].
      { intros [H | [H | H]]; discriminate. }
      injection Hs as <-. subst g1.
      destruct Hdraw as [Hg2 _]; [right; right; reflexivity |].
      injection Hg2 as _ ->.
      eexists. eexists. split; [exact Hres |]. split; [| reflexivity].
      simpl. f_equal. simpl in Hlen.
      destruct (Hat 0%nat ltac:(simpl; lia)) as [H0 _].
      destruct (Hat 1%nat ltac:(simpl; lia)) as [H1 _].
      specialize (H0 eq_refl). specialize (H1 eq_refl).
      destruct seeds as [ | a [ | b [ | c rest]]]; try discriminate.
      simpl in H0, H1. injection H0 as ->. injection H1 as ->. reflexivity.
  - destruct (process_images_inner_seeds (RS := lcg) (C := plain_pipeline None)
                (scenario_request <| Processing.seed := SeedInt (-1) |>)
                (scenario_request
                   <| Processing.seed := SeedInt (-1) |>
                   <| Processing.all_prompts := Some ["a cat"; "a cat"]%string |>
                   <| Processing.all_negative_prompts := Some [""; ""]%string |>
                   <| Processing.main_prompt := "a cat"%string |>
                   <| Processing.main_negative_prompt := ""%string |>)
                (7%Z : @rng_state lcg))
      as (s & ss & g1 & g2 & seeds & subseeds & E1 & _ & Hdraw1 & _ & Hdraw2 & _
          & Hres & Hlen & _ & Hat).
    + intros l. discriminate.
    + intros l. discriminate.
    + reflexivity.
    + destruct Hdraw1 as [Hg1 _]; [right; right; reflexivity |].
      injection Hg1 as -> ->.
      destruct Hdraw2 as [Hg2 _]; [right; right; reflexivity |].
      injection Hg2 as _ ->.
      eexists. eexists. split; [exact Hres |]. split; [| reflexivity].
      simpl. f_equal. simpl in Hlen.
      destruct (Hat 0%nat ltac:(simpl; lia)) as [H0 _].
      destruct (Hat 1%nat ltac:(simpl; lia)) as [H1 _].
      specialize (H0 eq_refl). specialize (H1 eq_refl).
      destruct seeds as [ | a [ | b [ | c rest]]]; try discriminate.
      simpl in H0, H1. injection H0 as ->. injection H1 as ->. reflexivity.
Defined.

(** ** The conditioning cache (C2) *)

Section CacheFacts.
Context {Tensor : Type}.
Implicit Types (σ : Cache.store Tensor) (w : Cache.world Tensor).
Implicit Types (k : Cache.cached_params) (caches : list nat).

Lemma read_insert σ (l : nat) (s : Cache.slot Tensor) :
  Cache.read (<[l := s]> σ) l = s.
Proof. unfold Cache.read, Cache.store in *. rewrite lookup_insert_eq. reflexivity. Qed.

Lemma read_insert_ne σ (l l' : nat) (s : Cache.slot Tensor) :
  l <> l' -> Cache.read (<[l := s]> σ) l' = Cache.read σ l'.
Proof.
  intros Hne. unfold Cache.read, Cache.store in *.
  rewrite lookup_insert_ne by exact Hne. reflexivity.
Qed.

Lemma find_hit_Some σ k caches (v : option Tensor) :
  Cache.find_hit σ k caches = Some v ->
  exists l, l ∈ caches /\ Cache.holds σ l k /\ v = Cache.slot_value (Cache.read σ l).
Proof.
  induction caches as [ | l rest IH]; simpl; [discriminate |].
  destruct (Cache.slot_key (Cache.read σ l)) as [k' | ] eqn:Hk.
  - destruct (decide (k = k')) as [<- | Hne].
    + intros [= <-]. exists l. split; [left | split; [exact Hk | reflexivity]].
    + intros H. destruct (IH H) as (l' & Hin & Hh & Hv).
      exists l'. split; [right; exact Hin | split; assumption].
  - intros H. destruct (IH H) as (l' & Hin & Hh & Hv).
    exists l'. split; [right; exact Hin | split; assumption].
Qed.

Lemma find_hit_None σ k caches :
  Cache.find_hit σ k caches = None <->
  (forall l, l ∈ caches -> ~ Cache.holds σ l k).
Proof.
  unfold Cache.holds. induction caches as [ | l rest IH]; simpl.
  - split; [intros _ l Hl; inversion Hl | reflexivity].
  - destruct (Cache.slot_key (Cache.read σ l)) as [k' | ] eqn:Hk.
    + destruct (decide (k = k')) as [<- | Hne].
      * split; [discriminate |]. intros H. destruct (H l); [left | exact Hk].
      * rewrite IH. split.
        -- intros H l' Hl'. apply elem_of_cons in Hl' as [-> | Hl'].
           ++ rewrite Hk. congruence.
           ++ apply H, Hl'.
        -- intros H l' Hl'. apply H. right. exact Hl'.
    + rewrite IH. split.
      * intros H l' Hl'. apply elem_of_cons in Hl' as [-> | Hl'].
        -- rewrite Hk. discriminate.
        -- apply H, Hl'.
      * intros H l' Hl'. apply H. right. exact Hl'.
Qed.

(** A hit: the stored tensor comes back and the world is untouched. *)
Lemma get_conds_hit opts ckpt wd ht (function : list string -> Z -> Tensor)
    prompts steps caches extra w :
  (exists l, l ∈ caches
             /\ Cache.holds (Cache.slots w) l
                  (Cache.key_of opts ckpt wd ht prompts steps extra)) ->
  exists l, l ∈ caches
    /\ Cache.holds (Cache.slots w) l (Cache.key_of opts ckpt wd ht prompts steps extra)
    /\ Cache.get_conds_with_caching opts ckpt wd ht function prompts steps caches extra w
       = Ok (Cache.slot_value (Cache.read (Cache.slots w) l), w).
Proof.
  intros (l & Hin & Hh). unfold Cache.get_conds_with_caching.
  destruct (Cache.find_hit _ _ caches) as [v | ] eqn:Hf.
  - destruct (find_hit_Some _ _ _ _ Hf) as (l' & Hin' & Hh' & ->).
    exists l'. split; [exact Hin' | split; [exact Hh' | reflexivity]].
  - destruct (proj1 (find_hit_None _ _ _) Hf l Hin Hh).
Qed.

(** A miss: one call of the compute function, stored with its key in the
    first slot; no other slot changes. *)
Lemma get_conds_miss opts ckpt wd ht (function : list string -> Z -> Tensor)
    prompts steps (c : nat) rest extra w :
  (forall l, l ∈ c :: rest ->
             ~ Cache.holds (Cache.slots w) l
                 (Cache.key_of opts ckpt wd ht prompts steps extra)) ->
  exists w',
    Cache.get_conds_with_caching opts ckpt wd ht function prompts steps (c :: rest) extra w
    = Ok (Some (function prompts steps), w')
    /\ Cache.calls w' = Cache.calls w ++ [(prompts, steps)]
    /\ Cache.read (Cache.slots w') c
       = {| Cache.slot_key := Some (Cache.key_of opts ckpt wd ht prompts steps extra);
            Cache.slot_value := Some (function prompts steps) |}
    /\ (forall l, l <> c -> Cache.slots w' !! l = Cache.slots w !! l).
Proof.
  intros Hmiss. apply find_hit_None in Hmiss.
  unfold Cache.get_conds_with_caching. rewrite Hmiss.
  change (getitem (c :: rest) 0) with (Ok (A := nat) c). rewrite bind_Ok.
  cbv zeta. rewrite !read_insert. cbn [Cache.slot_value].
  eexists. split; [reflexivity |]. split; [reflexivity |]. split.
  - simpl. rewrite !read_insert. reflexivity.
  - intros l Hl. simpl. unfold Cache.store in *.
    rewrite !lookup_insert_ne by congruence. reflexivity.
Qed.

Lemma key_of_steps opts ckpt wd ht prompts steps steps' extra :
  steps' <> steps ->
  Cache.key_of opts ckpt wd ht prompts steps' extra
  <> Cache.key_of opts ckpt wd ht prompts steps extra.
Proof. intros Hne [= H]. exact (Hne H). Qed.

(** The key is the tuple of its nine components, and two keys are equal
    exactly when all nine are, the dicts of network data as dicts: key
    by key, in whatever order they were filled. *)
Lemma key_of_eq_iff opts ckpt wd ht prompts steps extra
    opts2 ckpt2 wd2 ht2 prompts2 steps2 extra2 :
  Cache.key_of opts2 ckpt2 wd2 ht2 prompts2 steps2 extra2
  = Cache.key_of opts ckpt wd ht prompts steps extra
  <-> prompts2 = prompts /\ steps2 = steps
      /\ opts2.(CLIP_stop_at_last_layers) = opts.(CLIP_stop_at_last_layers)
      /\ ckpt2 = ckpt
      /\ (forall name, extra2 !! name = extra !! name)
      /\ opts2.(sdxl_crop_left) = opts.(sdxl_crop_left)
      /\ opts2.(sdxl_crop_top) = opts.(sdxl_crop_top)
      /\ wd2 = wd /\ ht2 = ht.
Proof.
  unfold Cache.key_of. split.
  - intros [= -> -> -> -> -> -> -> -> ->]. repeat split.
  - intros (-> & -> & -> & -> & Hextra & -> & -> & -> & ->).
    rewrite (map_eq _ _ Hextra). reflexivity.
Qed.

(** C2.  [get_conds_with_caching] with a non-empty list of slots: when a
    slot of the list holds exactly the key, the tensor stored there is
    returned and the compute function is not called; otherwise it is
    called exactly once and key and result go to the first slot, the
    others staying as they were.  The key is made of the prompts, the
    steps, the clip skip, the checkpoint, the network data (compared as
    a dict), the two crop offsets, the width and the height, and of
    nothing else.  So after a call, any call with an equal key returns
    the same tensor without a call of the function, and with a single
    slot (as [setup_conds] passes) a call whose key differs in any
    component, as in the steps, computes again. *)
Theorem get_conds_with_caching_memoises
    opts ckpt wd ht (function : list string -> Z -> Tensor)
    prompts steps caches extra w :
  caches <> [] ->
  let k := Cache.key_of opts ckpt wd ht prompts steps extra in
  let call :=
    Cache.get_conds_with_caching opts ckpt wd ht function prompts steps caches extra in
  ((exists l, l ∈ caches /\ Cache.holds (Cache.slots w) l k) ->
   exists l, l ∈ caches /\ Cache.holds (Cache.slots w) l k
     /\ call w = Ok (Cache.slot_value (Cache.read (Cache.slots w) l), w))
  /\ ((forall l, l ∈ caches -> ~ Cache.holds (Cache.slots w) l k) ->
      exists c w',
        head caches = Some c
        /\ call w = Ok (Some (function prompts steps), w')
        /\ Cache.calls w' = Cache.calls w ++ [(prompts, steps)]
        /\ Cache.read (Cache.slots w') c
           = {| Cache.slot_key := Some k;
                Cache.slot_value := Some (function prompts steps) |}
        /\ (forall l, l <> c -> Cache.slots w' !! l = Cache.slots w !! l))
  /\ (forall opts2 ckpt2 wd2 ht2 prompts2 steps2 extra2,
        Cache.key_of opts2 ckpt2 wd2 ht2 prompts2 steps2 extra2 = k
        <-> prompts2 = prompts /\ steps2 = steps
            /\ opts2.(CLIP_stop_at_last_layers) = opts.(CLIP_stop_at_last_layers)
            /\ ckpt2 = ckpt
            /\ (forall name, extra2 !! name = extra !! name)
            /\ opts2.(sdxl_crop_left) = opts.(sdxl_crop_left)
            /\ opts2.(sdxl_crop_top) = opts.(sdxl_crop_top)
            /\ wd2 = wd /\ ht2 = ht)
  /\ exists v w1,
      call w = Ok (v, w1)
      /\ (length (Cache.calls w1) <= S (length (Cache.calls w)))%nat
      /\ call w1 = Ok (v, w1)
      /\ (forall opts2 ckpt2 wd2 ht2 prompts2 steps2 extra2,
            Cache.key_of opts2 ckpt2 wd2 ht2 prompts2 steps2 extra2 = k ->
            Cache.get_conds_with_caching opts2 ckpt2 wd2 ht2 function
              prompts2 steps2 caches extra2 w1
            = Ok (v, w1))
      /\ (forall c opts2 ckpt2 wd2 ht2 prompts2 steps2 extra2,
            caches = [c] ->
            Cache.key_of opts2 ckpt2 wd2 ht2 prompts2 steps2 extra2 <> k ->
            exists w2,
              Cache.get_conds_with_caching opts2 ckpt2 wd2 ht2 function
                prompts2 steps2 caches extra2 w1
              = Ok (Some (function prompts2 steps2), w2)
              /\ Cache.calls w2 = Cache.calls w1 ++ [(prompts2, steps2)])
      /\ (forall c steps2,
            caches = [c] -> steps2 <> steps ->
            exists w2,
              Cache.get_conds_with_caching opts ckpt wd ht function
                prompts steps2 caches extra w1
              = Ok (Some (function prompts steps2), w2)
              /\ Cache.calls w2 = Cache.calls w1 ++ [(prompts, steps2)]).
Proof.
  intros Hne k call.
  split; [apply get_conds_hit |].
  destruct caches as [ | c rest]; [congruence |].
  split.
  { intros Hmiss.
    destruct (get_conds_miss opts ckpt wd ht function prompts steps c rest extra w Hmiss)
      as (w' & Hcall & Hcalls & Hslot & Hframe).
    exists c, w'. repeat split; assumption. }
  split; [intros; apply key_of_eq_iff |].
  assert (Hrecompute :
            forall v w1,
              (rest = [] -> Cache.holds (Cache.slots w1) c k) ->
              Cache.find_hit (Cache.slots w1) k (c :: rest) = Some v ->
              (forall opts2 ckpt2 wd2 ht2 prompts2 steps2 extra2,
                 Cache.key_of opts2 ckpt2 wd2 ht2 prompts2 steps2 extra2 = k ->
                 Cache.get_conds_with_caching opts2 ckpt2 wd2 ht2 function
                   prompts2 steps2 (c :: rest) extra2 w1
                 = Ok (v, w1))
              /\ (forall c' opts2 ckpt2 wd2 ht2 prompts2 steps2 extra2,
                    c :: rest = [c'] ->
                    Cache.key_of opts2 ckpt2 wd2 ht2 prompts2 steps2 extra2 <> k ->
                    exists w2,
                      Cache.get_conds_with_caching opts2 ckpt2 wd2 ht2 function
                        prompts2 steps2 (c :: rest) extra2 w1
                      = Ok (Some (function prompts2 steps2), w2)
                      /\ Cache.calls w2 = Cache.calls w1 ++ [(prompts2, steps2)])).
  { intros v w1 Hh Hf1. split.
    - intros opts2 ckpt2 wd2 ht2 prompts2 steps2 extra2 Hk2.
      unfold Cache.get_conds_with_caching. rewrite Hk2, Hf1. reflexivity.
    - intros c' opts2 ckpt2 wd2 ht2 prompts2 steps2 extra2 [= <- ->] Hk2.
      destruct (get_conds_miss opts2 ckpt2 wd2 ht2 function prompts2 steps2 c []
                  extra2 w1) as (w2 & Hcall2 & Hcalls2 & _).
      { intros l Hl. apply list_elem_of_singleton in Hl. subst l.
        specialize (Hh eq_refl). unfold Cache.holds in *. rewrite Hh.
        intros H. apply (inj Some) in H. exact (Hk2 (eq_sym H)). }
      exists w2. split; assumption. }
  assert (Hsteps :
            forall w1,
              (forall c' opts2 ckpt2 wd2 ht2 prompts2 steps2 extra2,
                 c :: rest = [c'] ->
                 Cache.key_of opts2 ckpt2 wd2 ht2 prompts2 steps2 extra2 <> k ->
                 exists w2,
                   Cache.get_conds_with_caching opts2 ckpt2 wd2 ht2 function
                     prompts2 steps2 (c :: rest) extra2 w1
                   = Ok (Some (function prompts2 steps2), w2)
                   /\ Cache.calls w2 = Cache.calls w1 ++ [(prompts2, steps2)]) ->
              forall c' steps2,
                c :: rest = [c'] -> steps2 <> steps ->
                exists w2,
                  Cache.get_conds_with_caching opts ckpt wd ht function
                    prompts steps2 (c :: rest) extra w1
                  = Ok (Some (function prompts steps2), w2)
                  /\ Cache.calls w2 = Cache.calls w1 ++ [(prompts, steps2)]).
  { intros w1 H c' steps2 Hc Hs. apply (H c'); [exact Hc |].
    intros Hk. apply key_of_eq_iff in Hk. apply Hs, Hk. }
  destruct (Cache.find_hit (Cache.slots w) k (c :: rest)) as [v | ] eqn:Hf.
  - (* the first call hits: nothing changes *)
    assert (Hcall : call w = Ok (v, w)).
    { unfold call, Cache.get_conds_with_caching. fold k. rewrite Hf. reflexivity. }
    exists v, w. split; [exact Hcall |]. split; [lia |]. split; [exact Hcall |].
    destruct (Hrecompute v w) as [H1 H2]; [| exact Hf |].
    { intros ->. destruct (find_hit_Some _ _ _ _ Hf) as (l & Hin & Hh & _).
      apply list_elem_of_singleton in Hin. subst l. exact Hh. }
    split; [exact H1 |]. split; [exact H2 | exact (Hsteps w H2)].
  - (* the first call misses and fills the first slot *)
    destruct (get_conds_miss opts ckpt wd ht function prompts steps c rest extra w
                (proj1 (find_hit_None _ _ _) Hf))
      as (w1 & Hcall & Hcalls & Hslot & Hframe).
    exists (Some (function prompts steps)), w1.
    split; [exact Hcall |].
    split; [rewrite Hcalls, length_app; simpl; lia |].
    assert (Hf1 : Cache.find_hit (Cache.slots w1) k (c :: rest)
                  = Some (Some (function prompts steps))).
    { simpl. rewrite Hslot. simpl. rewrite decide_True by reflexivity. reflexivity. }
    split.
    { unfold call, Cache.get_conds_with_caching. fold k. rewrite Hf1. reflexivity. }
    destruct (Hrecompute (Some (function prompts steps)) w1) as [H1 H2];
      [| exact Hf1 |].
    { intros _. unfold Cache.holds. rewrite Hslot. reflexivity. }
    split; [exact H1 |]. split; [exact H2 | exact (Hsteps w1 H2)].
Qed.

End CacheFacts.

(** Calls of [setup_conds]'s shape on an empty slot: the second one
    returns the tensor of the first and leaves the world as it is, and
    so does one whose network data was filled in the other order; one
    with another step count computes again. *)
Lemma get_conds_with_caching_memoises_witness :
  let extra : Cache.network_data :=
    <["lora" := ["add_detail:1"]]> (<["hypernet" := ["anime:0.5"]]> ∅) in
  let extra' : Cache.network_data :=
    <["hypernet" := ["anime:0.5"]]> (<["lora" := ["add_detail:1"]]> ∅) in
  let call steps extra :=
    Cache.get_conds_with_caching default_options "v1-5" 512 512
      (fun prompts steps => (prompts, steps)) ["a cat"]%string steps [0%nat] extra in
  exists v w1 w2,
    call 20%Z extra {| Cache.slots := ∅; Cache.calls := [] |} = Ok (v, w1)
    /\ call 20%Z extra w1 = Ok (v, w1)
    /\ call 20%Z extra' w1 = Ok (v, w1)
    /\ call 30%Z extra w1 = Ok (Some (["a cat"]%string, 30%Z), w2)
    /\ Cache.calls w2 = Cache.calls w1 ++ [(["a cat"]%string, 30%Z)].
Proof.
  intros extra extra' call.
  destruct (get_conds_with_caching_memoises default_options "v1-5" 512 512
              (fun prompts steps => (prompts, steps)) ["a cat"]%string 20
              [0%nat] extra {| Cache.slots := ∅; Cache.calls := [] |})
    as (_ & _ & Hkey & v & w1 & H1 & _ & H2 & Hsame & _ & H3).
  - discriminate.
  - assert (Hsteps : (30 <> 20)%Z) by discriminate.
    destruct (H3 0%nat 30%Z eq_refl Hsteps) as (w2 & H4 & H5).
    exists v, w1, w2. split; [exact H1 |]. split; [exact H2 |].
    split; [| split; assumption].
    apply Hsame, Hkey. repeat split.
Defined.

(** ** The result object (C10) *)

Section ProcessedFacts.
Context {Image : Type}.

Lemma scalar_prompt_reported (x : prompt_t) :
  x <> PromptList [] ->
  exists s, Processed.scalar_prompt x = Ok s /\ reported_prompt x s.
Proof.
  intros Hx. destruct x as [s | [ | y l]]; simpl.
  - exists s. split; reflexivity.
  - congruence.
  - exists y. split; reflexivity.
Qed.

Lemma scalar_seed_reported (x : seed_t) :
  x <> SeedList [] -> x <> SeedEmpty ->
  exists z, Processed.scalar_seed x = Ok z /\ reported_seed x z.
Proof.
  intros Hl He. destruct x as [ | | z | [ | y l]]; simpl; try congruence.
  - exists (-1)%Z. split; reflexivity.
  - exists z. split; reflexivity.
  - exists y. split; reflexivity.
Qed.

Lemma or_list_defaulted {A} (arg req : option (list A)) (x : A) :
  defaulted arg req x (or_list arg (or_list req [x])).
Proof.
  unfold defaulted. repeat split.
  - intros l -> Hl. destruct l; [congruence | reflexivity].
  - intros Ha l -> Hl. destruct arg as [[ | a l'] | ]; try discriminate;
      destruct l; (congruence || reflexivity).
  - intros Ha Hr.
    destruct arg as [[ | a l'] | ]; try discriminate;
      destruct req as [[ | b l''] | ]; try discriminate; reflexivity.
Qed.

(** C10.  [Processed.__init__] normalises what it reports: a list prompt
    or negative prompt is reported by its first element; a list seed or
    subseed by (the int value of) its first element and [None] by [-1];
    and [all_prompts], [all_negative_prompts], [all_seeds] and
    [all_subseeds] are the constructor's argument if it provides one, else
    the request's, else the singleton of the normalised scalar.  The
    constructor returns for every request whose list-valued fields are not
    empty lists (and whose seed is not the empty string). *)
Theorem Processed_init_normalizes
    (p : StableDiffusionProcessing) (images_list : list Image)
    (seed : seed_t) (info : string) (subseed : seed_t)
    (all_prompts all_negative_prompts : option (list string))
    (all_seeds all_subseeds : option (list Z))
    (index_of_first_image : Z) (infotexts : option (list string))
    (comments : string) :
  p.(Processing.prompt) <> PromptList [] ->
  p.(Processing.negative_prompt) <> PromptList [] ->
  seed <> SeedList [] -> seed <> SeedEmpty ->
  subseed <> SeedList [] -> subseed <> SeedEmpty ->
  exists r,
    Processed.init p images_list seed info subseed all_prompts
      all_negative_prompts all_seeds all_subseeds index_of_first_image
      infotexts comments = Ok r
    /\ reported_prompt p.(Processing.prompt) r.(Processed.prompt)
    /\ reported_prompt p.(Processing.negative_prompt) r.(Processed.negative_prompt)
    /\ reported_seed seed r.(Processed.seed)
    /\ reported_seed subseed r.(Processed.subseed)
    /\ defaulted all_prompts p.(Processing.all_prompts)
         r.(Processed.prompt) r.(Processed.all_prompts)
    /\ defaulted all_negative_prompts p.(Processing.all_negative_prompts)
         r.(Processed.negative_prompt) r.(Processed.all_negative_prompts)
    /\ defaulted all_seeds p.(Processing.all_seeds)
         r.(Processed.seed) r.(Processed.all_seeds)
    /\ defaulted all_subseeds p.(Processing.all_subseeds)
         r.(Processed.subseed) r.(Processed.all_subseeds)
    /\ r.(Processed.images) = images_list.
Proof.
  intros Hp Hn Hs1 Hs2 Hss1 Hss2.
  destruct (scalar_prompt_reported _ Hp) as (pr & Epr & Rpr).
  destruct (scalar_prompt_reported _ Hn) as (npr & Enpr & Rnpr).
  destruct (scalar_seed_reported _ Hs1 Hs2) as (s & Es & Rs).
  destruct (scalar_seed_reported _ Hss1 Hss2) as (ss & Ess & Rss).
  unfold Processed.init. rewrite Epr, Enpr, Es, Ess, !bind_Ok.
  eexists. split; [reflexivity |]. cbn [Processed.prompt Processed.negative_prompt
    Processed.seed Processed.subseed Processed.all_prompts
    Processed.all_negative_prompts Processed.all_seeds Processed.all_subseeds
    Processed.images].
  repeat (split; [first [assumption | apply or_list_defaulted] |]).
  reflexivity.
Qed.

End ProcessedFacts.

(** A request with a list prompt and a list seed, and no [all_*] given
    anywhere: first elements and singletons. *)
Lemma Processed_init_normalizes_witness :
  exists r : Processed.t nat,
    Processed.init
      ((Processing.default_processing (PromptList ["a cat"; "a dog"]%string))
         <| Processing.negative_prompt := PromptList ["blurry"]%string |>)
      [] (SeedList [7; 8]%Z) ""%string SeedNone None None None None 0%Z None ""%string
    = Ok r
    /\ r.(Processed.prompt) = "a cat"%string
    /\ r.(Processed.seed) = 7%Z
    /\ r.(Processed.subseed) = (-1)%Z
    /\ r.(Processed.all_seeds) = [7%Z].
Proof.
  destruct (Processed_init_normalizes (Image := nat)
              ((Processing.default_processing (PromptList ["a cat"; "a dog"]%string))
                 <| Processing.negative_prompt := PromptList ["blurry"]%string |>)
              [] (SeedList [7; 8]%Z) ""%string SeedNone None None None None 0%Z
              None ""%string)
    as (r & Hr & Hp & _ & Hs & Hss & _ & _ & (_ & _ & Hall) & _);
    try discriminate.
  exists r. split; [exact Hr |]. simpl in Hp, Hs, Hss.
  repeat split.
  - congruence.
  - congruence.
  - exact Hss.
  - rewrite (Hall eq_refl eq_refl). congruence.
Defined.

(** ** Decoding with the NaN check (C9) *)

Section DecodeFacts.
Context {V : Decode.VAE}.
Import Decode.

Lemma clean_cons check d x batch :
  clean check d (x :: batch) ->
  check && has_nans (decode d x) = false /\ clean check d batch.
Proof.
  intros [-> | H]; [split; [reflexivity | left; reflexivity] |].
  inversion H as [ | ? ? Hx Hb]; subst. rewrite Hx.
  split; [apply andb_false_r | right; exact Hb].
Qed.

(** A clean prefix is decoded once per sample at the current precision,
    and the loop goes on behind it. *)
Lemma decode_from_clean_prefix opts check pre : forall rest i samples dev,
  clean check dev.(dtype_vae) pre ->
  decode_from opts check i (pre ++ rest) samples dev
  = decode_from opts check (i + length pre) rest
      (samples ++ (decode dev.(dtype_vae) <$> pre))
      {| dtype_vae := dev.(dtype_vae);
         trace := dev.(trace) ++ decoded_run i dev.(dtype_vae) (length pre) |}.
Proof.
  induction pre as [ | x pre IH]; intros rest i samples dev Hc.
  - simpl. rewrite Nat.add_0_r, !app_nil_r. destruct dev. reflexivity.
  - destruct (clean_cons _ _ _ _ Hc) as [Hx Hpre].
    destruct dev as [d tr]. simpl in *. rewrite Hx.
    rewrite IH by exact Hpre. simpl. unfold constant.
    rewrite <- !app_assoc, Nat.add_succ_r. reflexivity.
Qed.

Lemma decode_from_clean opts check batch i samples dev :
  clean check dev.(dtype_vae) batch ->
  decode_from opts check i batch samples dev
  = (Ok (samples ++ (decode dev.(dtype_vae) <$> batch)),
     {| dtype_vae := dev.(dtype_vae);
        trace := dev.(trace) ++ decoded_run i dev.(dtype_vae) (length batch) |}).
Proof.
  intros Hc. rewrite <- (app_nil_r batch) at 1.
  rewrite decode_from_clean_prefix by exact Hc. reflexivity.
Qed.

Lemma decoded_run_snoc (i : nat) (d : dtype) (n : nat) :
  decoded_run i d (S n) = decoded_run i d n ++ [Decoded (i + n) d].
Proof.
  revert i. induction n as [ | n IH]; intros i.
  - simpl. rewrite Nat.add_0_r. reflexivity.
  - change (decoded_run i d (S (S n)))
      with (Decoded i d :: decoded_run (S i) d (S n)).
    rewrite IH. simpl. rewrite Nat.add_succ_r. reflexivity.
Qed.

(** The failing sample at full precision, or with promotion disabled:
    the exception leaves the loop at once. *)
Lemma decode_from_nan_raise opts i x rest samples dev :
  has_nans (decode dev.(dtype_vae) x) = true ->
  dev.(dtype_vae) = float32 \/ opts.(auto_vae_precision) = false ->
  decode_from opts true i (x :: rest) samples dev
  = (Raise NansException,
     {| dtype_vae := dev.(dtype_vae);
        trace := dev.(trace) ++ [Decoded i dev.(dtype_vae)] |}).
Proof.
  intros Hx Hd. destruct dev as [d tr]. simpl in *. rewrite Hx.
  destruct Hd as [-> | ->]; simpl; [reflexivity |].
  rewrite orb_true_r. reflexivity.
Qed.

(** The failing sample below full precision, promotion enabled: the
    precision is raised, the sample is decoded again and appended as it
    comes, and the loop goes on. *)
Lemma decode_from_nan_retry opts i x rest samples dev :
  has_nans (decode dev.(dtype_vae) x) = true ->
  dev.(dtype_vae) <> float32 ->
  opts.(auto_vae_precision) = true ->
  decode_from opts true i (x :: rest) samples dev
  = decode_from opts true (S i) rest (samples ++ [decode float32 x])
      {| dtype_vae := float32;
         trace := dev.(trace)
                  ++ [Decoded i dev.(dtype_vae); PrintErrorExplanation;
                      Decoded i float32] |}.
Proof.
  intros Hx Hd Ha. destruct dev as [d tr]. simpl in *. rewrite Hx, Ha.
  rewrite bool_decide_eq_false_2 by exact Hd. simpl. unfold constant.
  rewrite <- !app_assoc. reflexivity.
Qed.

(** C9, as the code has it.  Let [x] be the first sample of the batch that
    fails the NaN test.  At full precision, or with automatic promotion
    disabled, [NansException] propagates and [x] was decoded once.
    Otherwise [dtype_vae] becomes [float32] and [x] is decoded exactly once
    more; the retried sample joins the result without a second NaN test;
    the rest of the batch is decoded at [float32], where a failing sample
    propagates its exception without a retry. *)
Theorem decode_latent_batch_nan_policy opts
    (pre : list Latent) (x : Latent) (post : list Latent) (dev : devices) :
  let d := dev.(dtype_vae) in
  let i := length pre in
  let r := decode_latent_batch opts (pre ++ x :: post) true dev in
  let retried :=
    dev.(trace) ++ decoded_run 0 d (S i)
    ++ [PrintErrorExplanation; Decoded i float32] in
  Forall (fun y => has_nans (decode d y) = false) pre ->
  has_nans (decode d x) = true ->
  (d = float32 \/ opts.(auto_vae_precision) = false ->
   r = (Raise NansException,
        {| dtype_vae := d; trace := dev.(trace) ++ decoded_run 0 d (S i) |}))
  /\ (d <> float32 /\ opts.(auto_vae_precision) = true ->
      (Forall (fun y => has_nans (decode float32 y) = false) post ->
       r = (Ok ((decode d <$> pre) ++ decode float32 x :: (decode float32 <$> post)),
            {| dtype_vae := float32;
               trace := retried ++ decoded_run (S i) float32 (length post) |}))
      /\ (forall post1 y post2,
            post = post1 ++ y :: post2 ->
            Forall (fun y => has_nans (decode float32 y) = false) post1 ->
            has_nans (decode float32 y) = true ->
            r = (Raise NansException,
                 {| dtype_vae := float32;
                    trace := retried
                             ++ decoded_run (S i) float32 (S (length post1)) |}))).
Proof.
  intros d i r retried Hpre Hx.
  assert (Hr : r = decode_from opts true i (x :: post) (decode d <$> pre)
                     {| dtype_vae := d;
                        trace := dev.(trace) ++ decoded_run 0 d i |}).
  { unfold r, decode_latent_batch.
    rewrite decode_from_clean_prefix by (right; exact Hpre). reflexivity. }
  split.
  - intros Hd. rewrite Hr, decode_from_nan_raise by assumption.
    cbn [dtype_vae trace]. rewrite decoded_run_snoc, app_assoc. reflexivity.
  - intros [Hd Ha].
    rewrite decode_from_nan_retry in Hr by assumption.
    cbn [dtype_vae trace] in Hr.
    assert (Htr : (dev.(trace) ++ decoded_run 0 d i)
                  ++ [Decoded i d; PrintErrorExplanation; Decoded i float32]
                  = retried).
    { unfold retried. rewrite decoded_run_snoc, <- !app_assoc. reflexivity. }
    rewrite Htr in Hr. split.
    + intros Hpost. rewrite Hr, decode_from_clean by (right; exact Hpost).
      cbn [dtype_vae trace]. rewrite <- app_assoc. reflexivity.
    + intros post1 y post2 -> Hpost1 Hy.
      rewrite Hr, decode_from_clean_prefix by (right; exact Hpost1).
      cbn [dtype_vae trace].
      rewrite decode_from_nan_raise by (first [exact Hy | left; reflexivity]).
      cbn [dtype_vae trace]. rewrite decoded_run_snoc, <- !app_assoc.
      reflexivity.
Qed.

End DecodeFacts.

(** Half precision overflows on the second latent of three; the batch
    comes back whole, its second sample decoded at [float32]. *)
Lemma decode_latent_batch_nan_policy_witness :
  (Decode.decode_latent_batch (V := half_nan_vae) default_options
     [1; 0; 2]%nat true
     {| Decode.dtype_vae := Decode.float16; Decode.trace := [] |}).1
  = Ok [(Decode.float16, 1%nat); (Decode.float32, 0%nat); (Decode.float32, 2%nat)].
Proof.
  destruct (decode_latent_batch_nan_policy (V := half_nan_vae) default_options
              [1%nat] 0%nat [2%nat]
              {| Decode.dtype_vae := Decode.float16; Decode.trace := [] |})
    as [_ H].
  - repeat constructor.
  - reflexivity.
  - destruct H as [H _]; [split; [discriminate | reflexivity] |].
    simpl in H. rewrite H by (repeat constructor). reflexivity.
Defined.

(** The retry is not checked again: the VAE yields NaN for the only latent
    at every precision, so the retry at [float32] is non-finite too, and
    the call returns that sample instead of raising. *)
Lemma decode_latent_batch_retry_unchecked :
  @Decode.has_nans nan_vae (@Decode.decode nan_vae Decode.float32 0%nat) = true
  /\ Decode.decode_latent_batch (V := nan_vae) default_options [0%nat] true
       {| Decode.dtype_vae := Decode.float16; Decode.trace := [] |}
     = (Ok [@Decode.decode nan_vae Decode.float32 0%nat],
        {| Decode.dtype_vae := Decode.float32;
           Decode.trace := [Decode.Decoded 0 Decode.float16;
                            Decode.PrintErrorExplanation;
                            Decode.Decoded 0 Decode.float32] |}).
Proof. split; reflexivity. Qed.

(** ** The main loop and the interrupt flag (C3) *)

Section MainLoopFacts.
Context {RS : RandomSource} {C : Collaborators}.
Local Open Scope Z_scope.

Lemma getitem_raises {A} (l : list A) (i : Z) (e : exn) :
  getitem l i = Raise e -> e = IndexError.
Proof.
  unfold getitem. destruct (_ || _); [congruence |].
  destruct (l !! _); congruence.
Qed.

(** The flag is looked at before the slices are taken and before any
    collaborator is called: an interrupted loop ends where it stands and
    keeps what the earlier iterations appended. *)
Lemma iterations_interrupted (ns : list Z) (r : Run) :
  r.(run_state).(interrupted) = true ->
  exists r',
    iterations ns r = Ok r'
    /\ r'.(output_images) = r.(output_images)
    /\ r'.(infotexts) = r.(infotexts)
    /\ r'.(comments) = r.(comments).
Proof.
  intros Hi. destruct ns as [ | n ns].
  - exists r. repeat split.
  - destruct r as [p st cs infos imgs]. destruct st as [i sk jc jn ph tq].
    simpl in Hi. subst i. unfold iterations, clear_skipped. simpl.
    destruct sk; simpl; eexists; repeat split.
Qed.

(** An iteration that finds the flag clear and a non-empty slice runs its
    batch and appends the batch's images, one infotext each. *)
Lemma iterations_step (n : Z) (ns : list Z) (r : Run)
    (imgs : list Image) (cs : list string)
    (p' : StableDiffusionProcessing) (st' : State) :
  let st := clear_skipped r.(run_state) in
  let p := before_process_batch n
             (slice_batch n (r.(run_p) <| Processing.iteration := n |>)) in
  st.(interrupted) = false ->
  p.(Processing.prompts) <> [] ->
  run_batch n p st = Ok (imgs, cs, p', st') ->
  iterations (n :: ns) r = iterations ns (append_batch r imgs cs p' st')
  /\ (append_batch r imgs cs p' st').(output_images) = r.(output_images) ++ imgs
  /\ length (append_batch r imgs cs p' st').(infotexts)
     = (length r.(infotexts) + length imgs)%nat.
Proof.
  intros st p Hint Hne Hrun. split; [| split].
  - cbn [iterations]. fold st. rewrite Hint. fold p.
    destruct (Z.eqb_spec (len p.(Processing.prompts)) 0) as [H0 | _].
    + destruct p.(Processing.prompts); [congruence | unfold len in H0; simpl in H0; lia].
    + rewrite Hrun, bind_Ok. reflexivity.
  - reflexivity.
  - cbn [append_batch infotexts]. rewrite length_app, length_fmap, length_range.
    unfold len. lia.
Qed.

(** With no infotext appended, the result cannot be assembled:
    [infotexts[0]] is out of range. *)
Lemma assemble_no_infotext (r : Run) :
  r.(infotexts) = [] -> assemble r = Raise IndexError.
Proof.
  intros Hinfo. unfold assemble. rewrite Hinfo.
  destruct (getitem (default [] (Processing.all_seeds _)) 0) as [s0 | e] eqn:Hs.
  - reflexivity.
  - rewrite (getitem_raises _ _ _ Hs). reflexivity.
Qed.

Lemma resolve_seeds_prompt_assert (p p1 : StableDiffusionProcessing) (g g1 : rng_state) :
  resolve_seeds p g = Ok (p1, g1) ->
  match p.(Processing.prompt) with
  | PromptList l => py_assert (0 <? len l)
  | PromptStr _ => Ok tt
  end = Ok tt.
Proof.
  unfold resolve_seeds.
  destruct (get_fixed_seed _ g) as [s g']. destruct (get_fixed_seed _ g') as [ss g''].
  unfold setup_prompts.
  destruct p.(Processing.prompt) as [s0 | [ | x l]] eqn:Hp; try reflexivity.
  simpl. discriminate.
Qed.

(** C3, where the code departs from it.  When the flag is already set as
    the loop is entered (the user interrupts during the set-up), no
    iteration runs, and the run does not return the empty partial result:
    it raises [IndexError] on [infotexts[0]]. *)
Theorem process_images_inner_interrupted_at_entry
    (p p1 p2 : StableDiffusionProcessing) (st st2 : State) (g g1 : rng_state) :
  resolve_seeds p g = Ok (p1, g1) ->
  variant_init (scripts_process p1) st = Ok (p2, st2) ->
  st2.(interrupted) = true ->
  process_images_inner p st g = Raise IndexError.
Proof.
  intros Hseeds Hinit Hint. unfold process_images_inner.
  rewrite (resolve_seeds_prompt_assert _ _ _ _ Hseeds), bind_Ok.
  rewrite Hseeds, bind_Ok. cbv beta iota zeta. rewrite Hinit, bind_Ok.
  cbv beta iota zeta.
  match goal with
  | |- context [iterations ?ns ?r0] =>
      destruct (iterations_interrupted ns r0) as (r' & -> & _ & Hinfo & _)
  end.
  { destruct st2 as [i sk jc jn ph tq]. simpl in *. subst i.
    destruct (jc =? -1); reflexivity. }
  rewrite bind_Ok, assemble_no_infotext by exact Hinfo. reflexivity.
Qed.

End MainLoopFacts.

(** n_iter=3, and the flag is set before the first batch starts. *)
Lemma process_images_inner_interrupted_at_entry_witness :
  process_images_inner (RS := lcg) (C := plain_pipeline None)
    (scenario_request <| Processing.n_iter := 3%Z |>)
    (fresh_state <| interrupted := true |>) (7%Z : @rng_state lcg)
  = Raise IndexError.
Proof.
  eapply (process_images_inner_interrupted_at_entry (RS := lcg)
            (C := plain_pipeline None)).
  - reflexivity.
  - reflexivity.
  - reflexivity.
Defined.

(** The scenario of the specification: n_iter=3 and the flag set while
    iteration 0 runs.  The result holds exactly the two images of
    iteration 0 (an image of this pipeline is its seed), with their
    infotexts and the seeds of the whole run. *)
Example interrupt_after_first_iteration :
  exists res p' st' g',
    process_images_inner (RS := lcg) (C := plain_pipeline (Some 0%Z))
      (scenario_request <| Processing.n_iter := 3%Z |>)
      fresh_state (7%Z : @rng_state lcg)
    = Ok (res, p', st', g')
    /\ res.(Processed.images) = [42; 43]%Z
    /\ res.(Processed.infotexts) = ["Seed: 42"; "Seed: 43"]%string
    /\ res.(Processed.all_seeds) = [42; 43; 44; 45; 46; 47]%Z
    /\ st'.(interrupted) = true.
Proof. do 4 eexists. split; [vm_compute; reflexivity |]. repeat split. Qed.

(** Without an interrupt the same request runs its three iterations. *)
Example three_iterations_uninterrupted :
  exists res p' st' g',
    process_images_inner (RS := lcg) (C := plain_pipeline None)
      (scenario_request <| Processing.n_iter := 3%Z |>)
      fresh_state (7%Z : @rng_state lcg)
    = Ok (res, p', st', g')
    /\ res.(Processed.images) = [42; 43; 44; 45; 46; 47]%Z.
Proof. do 4 eexists. split; [vm_compute; reflexivity |]. reflexivity. Qed.

(** ** The infotext parameter line (C4) *)

Section InfotextFacts.
Context {R : Infotext.Repr}.
Import Infotext.

Lemma str_quote (v : pyval) :
  str (quote v) = if has_special (str v) then json_dumps v else str v.
Proof.
  unfold quote, has_special.
  destruct (contains comma (str v)); [reflexivity |].
  destruct (contains newline (str v)); [reflexivity |].
  destruct (contains colon (str v)); reflexivity.
Qed.

Lemma generation_params_items_spec (d : dict) :
  generation_params_items d
  = render_entry <$> List.filter (fun kv => negb (is_none kv.2)) d.
Proof.
  induction d as [ | [k v] d IH]; [reflexivity |].
  cbn [generation_params_items List.filter snd].
  destruct v; cbn [is_none negb fmap list_fmap]; rewrite IH;
    try reflexivity;
    unfold render_entry; rewrite str_quote; reflexivity.
Qed.

(** The decimal form of an int has digits and a sign only. *)
Lemma string_of_uint_plain (d : Decimal.uint) :
  has_special (NilEmpty.string_of_uint d) = false.
Proof. induction d; try reflexivity; exact IHd. Qed.

Lemma string_of_uint_zero_plain (d : Decimal.uint) :
  has_special (NilZero.string_of_uint d) = false.
Proof.
  destruct d; try reflexivity;
    match goal with
    | |- has_special (NilZero.string_of_uint ?u) = false =>
        exact (string_of_uint_plain u)
    end.
Qed.

Lemma str_of_Z_plain (z : Z) : has_special (str_of_Z z) = false.
Proof.
  unfold str_of_Z, NilZero.string_of_int.
  destruct (Z.to_int z) as [d | d].
  - apply string_of_uint_zero_plain.
  - change (has_special (String "-" (NilZero.string_of_uint d)))
      with (has_special (NilZero.string_of_uint d)).
    apply string_of_uint_zero_plain.
Qed.

Lemma json_escape_char_plain (c : ascii) :
  escaped c = false -> json_escape_char c = String c "".
Proof.
  destruct c as [[ | ] [ | ] [ | ] [ | ] [ | ] [ | ] [ | ] [ | ]];
    intros H; try discriminate H; reflexivity.
Qed.

Lemma append_assoc (a b c : string) : ((a ++ b) ++ c = a ++ (b ++ c))%string.
Proof.
  induction a as [ | x a IH]; [reflexivity |].
  change (String x ((a ++ b) ++ c) = String x (a ++ (b ++ c)))%string.
  rewrite IH. reflexivity.
Qed.

Lemma json_escape_app (a b : string) :
  json_escape (a ++ b) = (json_escape a ++ json_escape b)%string.
Proof.
  induction a as [ | c a IH]; [reflexivity |].
  change (String c a +:+ b) with (String c (a +:+ b)).
  cbn [json_escape]. rewrite IH.
  symmetry. apply append_assoc.
Qed.

Lemma json_string_plain (s : string) :
  Forall (fun c => escaped c = false) (list_ascii_of_string s) ->
  json_string s = in_quotes s.
Proof.
  intros H. unfold json_string, in_quotes. f_equal. f_equal.
  induction s as [ | c s IH]; [reflexivity |].
  cbn [list_ascii_of_string] in H. apply Forall_cons in H as [Hc Hs].
  cbn [json_escape]. rewrite (json_escape_char_plain c Hc), (IH Hs). reflexivity.
Qed.


(** A string that is quoted is a JSON string literal: it opens and closes
    with a double quote, and holds no raw newline. *)
Lemma json_escape_no_newline (s : string) : contains newline (json_escape s) = false.
Proof.
  induction s as [ | c s IH]; [reflexivity |].
  cbn [json_escape]. unfold json_escape_char.
  destruct c as [[ | ] [ | ] [ | ] [ | ] [ | ] [ | ] [ | ] [ | ]];
    cbn; exact IH.
Qed.

End InfotextFacts.

(** ** The second pass of text-to-image (C5, C6, C8) *)

Section HiresFacts.
Import Txt2Img.
Local Open Scope Z_scope.

Lemma floordiv_ok (a b : Z) : b <> 0 -> floordiv a b = Ok (a / b).
Proof. intros Hb. unfold floordiv. rewrite (proj2 (Z.eqb_neq b 0) Hb). reflexivity. Qed.

(** (b) no explicit size: both dimensions scaled by [hr_scale]. *)
Lemma resolve_target_scale (self : t) (x y : Z) :
  self.(hr_resize_x) = 0 -> self.(hr_resize_y) = 0 ->
  scaled (width self) self = Ok x -> scaled (height self) self = Ok y ->
  exists self',
    resolve_target self = Ok self'
    /\ target self' = (x, y) /\ truncation self' = truncation self
    /\ width self' = width self /\ height self' = height self.
Proof.
  intros Hx Hy Hsx Hsy. unfold resolve_target. rewrite Hx, Hy.
  open_self self. subst.
  repeat match goal with
         | H : float_of_Z ?n ≫= _ = Ok _ |- _ =>
             destruct (float_of_Z n) as [? | ?];
             [rewrite bind_Ok in H | discriminate H]
         end.
  rewrite !bind_Ok, Hsx, bind_Ok. simpl. rewrite Hsy, bind_Ok.
  eexists. split; [reflexivity |]. repeat split.
Qed.

(** (a) only the width given: the height follows the base ratio. *)
Lemma resolve_target_width_only (self : t) :
  self.(hr_resize_x) <> 0 -> self.(hr_resize_y) = 0 -> width self <> 0 ->
  exists self',
    resolve_target self = Ok self'
    /\ target self'
       = (self.(hr_resize_x), self.(hr_resize_x) * height self / width self)
    /\ truncation self' = truncation self
    /\ width self' = width self /\ height self' = height self.
Proof.
  intros Hx Hy Hw. unfold resolve_target.
  open_self self. subst. simpl.
  rewrite (proj2 (Z.eqb_neq _ 0) Hx). simpl.
  rewrite floordiv_ok by assumption. simpl.
  eexists. split; [reflexivity |]. repeat split.
Qed.

(** (a) only the height given: the width follows the base ratio. *)
Lemma resolve_target_height_only (self : t) :
  self.(hr_resize_x) = 0 -> self.(hr_resize_y) <> 0 -> height self <> 0 ->
  exists self',
    resolve_target self = Ok self'
    /\ target self'
       = (self.(hr_resize_y) * width self / height self, self.(hr_resize_y))
    /\ truncation self' = truncation self
    /\ width self' = width self /\ height self' = height self.
Proof.
  intros Hx Hy Hh. unfold resolve_target.
  open_self self. subst. simpl.
  rewrite (proj2 (Z.eqb_neq _ 0) Hy). simpl.
  rewrite floordiv_ok by assumption. simpl.
  eexists. split; [reflexivity |]. repeat split.
Qed.

(** (a) both given: the target covers the request at the base ratio, and
    the truncation is what it exceeds the request by, in latent cells. *)
Lemma resolve_target_both (self : t) (lt : bool) :
  self.(hr_resize_x) <> 0 -> self.(hr_resize_y) <> 0 ->
  width self <> 0 -> height self <> 0 ->
  src_ratio_lt_dst_ratio self = Ok lt ->
  exists self',
    resolve_target self = Ok self'
    /\ target self'
       = (if lt
          then (self.(hr_resize_x), self.(hr_resize_x) * height self / width self)
          else (self.(hr_resize_y) * width self / height self, self.(hr_resize_y)))
    /\ truncation self'
       = ((self'.(hr_upscale_to_x) - self.(hr_resize_x)) / opt_f,
          (self'.(hr_upscale_to_y) - self.(hr_resize_y)) / opt_f)
    /\ width self' = width self /\ height self' = height self.
Proof.
  intros Hx Hy Hw Hh Hlt. unfold resolve_target.
  unfold src_ratio_lt_dst_ratio in Hlt. open_self self.
  rewrite (proj2 (Z.eqb_neq _ 0) Hx), (proj2 (Z.eqb_neq _ 0) Hy). simpl.
  repeat match goal with
         | H : truediv ?a ?b ≫= _ = Ok _ |- _ =>
             destruct (truediv a b) as [? | ?];
             [rewrite bind_Ok in H | discriminate H]
         end.
  rewrite !bind_Ok. injection Hlt as <-.
  rewrite !floordiv_ok by assumption.
  destruct (PrimFloat.ltb _ _); simpl;
    (eexists; split; [reflexivity |]; repeat split).
Qed.

(** The crop of one axis: [t // 2] cells go at the start and
    [(t + 1) // 2] at the end, [t] in all. *)
Lemma crop_axis_spec (n t : Z) :
  0 <= t <= n ->
  slice_bound n (t / 2) = t / 2
  /\ slice_bound n (n - (t + 1) / 2) = n - (t + 1) / 2
  /\ t / 2 + (t + 1) / 2 = t
  /\ t / 2 <= (t + 1) / 2 <= t / 2 + 1
  /\ crop_axis n t = n - t.
Proof.
  intros Ht. unfold crop_axis, slice_len, slice_bound.
  assert (H1 : 0 <= t / 2) by (apply Z.div_pos; lia).
  assert (H2 : t / 2 + (t + 1) / 2 = t) by (Z.div_mod_to_equations; lia).
  assert (H3 : t / 2 <= (t + 1) / 2 <= t / 2 + 1) by (Z.div_mod_to_equations; lia).
  destruct (Z.ltb_spec (t / 2) 0); [lia |].
  destruct (Z.ltb_spec (n - (t + 1) / 2) 0); [lia |].
  repeat split; lia.
Qed.

(** A request of a multiple of [opt_f] pixels is met to the cell. *)
Lemma crop_axis_exact (up r : Z) :
  0 <= r <= up -> (opt_f | r) ->
  crop_axis (up / opt_f) ((up - r) / opt_f) = r / opt_f.
Proof.
  intros Hr [q ->]. unfold opt_f in *.
  assert (Ht : 0 <= (up - q * 8) / 8 <= up / 8).
  { split; [apply Z.div_pos; lia | apply Z.div_le_mono; lia]. }
  destruct (crop_axis_spec _ _ Ht) as (_ & _ & _ & _ & ->).
  Z.div_mod_to_equations. lia.
Qed.

(** *** The no-op policy (C6) *)

Lemma keys_pop_not_in (k : string) (d : dict) : k ∉ Dict.keys (Dict.pop k d).
Proof.
  induction d as [ | [k' v] d IH]; simpl.
  - apply not_elem_of_nil.
  - destruct (String.eqb_spec k k') as [-> | Hne]; [exact IH |].
    simpl. rewrite not_elem_of_cons. split; assumption.
Qed.

Lemma keys_pop_subset (k k' : string) (d : dict) :
  k' ∈ Dict.keys (Dict.pop k d) -> k' ∈ Dict.keys d.
Proof.
  induction d as [ | [k0 v] d IH]; simpl; [tauto |].
  destruct (String.eqb_spec k k0) as [-> | Hne]; simpl.
  - intros H. right. apply IH, H.
  - rewrite !elem_of_cons. intros [-> | H]; [left; reflexivity | right; apply IH, H].
Qed.

Lemma get_pop_ne (k k' : string) (d : dict) :
  k' <> k -> Dict.get k' (Dict.pop k d) = Dict.get k' d.
Proof.
  intros Hne. unfold Dict.get. induction d as [ | [k0 v] d IH]; simpl; [reflexivity |].
  destruct (String.eqb_spec k k0) as [-> | Hk]; simpl.
  - rewrite IH. rewrite (proj2 (String.eqb_neq k' k0) Hne). reflexivity.
  - rewrite IH. reflexivity.
Qed.

Lemma disable_hr_spec (self : t) :
  (disable_hr self).(enable_hr) = false
  /\ denoising_strength (disable_hr self) = None
  /\ ("Hires upscale"%string ∉ Dict.keys (extra_generation_params (disable_hr self)))
  /\ ("Hires resize"%string ∉ Dict.keys (extra_generation_params (disable_hr self)))
  /\ (forall k, k <> "Hires upscale"%string -> k <> "Hires resize"%string ->
        Dict.get k (extra_generation_params (disable_hr self))
        = Dict.get k (extra_generation_params self))
  /\ target (disable_hr self) = target self
  /\ width (disable_hr self) = width self
  /\ height (disable_hr self) = height self.
Proof.
  unfold disable_hr, pop_param, denoising_strength, extra_generation_params.
  open_self self. repeat split.
  - intros H. apply keys_pop_subset in H. exact (keys_pop_not_in _ _ H).
  - apply keys_pop_not_in.
  - intros k H1 H2. rewrite !get_pop_ne by assumption. reflexivity.
Qed.

(** C6.  When the target that [init] computes for a hires request equals
    the base width and height, [init] returns normally with the second
    pass disabled: [enable_hr] is false, [denoising_strength] is [None],
    and the keys "Hires upscale" and "Hires resize" are gone from
    [extra_generation_params] (whose other entries stay); the job state is
    not touched. *)
Theorem init_disables_noop_hires (opts : Options) (self self1 : t) (state : State) :
  self.(enable_hr) = true ->
  resolve_hires opts self = Ok self1 ->
  self1.(hr_upscale_to_x) = width self1 ->
  self1.(hr_upscale_to_y) = height self1 ->
  exists self',
    init opts self state = Ok (self', state)
    /\ self'.(enable_hr) = false
    /\ denoising_strength self' = None
    /\ ("Hires upscale"%string ∉ Dict.keys (extra_generation_params self'))
    /\ ("Hires resize"%string ∉ Dict.keys (extra_generation_params self'))
    /\ (forall k, k <> "Hires upscale"%string -> k <> "Hires resize"%string ->
          Dict.get k (extra_generation_params self')
          = Dict.get k (extra_generation_params self1))
    /\ target self' = target self1
    /\ width self' = width self1 /\ height self' = height self1.
Proof.
  intros Hhr Hres Hx Hy. exists (disable_hr self1).
  split; [| apply disable_hr_spec].
  unfold init. rewrite Hhr. cbn [negb]. rewrite Hres, bind_Ok.
  rewrite Hx, Hy, !Z.eqb_refl. reflexivity.
Qed.

(** Conversely, a target that differs from the base keeps the second pass
    enabled. *)
Lemma init_keeps_hires (opts : Options) (self self1 : t) (state : State) :
  self.(enable_hr) = true ->
  resolve_hires opts self = Ok self1 ->
  target self1 <> (width self1, height self1) ->
  init opts self state = Ok (announce_hires self1 state)
  /\ (announce_hires self1 state).1.(enable_hr) = self1.(enable_hr).
Proof.
  intros Hhr Hres Hne. unfold init. rewrite Hhr. cbn [negb]. rewrite Hres, bind_Ok.
  destruct (Z.eqb_spec self1.(hr_upscale_to_x) (width self1)) as [Hx | Hx];
    destruct (Z.eqb_spec self1.(hr_upscale_to_y) (height self1)) as [Hy | Hy];
    cbn [andb]; try (split; [reflexivity |]).
  - destruct Hne. unfold target. congruence.
  - unfold announce_hires. open_self self1.
    destruct (_ =? 0); destruct hr_upscaler; reflexivity.
  - unfold announce_hires. open_self self1.
    destruct (_ =? 0); destruct hr_upscaler; reflexivity.
  - unfold announce_hires. open_self self1.
    destruct (_ =? 0); destruct hr_upscaler; reflexivity.
Qed.

(** *** The sampler of the second pass (C8) *)

Lemma lacks_img2img_iff (name : option string) :
  lacks_img2img name = true
  <-> name = Some "PLMS"%string \/ name = Some "UniPC"%string.
Proof.
  unfold lacks_img2img. destruct name as [n | ].
  - rewrite orb_true_iff, !String.eqb_eq. split.
    + intros [-> | ->]; [left | right]; reflexivity.
    + intros [[= ->] | [= ->]]; [left | right]; reflexivity.
  - split; [discriminate | intros [H | H]; discriminate].
Qed.

Lemma upscale_events (shared : Shared) (self : t) (x samples : shape)
    (evs : list event) :
  upscale shared self x = Ok (samples, evs) ->
  Forall (fun e => forall n, e <> CreateSampler n) evs.
Proof.
  unfold upscale. destruct x as [[[b c] h] w].
  destruct (latent_scale_mode shared self) as [[mode aa | m] | ].
  - intros [= <- <-]. repeat constructor. discriminate.
  - discriminate.
  - intros [= <- <-]. apply Forall_fmap, Forall_forall. intros; discriminate.
Qed.

Lemma latent_scale_mode_hr_pass (shared : Shared) (self : t) (b : bool) :
  latent_scale_mode shared (self <| is_hr_pass := b |>) = latent_scale_mode shared self.
Proof. destruct self. reflexivity. Qed.

Lemma upscale_hr_pass (shared : Shared) (self : t) (b : bool) (x : shape) :
  upscale shared (self <| is_hr_pass := b |>) x = upscale shared self x.
Proof. destruct self. reflexivity. Qed.

(** C8.  In a hires run the first pass is sampled with the configured
    sampler, and the second with [DDIM] exactly when the configured one is
    [PLMS] or [UniPC] (which cannot continue from an image); otherwise
    with [hr_sampler_name] or, failing that, the configured sampler.  The
    calls of a run that returns are, in order: the first sampler created
    and run, the upscaling, the next job, the second sampler created
    under that name, the [before_hr] hook when a script runner is set,
    and the second sampler run.  The request keeps its [sampler_name],
    and the substitution raises nothing: [sample] returns whenever the
    upscaler resolves. *)
Theorem sample_second_pass_sampler (shared : Shared) (self : t) (x : shape) :
  let configured := self.(base).(Processing.sampler_name) in
  self.(enable_hr) = true ->
  (lacks_img2img configured = true
   <-> configured = Some "PLMS"%string \/ configured = Some "UniPC"%string)
  /\ img2img_sampler_name self
     = (if lacks_img2img configured then Some "DDIM"%string
        else or_name self.(hr_sampler_name) configured)
  /\ (forall samples self' tr,
        sample shared self x = Ok (samples, self', tr) ->
        exists upscaling steps,
          tr = [CreateSampler configured; SamplerSample x] ++ upscaling
               ++ [NextJob; CreateSampler (img2img_sampler_name self)]
               ++ (if self.(base).(Processing.scripts) then [BeforeHr] else [])
               ++ [SamplerSampleImg2Img (img2img_sampler_name self) samples steps]
          /\ Forall (fun e => forall n, e <> CreateSampler n) upscaling
          /\ self'.(base).(Processing.sampler_name) = configured
          /\ self'.(hr_sampler_name) = self.(hr_sampler_name))
  /\ (forall mode antialias,
        latent_scale_mode shared self = Some (ModeDict mode antialias) ->
        is_ok (sample shared self x) = true)
  /\ (forall u,
        latent_scale_mode shared self = None ->
        self.(hr_upscaler) = Some u -> u ∈ shared.(sd_upscalers) ->
        is_ok (sample shared self x) = true).
Proof.
  intros configured Hhr.
  split; [apply lacks_img2img_iff |].
  split; [reflexivity |].
  split.
  { intros samples self' tr. unfold sample. rewrite Hhr. cbn [andb negb].
    destruct (negb (bool_decide _)).
    - destruct (negb (existsb _ _)); [rewrite bind_Raise; discriminate |].
      rewrite bind_Ok, upscale_hr_pass.
      destruct (upscale shared self x) as [[s evs] | e] eqn:Hup;
        [| rewrite bind_Raise; discriminate].
      rewrite bind_Ok. intros [= <- <- <-].
      exists evs, (if self.(hr_second_pass_steps) =? 0
                   then self.(base).(Processing.steps)
                   else self.(hr_second_pass_steps)).
      split; [| split; [exact (upscale_events _ _ _ _ _ Hup) |]].
      + rewrite <- !app_assoc. destruct self. reflexivity.
      + destruct self. split; reflexivity.
    - rewrite bind_Ok, upscale_hr_pass.
      destruct (upscale shared self x) as [[s evs] | e] eqn:Hup;
        [| rewrite bind_Raise; discriminate].
      rewrite bind_Ok. intros [= <- <- <-].
      exists evs, (if self.(hr_second_pass_steps) =? 0
                   then self.(base).(Processing.steps)
                   else self.(hr_second_pass_steps)).
      split; [| split; [exact (upscale_events _ _ _ _ _ Hup) |]].
      + rewrite <- !app_assoc. destruct self. reflexivity.
      + destruct self. split; reflexivity. }
  split.
  { intros mode aa Hm. unfold sample. rewrite Hhr, Hm. cbn [andb negb].
    rewrite bool_decide_eq_true_2 by (eexists; reflexivity). cbn [negb].
    rewrite bind_Ok, upscale_hr_pass. unfold upscale. rewrite Hm.
    destruct x as [[[b c] h] w]. reflexivity. }
  intros u Hm Hu Hin. unfold sample. rewrite Hhr, Hm. cbn [andb negb].
  rewrite bool_decide_eq_false_2 by (intros [? ?]; discriminate). cbn [negb].
  assert (Hex : existsb (fun name => bool_decide (Some name = self.(hr_upscaler)))
                  shared.(sd_upscalers) = true).
  { apply existsb_exists. exists u. split; [apply list_elem_of_In, Hin |].
    apply bool_decide_eq_true_2. congruence. }
  rewrite Hex. cbn [negb]. rewrite bind_Ok, upscale_hr_pass. unfold upscale.
  rewrite Hm. destruct x as [[[b c] h] w]. reflexivity.
Qed.

(** *** The target that [init] leaves, and the crop (C5) *)

Lemma with_params_self (self : t) :
  with_params (extra_generation_params self) self = self.
Proof. destruct self as [b ? ? ? ? ? ? ? ? ? ? ? ? ? ? ?]. destruct b. reflexivity. Qed.

Lemma cond_set_param_with_params (c : bool) (k : string) (v : pyval) (self : t) :
  exists d, (if c then set_param k v self else self) = with_params d self.
Proof.
  destruct c; eexists; [reflexivity | symmetry; apply with_params_self].
Qed.

(** The steps of [init] up to the target read and write the generation
    parameters apart from everything else. *)
Lemma apply_old_hires_behavior_with_params (opts : Options) (d : dict) (self : t) :
  apply_old_hires_behavior opts (with_params d self)
  = with_params d <$> apply_old_hires_behavior opts self.
Proof.
  destruct self as [b ? ? ? ? ? ? ? ? ? ? ? ? ? ? ?]. destruct b.
  unfold apply_old_hires_behavior, with_params, width, height, set_size.
  cbn -[old_hires_fix_first_pass_dimensions andb negb bool_decide].
  unfold constant.
  destruct (_ && _); [| reflexivity].
  destruct (old_hires_fix_first_pass_dimensions _ _) as [[w h] | e]; reflexivity.
Qed.

Lemma resolve_target_with_params (d : dict) (self self1 : t) :
  resolve_target self = Ok self1 ->
  exists d', resolve_target (with_params d self) = Ok (with_params d' self1).
Proof.
  destruct self as [bs en sc up st rx ry ux uy sn hp hn tx ty done pass].
  destruct bs.
  unfold resolve_target, with_params, set_param, width, height,
    extra_generation_params.
  cbn -[Dict.set int_of_float floordiv truediv Z.div Z.mul PrimFloat.ltb
        PrimFloat.mul float_of_Z str_of_Z String.append].
  unfold constant.
  destruct (rx =? 0); destruct (ry =? 0);
    cbn -[Dict.set int_of_float floordiv truediv Z.div Z.mul PrimFloat.ltb
          PrimFloat.mul float_of_Z str_of_Z String.append];
    repeat
      (match goal with
       | |- context [floordiv ?x ?y] => destruct (floordiv x y)
       | |- context [truediv ?x ?y] => destruct (truediv x y)
       | |- context [float_of_Z ?x] => destruct (float_of_Z x)
       | |- context [int_of_float ?f] => destruct (int_of_float f)
       | |- context [PrimFloat.ltb ?x ?y] => destruct (PrimFloat.ltb x y)
       end;
       cbn -[Dict.set int_of_float floordiv truediv Z.div Z.mul PrimFloat.ltb
             PrimFloat.mul float_of_Z str_of_Z String.append]);
    try discriminate; intros [= <-]; eexists; reflexivity.
Qed.

Lemma resolve_hires_with_params (opts : Options) (self : t) :
  exists d,
    resolve_hires opts self
    = apply_old_hires_behavior opts (with_params d self) ≫= resolve_target.
Proof.
  unfold resolve_hires.
  set (s1 := match self.(hr_sampler_name) with
             | Some h =>
                 if negb (bool_decide (Some h = self.(base).(Processing.sampler_name)))
                 then set_param "Hires sampler" (PyStr h) self else self
             | None => self
             end).
  assert (H1 : exists d, s1 = with_params d self).
  { subst s1. destruct (hr_sampler_name self) as [h | ].
    - apply cond_set_param_with_params.
    - exists (extra_generation_params self). symmetry. apply with_params_self. }
  destruct H1 as [d1 H1]. clearbody s1. cbv zeta.
  destruct (cond_set_param_with_params
              (negb (bool_decide (tuple_of_prompt s1.(hr_prompt)
                                  = tuple_of_prompt s1.(base).(Processing.prompt))))
              "Hires prompt" (pyval_of_prompt s1.(hr_prompt)) s1) as [d2 H2].
  rewrite H2.
  destruct (cond_set_param_with_params
              (negb (bool_decide
                       (tuple_of_prompt (with_params d2 s1).(hr_negative_prompt)
                        = tuple_of_prompt
                            (with_params d2 s1).(base).(Processing.negative_prompt))))
              "Hires negative prompt"
              (pyval_of_prompt (with_params d2 s1).(hr_negative_prompt))
              (with_params d2 s1)) as [d3 H3].
  rewrite H3. subst s1. exists d3. reflexivity.
Qed.

Lemma resolve_hires_geometry (opts : Options) (self self0 self1 : t) :
  apply_old_hires_behavior opts self = Ok self0 ->
  resolve_target self0 = Ok self1 ->
  exists d, resolve_hires opts self = Ok (with_params d self1).
Proof.
  intros Hold Htarget.
  destruct (resolve_hires_with_params opts self) as [d ->].
  rewrite apply_old_hires_behavior_with_params, Hold.
  change (with_params d <$> Ok self0) with (Ok (with_params d self0)).
  rewrite bind_Ok. apply resolve_target_with_params, Htarget.
Qed.

Lemma announce_hires_geometry (self : t) (state : State) :
  target (announce_hires self state).1 = target self
  /\ truncation (announce_hires self state).1 = truncation self
  /\ width (announce_hires self state).1 = width self
  /\ height (announce_hires self state).1 = height self.
Proof.
  unfold announce_hires. cbv zeta. cbn [fst].
  destruct (negb (hr_second_pass_steps self =? 0)).
  - destruct (hr_upscaler (set_param _ _ self)); repeat split.
  - destruct (hr_upscaler self); repeat split.
Qed.

(** What [init] leaves as target, truncation and size is what
    [resolve_target] computes on the request as the compatibility step
    returns it. *)
Lemma init_geometry (opts : Options) (self self0 self1 : t) (state : State) :
  self.(enable_hr) = true ->
  apply_old_hires_behavior opts self = Ok self0 ->
  resolve_target self0 = Ok self1 ->
  exists self' state',
    init opts self state = Ok (self', state')
    /\ target self' = target self1 /\ truncation self' = truncation self1
    /\ width self' = width self1 /\ height self' = height self1.
Proof.
  intros Hhr Hold Htarget.
  destruct (resolve_hires_geometry _ _ _ _ Hold Htarget) as [d Hres].
  unfold init. rewrite Hhr. cbn [negb]. rewrite Hres, bind_Ok.
  destruct (_ && _).
  - exists (disable_hr (with_params d self1)), state.
    split; [reflexivity |]. repeat split.
  - destruct (announce_hires (with_params d self1) state) as [self' state'] eqn:E.
    exists self', state'. split; [reflexivity |].
    change self' with (self', state').1. rewrite <- E.
    destruct (announce_hires_geometry (with_params d self1) state)
      as (-> & -> & -> & ->).
    repeat split.
Qed.

(** The second pass samples the crop of a latent of the target size. *)
Lemma sample_crops_upscaled (shared : Shared) (self self' : t)
    (x samples : shape) (tr : list event) :
  self.(enable_hr) = true ->
  sample shared self x = Ok (samples, self', tr) ->
  exists b c,
    samples
    = crop_samples self
        (b, c, self.(hr_upscale_to_y) / opt_f, self.(hr_upscale_to_x) / opt_f).
Proof.
  intros Hhr.
  assert (Hup : forall s evs,
             upscale shared self x = Ok (s, evs) ->
             exists b c,
               s = (b, c, self.(hr_upscale_to_y) / opt_f,
                    self.(hr_upscale_to_x) / opt_f)).
  { unfold upscale. destruct x as [[[b c] h] w].
    destruct (latent_scale_mode shared self) as [[mode aa | m] | ]; intros s evs.
    - intros [= <- <-]. exists b, c. reflexivity.
    - discriminate.
    - intros [= <- <-]. exists b, opt_C. reflexivity. }
  unfold sample. rewrite Hhr. cbn [andb negb].
  destruct (negb (bool_decide _)).
  - destruct (negb (existsb _ _)); [rewrite bind_Raise; discriminate |].
    rewrite bind_Ok, upscale_hr_pass.
    destruct (upscale shared self x) as [[s evs] | e] eqn:E;
      [| rewrite bind_Raise; discriminate].
    rewrite bind_Ok. intros [= <- <- <-].
    destruct (Hup _ _ eq_refl) as (b & c & ->). exists b, c.
    destruct self. reflexivity.
  - rewrite bind_Ok, upscale_hr_pass.
    destruct (upscale shared self x) as [[s evs] | e] eqn:E;
      [| rewrite bind_Raise; discriminate].
    rewrite bind_Ok. intros [= <- <- <-].
    destruct (Hup _ _ eq_refl) as (b & c & ->). exists b, c.
    destruct self. reflexivity.
Qed.


End HiresFacts.

(** Requests of the second pass, run. *)


(** A request that is not in multiples of 8 pixels is not met exactly:
    of 1000 by 604 pixels asked on a square base, [init] leaves the
    target 1000 by 1000 and a truncation of 49 cells (396 pixels are
    49.5), and [sample] continues from a latent of 76 by 125 cells, 608
    by 1000 pixels. *)
Lemma hires_crop_misses_request :
  exists self' state' self'' tr,
    Txt2Img.init default_options (hires_request 2 1000 604 None None) fresh_state
    = Ok (self', state')
    /\ self'.(Txt2Img.enable_hr) = true
    /\ (self'.(Txt2Img.hr_resize_x), self'.(Txt2Img.hr_resize_y)) = (1000, 604)%Z
    /\ Txt2Img.target self' = (1000, 1000)%Z
    /\ Txt2Img.truncation self' = (0, 49)%Z
    /\ Txt2Img.crop_samples self' (2, 4, 125, 125)%Z = (2, 4, 76, 125)%Z
    /\ Txt2Img.sample default_shared self' (2, 4, 64, 64)%Z
       = Ok ((2, 4, 76, 125)%Z, self'', tr)
    /\ (76 * opt_f)%Z <> self'.(Txt2Img.hr_resize_y).
Proof.
  do 4 eexists. split; [vm_compute; reflexivity |].
  split; [reflexivity |]. split; [reflexivity |]. split; [reflexivity |].
  split; [reflexivity |]. split; [reflexivity |].
  split; [vm_compute; reflexivity |]. discriminate.
Qed.

(** hr_scale = 2 on 512 by 512: the second pass runs at 1024 by 1024. *)
Example hires_scale_two :
  exists self' st',
    Txt2Img.init default_options (hires_request 2 0 0 None None) fresh_state
    = Ok (self', st')
    /\ self'.(Txt2Img.enable_hr) = true
    /\ Txt2Img.target self' = (1024, 1024)%Z
    /\ Dict.keys (Txt2Img.extra_generation_params self')
       = ["Hires upscale"; "Hires upscaler"]%string
    /\ st'.(job_count) = 2%Z.
Proof.
  do 2 eexists. split; [vm_compute; reflexivity |].
  repeat split; vm_compute; reflexivity.
Qed.

Lemma init_disables_noop_hires_witness :
  exists self',
    Txt2Img.init default_options (hires_request 1 0 0 None None) fresh_state
    = Ok (self', fresh_state)
    /\ self'.(Txt2Img.enable_hr) = false
    /\ Txt2Img.denoising_strength self' = None
    /\ ("Hires upscale"%string ∉ Dict.keys (Txt2Img.extra_generation_params self')).
Proof.
  assert (E : exists self1,
             Txt2Img.resolve_hires default_options (hires_request 1 0 0 None None)
             = Ok self1
             /\ self1.(Txt2Img.hr_upscale_to_x) = Txt2Img.width self1
             /\ self1.(Txt2Img.hr_upscale_to_y) = Txt2Img.height self1).
  { eexists. split; [vm_compute; reflexivity |]. split; reflexivity. }
  destruct E as (self1 & E1 & E2 & E3).
  destruct (init_disables_noop_hires default_options
              (hires_request 1 0 0 None None) self1 fresh_state eq_refl E1 E2 E3)
    as (self' & H1 & H2 & H3 & H4 & _).
  exists self'. repeat split; assumption.
Defined.

Lemma sample_second_pass_sampler_witness :
  Txt2Img.img2img_sampler_name
    (hires_request 2 0 0 (Some "PLMS") (Some "Euler a"))%string
  = Some "DDIM"%string
  /\ is_ok (Txt2Img.sample default_shared
              (hires_request 2 0 0 (Some "PLMS") (Some "Euler a"))%string
              (2, 4, 64, 64)%Z) = true.
Proof.
  destruct (sample_second_pass_sampler default_shared
              (hires_request 2 0 0 (Some "PLMS") (Some "Euler a"))%string
              (2, 4, 64, 64)%Z eq_refl)
    as (_ & H1 & _ & H2 & _).
  split; [exact H1 |]. exact (H2 "bilinear"%string false eq_refl).
Defined.

(** The calls of a hires run with [UniPC] configured: the first pass with
    [UniPC], the second with [DDIM]; no hook is called on a request
    without a script runner. *)
Example sample_trace_unipc :
  ('(self', _) ← Txt2Img.init default_options
                   (hires_request 2 0 0 (Some "UniPC") None)%string fresh_state;
   '(_, _, tr) ← Txt2Img.sample default_shared self' (2, 4, 64, 64)%Z;
   Ok tr)
  = Ok [Txt2Img.CreateSampler (Some "UniPC");
        Txt2Img.SamplerSample (2, 4, 64, 64);
        Txt2Img.Interpolate (128, 128) "bilinear" false;
        Txt2Img.NextJob;
        Txt2Img.CreateSampler (Some "DDIM");
        Txt2Img.SamplerSampleImg2Img (Some "DDIM") (2, 4, 128, 128) 50]%Z%string.
Proof. vm_compute. reflexivity. Qed.

(** The same run with a script runner set: [before_hr] is called between
    the creation of the second sampler and its run. *)
Example sample_trace_unipc_scripts :
  ('(self', _) ← Txt2Img.init default_options
                   (with_scripts (hires_request 2 0 0 (Some "UniPC") None))%string
                   fresh_state;
   '(_, _, tr) ← Txt2Img.sample default_shared self' (2, 4, 64, 64)%Z;
   Ok tr)
  = Ok [Txt2Img.CreateSampler (Some "UniPC");
        Txt2Img.SamplerSample (2, 4, 64, 64);
        Txt2Img.Interpolate (128, 128) "bilinear" false;
        Txt2Img.NextJob;
        Txt2Img.CreateSampler (Some "DDIM");
        Txt2Img.BeforeHr;
        Txt2Img.SamplerSampleImg2Img (Some "DDIM") (2, 4, 128, 128) 50]%Z%string.
Proof. vm_compute. reflexivity. Qed.

(** ** The blur of the inpainting mask (C7) *)

Lemma elem_of_range (n r : Z) : (0 <= r < n)%Z -> In r (range n).
Proof.
  intros Hr. unfold range. apply in_map_iff. exists (Z.to_nat r).
  split; [lia | apply in_seq; lia].
Qed.

Lemma kernel_size_checked :
  forallb kernel_size_is_floor (range (max_checked_radius + 1)) = true.
Proof. vm_compute. reflexivity. Qed.

(** [int(2.5 * r + 0.5)] is [floor((5 r + 1) / 2)]: the floats involved
    are exact, and [int] truncates. *)
Lemma kernel_size_floor (r : Z) :
  (0 <= r <= max_checked_radius)%Z ->
  Img2Img.kernel_size r = Ok (2 * ((5 * r + 1) / 2) + 1)%Z.
Proof.
  intros Hr.
  assert (Hin : In r (range (max_checked_radius + 1))).
  { apply elem_of_range. lia. }
  assert (H := proj1 (forallb_forall _ _) kernel_size_checked r Hin).
  unfold kernel_size_is_floor in H.
  destruct (Img2Img.kernel_size r) as [k | e]; [| discriminate].
  apply Z.eqb_eq in H. congruence.
Qed.

Section MaskFacts.
Context {M : Img2Img.MaskOps}.
Import Img2Img.
Local Open Scope Z_scope.


End MaskFacts.




(* ===================================================================== *)
(** * Part II, continued: further properties of the module                *)
(* ===================================================================== *)

(** ** The conditioning caches across calls *)

Section ConditioningFacts.
Context {Tensor : Type}.
Implicit Types (σ : Cache.store Tensor) (w : Cache.world Tensor).
Implicit Types (k : Cache.cached_params) (caches : list nat).

Lemma find_hit_agree σ σ' k caches :
  (forall l, l ∈ caches -> Cache.read σ l = Cache.read σ' l) ->
  Cache.find_hit σ k caches = Cache.find_hit σ' k caches.
Proof.
  induction caches as [ | l rest IH]; intros Hag; [reflexivity |].
  simpl. rewrite <- (Hag l) by left.
  rewrite IH by (intros l' Hl'; apply Hag; right; exact Hl').
  reflexivity.
Qed.

(** What one call leaves behind: it returns, writes at most the first
    list of [caches], and calls the function at most once. *)
Lemma get_conds_post opts ckpt wd ht (function : list string -> Z -> Tensor)
    prompts steps (c : nat) rest extra w :
  exists v w1,
    Cache.get_conds_with_caching opts ckpt wd ht function prompts steps
      (c :: rest) extra w = Ok (v, w1)
    /\ (forall l, l <> c -> Cache.read (Cache.slots w1) l = Cache.read (Cache.slots w) l)
    /\ (exists new, Cache.calls w1 = Cache.calls w ++ new /\ (length new <= 1)%nat)
    /\ (forall w2,
          (forall l, l ∈ c :: rest ->
                     Cache.read (Cache.slots w2) l = Cache.read (Cache.slots w1) l) ->
          Cache.get_conds_with_caching opts ckpt wd ht function prompts steps
            (c :: rest) extra w2 = Ok (v, w2)).
Proof.
  set (k := Cache.key_of opts ckpt wd ht prompts steps extra).
  destruct (Cache.find_hit (Cache.slots w) k (c :: rest)) as [v | ] eqn:Hf.
  - exists v, w. split; [| split; [reflexivity | split]].
    + unfold Cache.get_conds_with_caching. fold k. rewrite Hf. reflexivity.
    + exists []. rewrite app_nil_r. split; [reflexivity | simpl; lia].
    + intros w2 Hag. unfold Cache.get_conds_with_caching. fold k.
      rewrite (find_hit_agree _ _ _ _ Hag), Hf. reflexivity.
  - destruct (get_conds_miss opts ckpt wd ht function prompts steps c rest extra w
                (proj1 (find_hit_None _ _ _) Hf))
      as (w1 & Hcall & Hcalls & Hslot & Hframe).
    exists (Some (function prompts steps)), w1.
    split; [exact Hcall |]. split; [| split].
    + intros l Hl. unfold Cache.read. rewrite (Hframe l Hl). reflexivity.
    + exists [(prompts, steps)]. split; [exact Hcalls | simpl; lia].
    + intros w2 Hag. unfold Cache.get_conds_with_caching. fold k. simpl.
      rewrite (Hag c) by left. rewrite Hslot. simpl.
      rewrite decide_True by reflexivity. reflexivity.
Qed.

(** A call on a single list leaves that list holding the key and the
    tensor it returned. *)
Lemma get_conds_single_holds opts ckpt wd ht (function : list string -> Z -> Tensor)
    prompts steps (c : nat) extra w v w1 :
  Cache.get_conds_with_caching opts ckpt wd ht function prompts steps [c] extra w
  = Ok (v, w1) ->
  Cache.read (Cache.slots w1) c
  = {| Cache.slot_key := Some (Cache.key_of opts ckpt wd ht prompts steps extra);
       Cache.slot_value := v |}.
Proof.
  set (k := Cache.key_of opts ckpt wd ht prompts steps extra).
  destruct (Cache.find_hit (Cache.slots w) k [c]) as [v' | ] eqn:Hf.
  - unfold Cache.get_conds_with_caching. fold k. rewrite Hf. intros [= <- <-].
    destruct (find_hit_Some _ _ _ _ Hf) as (l & Hin & Hh & ->).
    apply list_elem_of_singleton in Hin. subst l.
    unfold Cache.holds in Hh. destruct (Cache.read (Cache.slots w) c) as [key val].
    simpl in *. subst key. reflexivity.
  - destruct (get_conds_miss opts ckpt wd ht function prompts steps c [] extra w
                (proj1 (find_hit_None _ _ _) Hf))
      as (w1' & Hcall & _ & Hslot & _).
    rewrite Hcall. intros [= <- <-]. exact Hslot.
Qed.

(** The fallback: the first list does not hold the key, the second does. *)
Lemma get_conds_fallback opts ckpt wd ht (function : list string -> Z -> Tensor)
    prompts steps (hr base : nat) extra w v :
  ~ Cache.holds (Cache.slots w) hr (Cache.key_of opts ckpt wd ht prompts steps extra) ->
  Cache.read (Cache.slots w) base
  = {| Cache.slot_key := Some (Cache.key_of opts ckpt wd ht prompts steps extra);
       Cache.slot_value := v |} ->
  Cache.get_conds_with_caching opts ckpt wd ht function prompts steps
    [hr; base] extra w = Ok (v, w).
Proof.
  intros Hhr Hbase. unfold Cache.get_conds_with_caching, Cache.holds in *. simpl.
  rewrite Hbase. simpl. rewrite decide_True by reflexivity.
  destruct (Cache.slot_key (Cache.read (Cache.slots w) hr)) as [k' | ]; [| reflexivity].
  destruct (decide (_ = k')) as [<- | _]; [| reflexivity].
  destruct Hhr. reflexivity.
Qed.

Lemma distinct_ne (ks : Conds.caches) :
  Conds.distinct ks ->
  ks.(Conds.cached_uc) <> ks.(Conds.cached_c)
  /\ ks.(Conds.cached_uc) <> ks.(Conds.cached_hr_uc)
  /\ ks.(Conds.cached_uc) <> ks.(Conds.cached_hr_c)
  /\ ks.(Conds.cached_c) <> ks.(Conds.cached_hr_uc)
  /\ ks.(Conds.cached_c) <> ks.(Conds.cached_hr_c)
  /\ ks.(Conds.cached_hr_uc) <> ks.(Conds.cached_hr_c).
Proof.
  unfold Conds.distinct. rewrite !NoDup_cons, !not_elem_of_cons. tauto.
Qed.

Section WithFunctions.
Variable get_learned_conditioning : list string -> Z -> Tensor.
Variable get_multicond_learned_conditioning : list string -> Z -> Tensor.
Variables (opts : Options) (checkpoint : string).

Local Abbreviation setup_conds :=
  (Conds.setup_conds get_learned_conditioning get_multicond_learned_conditioning
     opts checkpoint).
Local Abbreviation calculate_hr_conds :=
  (Conds.calculate_hr_conds get_learned_conditioning
     get_multicond_learned_conditioning opts checkpoint).
Local Abbreviation setup_conds_txt2img :=
  (Conds.setup_conds_txt2img get_learned_conditioning
     get_multicond_learned_conditioning opts checkpoint).

Lemma setup_conds_post (second_order : bool) (ks : Conds.caches)
    (self : StableDiffusionProcessing) extra (cs : Conds.conds Tensor) w :
  ks.(Conds.cached_uc) <> ks.(Conds.cached_c) ->
  exists uc c w1,
    let cs1 hr_uc hr_c :=
      {| Conds.uc := uc; Conds.c := c; Conds.hr_uc := hr_uc; Conds.hr_c := hr_c;
         Conds.step_multiplier := (if second_order then 2 else 1)%Z |} in
    setup_conds second_order ks self extra cs w
    = Ok (cs1 cs.(Conds.hr_uc) cs.(Conds.hr_c), w1)
    /\ (forall l, l <> ks.(Conds.cached_uc) -> l <> ks.(Conds.cached_c) ->
          Cache.read (Cache.slots w1) l = Cache.read (Cache.slots w) l)
    /\ (exists new, Cache.calls w1 = Cache.calls w ++ new /\ (length new <= 2)%nat)
    /\ Cache.read (Cache.slots w1) ks.(Conds.cached_uc)
       = {| Cache.slot_key :=
              Some (Cache.key_of opts checkpoint self.(Processing.width)
                      self.(Processing.height) self.(Processing.negative_prompts)
                      (self.(Processing.steps) * (if second_order then 2 else 1))
                      extra);
            Cache.slot_value := uc |}
    /\ Cache.read (Cache.slots w1) ks.(Conds.cached_c)
       = {| Cache.slot_key :=
              Some (Cache.key_of opts checkpoint self.(Processing.width)
                      self.(Processing.height) self.(Processing.prompts)
                      (self.(Processing.steps) * (if second_order then 2 else 1))
                      extra);
            Cache.slot_value := c |}
    /\ (forall cs' w2,
          Cache.read (Cache.slots w2) ks.(Conds.cached_uc)
          = Cache.read (Cache.slots w1) ks.(Conds.cached_uc) ->
          Cache.read (Cache.slots w2) ks.(Conds.cached_c)
          = Cache.read (Cache.slots w1) ks.(Conds.cached_c) ->
          setup_conds second_order ks self extra cs' w2
          = Ok (cs1 cs'.(Conds.hr_uc) cs'.(Conds.hr_c), w2)).
Proof.
  intros Hne. unfold Conds.setup_conds.
  set (m := (if second_order then 2 else 1)%Z).
  destruct (get_conds_post opts checkpoint self.(Processing.width)
              self.(Processing.height) get_learned_conditioning
              self.(Processing.negative_prompts) (self.(Processing.steps) * m)
              ks.(Conds.cached_uc) [] extra w)
    as (uc & wa & Ha & Hfa & (na & Hca & Hla) & Hra).
  destruct (get_conds_post opts checkpoint self.(Processing.width)
              self.(Processing.height) get_multicond_learned_conditioning
              self.(Processing.prompts) (self.(Processing.steps) * m)
              ks.(Conds.cached_c) [] extra wa)
    as (c & wb & Hb & Hfb & (nb & Hcb & Hlb) & Hrb).
  exists uc, c, wb. cbv zeta.
  split; [rewrite Ha, bind_Ok; cbv beta iota; rewrite Hb, bind_Ok; reflexivity |].
  split; [intros l H1 H2; rewrite Hfb, Hfa by assumption; reflexivity |].
  split.
  { exists (na ++ nb). rewrite Hcb, Hca, <- app_assoc.
    split; [reflexivity | rewrite length_app; lia]. }
  split.
  { rewrite Hfb by exact Hne. exact (get_conds_single_holds _ _ _ _ _ _ _ _ _ _ _ _ Ha). }
  split; [exact (get_conds_single_holds _ _ _ _ _ _ _ _ _ _ _ _ Hb) |].
  intros cs' w2 Huc Hc.
  rewrite (Hra w2), bind_Ok; cbv beta iota.
  - rewrite (Hrb w2), bind_Ok; [reflexivity |].
    intros l Hl. apply list_elem_of_singleton in Hl. subst l. exact Hc.
  - intros l Hl. apply list_elem_of_singleton in Hl. subst l.
    rewrite Huc. apply Hfb. exact Hne.
Qed.

Lemma calculate_hr_conds_post (ks : Conds.caches)
    (self : StableDiffusionProcessing) hr_prompts hr_negative_prompts hr_extra
    (cs : Conds.conds Tensor) w :
  cs.(Conds.hr_c) = None ->
  ks.(Conds.cached_hr_c) <> ks.(Conds.cached_hr_uc) ->
  ks.(Conds.cached_hr_c) <> ks.(Conds.cached_uc) ->
  exists hr_uc hr_c w1,
    let cs1 (cs : Conds.conds Tensor) :=
      {| Conds.uc := cs.(Conds.uc); Conds.c := cs.(Conds.c);
         Conds.hr_uc := hr_uc; Conds.hr_c := hr_c;
         Conds.step_multiplier := cs.(Conds.step_multiplier) |} in
    calculate_hr_conds ks self hr_prompts hr_negative_prompts hr_extra cs w
    = Ok (cs1 cs, w1)
    /\ (forall l, l <> ks.(Conds.cached_hr_uc) -> l <> ks.(Conds.cached_hr_c) ->
          Cache.read (Cache.slots w1) l = Cache.read (Cache.slots w) l)
    /\ (exists new, Cache.calls w1 = Cache.calls w ++ new /\ (length new <= 2)%nat)
    /\ (forall cs' w2,
          cs'.(Conds.hr_c) = None ->
          cs'.(Conds.step_multiplier) = cs.(Conds.step_multiplier) ->
          (forall l, l ∈ [ks.(Conds.cached_hr_uc); ks.(Conds.cached_uc);
                          ks.(Conds.cached_hr_c); ks.(Conds.cached_c)] ->
                     Cache.read (Cache.slots w2) l = Cache.read (Cache.slots w1) l) ->
          calculate_hr_conds ks self hr_prompts hr_negative_prompts hr_extra cs' w2
          = Ok (cs1 cs', w2)).
Proof.
  intros Hnone Hne1 Hne2. unfold Conds.calculate_hr_conds. rewrite Hnone.
  destruct (get_conds_post opts checkpoint self.(Processing.width)
              self.(Processing.height) get_learned_conditioning
              hr_negative_prompts
              (self.(Processing.steps) * cs.(Conds.step_multiplier))
              ks.(Conds.cached_hr_uc) [ks.(Conds.cached_uc)] hr_extra w)
    as (hr_uc & wa & Ha & Hfa & (na & Hca & Hla) & Hra).
  destruct (get_conds_post opts checkpoint self.(Processing.width)
              self.(Processing.height) get_multicond_learned_conditioning
              hr_prompts
              (self.(Processing.steps) * cs.(Conds.step_multiplier))
              ks.(Conds.cached_hr_c) [ks.(Conds.cached_c)] hr_extra wa)
    as (hr_c & wb & Hb & Hfb & (nb & Hcb & Hlb) & Hrb).
  exists hr_uc, hr_c, wb. cbv zeta.
  split; [rewrite Ha, bind_Ok; cbv beta iota; rewrite Hb, bind_Ok; reflexivity |].
  split; [intros l H1 H2; rewrite Hfb, Hfa by assumption; reflexivity |].
  split.
  { exists (na ++ nb). rewrite Hcb, Hca, <- app_assoc.
    split; [reflexivity | rewrite length_app; lia]. }
  intros cs' w2 Hnone' Hm Hagree. rewrite Hnone', Hm.
  rewrite (Hra w2), bind_Ok; cbv beta iota.
  - rewrite (Hrb w2), bind_Ok; [reflexivity |].
    intros l Hl. apply Hagree. rewrite !elem_of_cons in *. tauto.
  - intros l Hl. rewrite Hagree by (rewrite !elem_of_cons in *; tauto).
    apply Hfb. rewrite !elem_of_cons, elem_of_nil in Hl.
    destruct Hl as [-> | [-> | []]]; congruence.
Qed.

(** [StableDiffusionProcessingTxt2Img.setup_conds] is memoised as a whole:
    when the four cache lists are four different objects, a run succeeds
    after at most four calls of the conditioning functions (two without
    the high-resolution conds), and running it again in the world it
    leaves, with the same prompts, steps and extra networks, gives the
    same conds without any call and without touching a cache. *)
Theorem setup_conds_txt2img_memoised
    (second_order hires_fix_use_firstpass_conds lowvram : bool)
    (ks : Conds.caches) (self : StableDiffusionProcessing) (enable_hr : bool)
    extra hr_prompts hr_negative_prompts hr_extra (cs : Conds.conds Tensor) w :
  Conds.distinct ks ->
  exists cs1 w1,
    setup_conds_txt2img second_order hires_fix_use_firstpass_conds lowvram ks
      self enable_hr extra hr_prompts hr_negative_prompts hr_extra cs w
    = Ok (cs1, w1)
    /\ (exists new,
          Cache.calls w1 = Cache.calls w ++ new
          /\ (length new <= if enable_hr
                              && (hires_fix_use_firstpass_conds || lowvram)
                            then 4 else 2)%nat)
    /\ forall cs',
        setup_conds_txt2img second_order hires_fix_use_firstpass_conds lowvram
          ks self enable_hr extra hr_prompts hr_negative_prompts hr_extra cs' w1
        = Ok (cs1, w1).
Proof.
  intros Hd. destruct (distinct_ne ks Hd) as (Hbase & H1 & H2 & H3 & H4 & H5).
  destruct (setup_conds_post second_order ks self extra cs w Hbase)
    as (uc & c & wb & Hrun & Hfb & (nb & Hcb & Hlb) & _ & _ & Hrb).
  cbv zeta in Hrun, Hrb.
  set (m := (if second_order then 2 else 1)%Z) in *.
  set (cs0 := {| Conds.uc := uc; Conds.c := c; Conds.hr_uc := None;
                 Conds.hr_c := None; Conds.step_multiplier := m |}).
  assert (Hplain :
    exists new, Cache.calls wb = Cache.calls w ++ new
      /\ (length new <= if enable_hr && (hires_fix_use_firstpass_conds || lowvram)
                        then 4 else 2)%nat).
  { exists nb. split; [exact Hcb |]. destruct (_ && _); lia. }
  assert (Hhires :
    exists cs1 w1,
      calculate_hr_conds ks self hr_prompts hr_negative_prompts hr_extra cs0 wb
      = Ok (cs1, w1)
      /\ (exists new, Cache.calls w1 = Cache.calls w ++ new /\ (length new <= 4)%nat)
      /\ forall cs',
          setup_conds second_order ks self extra cs' w1
          = Ok ({| Conds.uc := uc; Conds.c := c; Conds.hr_uc := cs'.(Conds.hr_uc);
                   Conds.hr_c := cs'.(Conds.hr_c); Conds.step_multiplier := m |}, w1)
          /\ calculate_hr_conds ks self hr_prompts hr_negative_prompts hr_extra
               cs0 w1 = Ok (cs1, w1)).
  { destruct (calculate_hr_conds_post ks self hr_prompts hr_negative_prompts
                hr_extra cs0 wb eq_refl) as (hr_uc & hr_c & wh & Hh & Hfh & (nh & Hch & Hlh) & Hrh);
      [congruence | congruence |].
    cbv zeta in Hh, Hrh. eexists _, wh. split; [exact Hh |]. split.
    { exists (nb ++ nh). rewrite Hch, Hcb, <- app_assoc.
      split; [reflexivity | rewrite length_app; lia]. }
    intros cs'. split.
    - apply Hrb; apply Hfh; congruence.
    - apply (Hrh cs0 wh); reflexivity. }
  unfold Conds.setup_conds_txt2img.
  destruct enable_hr; cbn [andb].
  - destruct hires_fix_use_firstpass_conds; cbn [orb].
    + destruct Hhires as (cs1 & w1 & Hh & Hc & Hr).
      exists cs1, w1. rewrite Hrun, bind_Ok. cbv beta iota zeta.
      split; [exact Hh |]. split; [exact Hc |].
      intros cs'. destruct (Hr cs') as [Hs Hh']. rewrite Hs, bind_Ok. exact Hh'.
    + destruct lowvram.
      * destruct Hhires as (cs1 & w1 & Hh & Hc & Hr).
        exists cs1, w1. rewrite Hrun, bind_Ok. cbv beta iota zeta.
        split; [exact Hh |]. split; [exact Hc |].
        intros cs'. destruct (Hr cs') as [Hs Hh']. rewrite Hs, bind_Ok. exact Hh'.
      * exists cs0, wb. rewrite Hrun, bind_Ok. split; [reflexivity |].
        split; [exact Hplain |].
        intros cs'. rewrite Hrb by reflexivity. rewrite bind_Ok. reflexivity.
  - exists cs0, wb. rewrite Hrun, bind_Ok. split; [reflexivity |].
    split; [exact Hplain |].
    intros cs'. rewrite Hrb by reflexivity. rewrite bind_Ok. reflexivity.
Qed.

(** With the high-resolution prompts, negative prompts and extra networks
    equal to the first pass's, and the high-resolution lists not holding
    those arguments, the high-resolution conds are the first pass's own
    tensors, taken from its lists: no further call is made and the
    high-resolution lists stay as they were. *)
Theorem hr_conds_reuse_first_pass
    (second_order hires_fix_use_firstpass_conds lowvram : bool)
    (ks : Conds.caches) (self : StableDiffusionProcessing)
    extra (cs : Conds.conds Tensor) w :
  Conds.distinct ks ->
  hires_fix_use_firstpass_conds || lowvram = true ->
  let steps := (self.(Processing.steps) * (if second_order then 2 else 1))%Z in
  let key prompts :=
    Cache.key_of opts checkpoint self.(Processing.width) self.(Processing.height)
      prompts steps extra in
  ~ Cache.holds (Cache.slots w) ks.(Conds.cached_hr_uc)
      (key self.(Processing.negative_prompts)) ->
  ~ Cache.holds (Cache.slots w) ks.(Conds.cached_hr_c)
      (key self.(Processing.prompts)) ->
  exists cs0 w0 cs1,
    setup_conds second_order ks self extra cs w = Ok (cs0, w0)
    /\ setup_conds_txt2img second_order hires_fix_use_firstpass_conds lowvram ks
         self true extra self.(Processing.prompts)
         self.(Processing.negative_prompts) extra cs w
       = Ok (cs1, w0)
    /\ cs1.(Conds.uc) = cs0.(Conds.uc)
    /\ cs1.(Conds.c) = cs0.(Conds.c)
    /\ cs1.(Conds.hr_uc) = cs0.(Conds.uc)
    /\ cs1.(Conds.hr_c) = cs0.(Conds.c)
    /\ Cache.read (Cache.slots w0) ks.(Conds.cached_hr_uc)
       = Cache.read (Cache.slots w) ks.(Conds.cached_hr_uc)
    /\ Cache.read (Cache.slots w0) ks.(Conds.cached_hr_c)
       = Cache.read (Cache.slots w) ks.(Conds.cached_hr_c).
Proof.
  intros Hd Hflag steps key Hhruc Hhrc.
  destruct (distinct_ne ks Hd) as (Hbase & H1 & H2 & H3 & H4 & H5).
  destruct (setup_conds_post second_order ks self extra cs w Hbase)
    as (uc & c & wb & Hrun & Hfb & _ & Huc & Hc & _).
  cbv zeta in Hrun. fold steps in Huc, Hc.
  set (m := (if second_order then 2 else 1)%Z) in *.
  set (cs0 := {| Conds.uc := uc; Conds.c := c; Conds.hr_uc := None;
                 Conds.hr_c := None; Conds.step_multiplier := m |}).
  assert (Hhires :
    calculate_hr_conds ks self self.(Processing.prompts)
      self.(Processing.negative_prompts) extra cs0 wb
    = Ok ({| Conds.uc := uc; Conds.c := c; Conds.hr_uc := uc; Conds.hr_c := c;
             Conds.step_multiplier := m |}, wb)).
  { unfold Conds.calculate_hr_conds. cbn [Conds.hr_c Conds.step_multiplier cs0 Conds.uc Conds.c].
    rewrite (get_conds_fallback _ _ _ _ _ _ _ _ _ _ wb uc).
    - rewrite bind_Ok. cbv beta iota.
      rewrite (get_conds_fallback _ _ _ _ _ _ _ _ _ _ wb c).
      + reflexivity.
      + unfold Cache.holds. rewrite Hfb by congruence. exact Hhrc.
      + exact Hc.
    - unfold Cache.holds. rewrite Hfb by congruence. exact Hhruc.
    - exact Huc. }
  eexists _, wb, _. split; [exact Hrun |].
  unfold Conds.setup_conds_txt2img. rewrite Hrun, bind_Ok. cbv beta iota zeta.
  cbn [Conds.uc Conds.c Conds.step_multiplier]. fold cs0.
  split.
  { destruct hires_fix_use_firstpass_conds; [exact Hhires |].
    destruct lowvram; [exact Hhires | discriminate]. }
  cbn [Conds.uc Conds.c Conds.hr_uc Conds.hr_c].
  repeat split; apply Hfb; congruence.
Qed.

(** After a [close] with a non-persistent cache, an instance constructed
    from the class attributes starts from empty lists: its [setup_conds]
    calls both conditioning functions, whatever the lists held before,
    and the lists of the earlier instances are left as they were. *)
Theorem close_forgets_conds (cls : Conds.caches) w (second_order : bool)
    (self : StableDiffusionProcessing) extra (cs : Conds.conds Tensor) :
  let cls' := (Conds.close false cls w).1 in
  let w' := (Conds.close false cls w).2 in
  let steps := (self.(Processing.steps) * (if second_order then 2 else 1))%Z in
  (forall l, l ∈ dom (Cache.slots w) ->
     l <> cls'.(Conds.cached_uc) /\ l <> cls'.(Conds.cached_c)
     /\ Cache.slots w' !! l = Cache.slots w !! l)
  /\ exists cs1 w1,
      setup_conds second_order cls' self extra cs w' = Ok (cs1, w1)
      /\ cs1.(Conds.uc)
         = Some (get_learned_conditioning self.(Processing.negative_prompts) steps)
      /\ cs1.(Conds.c)
         = Some (get_multicond_learned_conditioning self.(Processing.prompts) steps)
      /\ Cache.calls w1
         = Cache.calls w ++ [(self.(Processing.negative_prompts), steps);
                             (self.(Processing.prompts), steps)].
Proof.
  cbv zeta. unfold Conds.close, Conds.new_list. cbn [negb fst snd Conds.cached_uc Conds.cached_c Cache.slots].
  set (σ := Cache.slots w).
  set (lc := fresh (dom σ)).
  set (σ1 := <[lc := Cache.empty_slot]> σ).
  set (luc := fresh (dom σ1)).
  assert (Hlc : lc ∉ dom σ) by apply is_fresh.
  assert (Hluc : luc ∉ dom σ1) by apply is_fresh.
  assert (Hsub : forall l, l = lc \/ l ∈ dom σ -> l ∈ dom σ1).
  { intros l Hl. unfold σ1, Cache.store in *. rewrite dom_insert.
    apply elem_of_union. rewrite elem_of_singleton. exact Hl. }
  assert (Hne : luc <> lc).
  { intros Heq. apply Hluc, Hsub. left. exact Heq. }
  split.
  { intros l Hl.
    assert (Hl1 : l <> luc) by (intros ->; apply Hluc, Hsub; right; exact Hl).
    assert (Hl2 : l <> lc) by (intros ->; exact (Hlc Hl)).
    split; [exact Hl1 | split; [exact Hl2 |]].
    unfold σ1, Cache.store in *. rewrite !lookup_insert_ne by congruence.
    reflexivity. }
  set (m := (if second_order then 2 else 1)%Z).
  set (w' := {| Cache.slots := <[luc := Cache.empty_slot]> σ1;
                Cache.calls := Cache.calls w |}).
  unfold Conds.setup_conds. cbn [Conds.cached_uc Conds.cached_c].
  destruct (get_conds_miss opts checkpoint self.(Processing.width)
              self.(Processing.height) get_learned_conditioning
              self.(Processing.negative_prompts) (self.(Processing.steps) * m)
              luc [] extra w') as (wa & Ha & Hca & _ & Hfa).
  { intros l Hl. apply list_elem_of_singleton in Hl. subst l.
    unfold Cache.holds, w'. cbn [Cache.slots]. rewrite read_insert. discriminate. }
  destruct (get_conds_miss opts checkpoint self.(Processing.width)
              self.(Processing.height) get_multicond_learned_conditioning
              self.(Processing.prompts) (self.(Processing.steps) * m)
              lc [] extra wa) as (wb & Hb & Hcb & _ & _).
  { intros l Hl. apply list_elem_of_singleton in Hl. subst l.
    unfold Cache.holds, Cache.read. rewrite Hfa by congruence.
    unfold w'. cbn [Cache.slots]. unfold Cache.store in *.
    rewrite lookup_insert_ne by exact Hne. unfold σ1.
    rewrite lookup_insert_eq. discriminate. }
  eexists _, wb. fold m. rewrite Ha, bind_Ok. cbv beta iota. rewrite Hb, bind_Ok.
  split; [reflexivity |]. cbn [Conds.uc Conds.c].
  split; [reflexivity |]. split; [reflexivity |].
  rewrite Hcb, Hca, <- app_assoc. reflexivity.
Qed.

End WithFunctions.

End ConditioningFacts.

Lemma setup_conds_txt2img_memoised_witness :
  Conds.distinct class_caches
  /\ exists cs1 w1,
      Conds.setup_conds_txt2img (echo_conditioning "uc") (echo_conditioning "c")
        default_options "v1-5" false true false class_caches batch_request true
        ∅ ["a dog"; "a dog"]%string [""; ""]%string ∅ Conds.no_conds initial_world
      = Ok (cs1, w1)
      /\ (length (Cache.calls w1) <= 4)%nat
      /\ Conds.setup_conds_txt2img (echo_conditioning "uc") (echo_conditioning "c")
           default_options "v1-5" false true false class_caches batch_request true
           ∅ ["a dog"; "a dog"]%string [""; ""]%string ∅ Conds.no_conds w1
         = Ok (cs1, w1).
Proof.
  assert (Hd : Conds.distinct class_caches).
  { apply (bool_decide_unpack _). vm_compute. reflexivity. }
  split; [exact Hd |].
  destruct (setup_conds_txt2img_memoised (echo_conditioning "uc")
              (echo_conditioning "c") default_options "v1-5" false true false
              class_caches batch_request true ∅ ["a dog"; "a dog"]%string
              [""; ""]%string ∅ Conds.no_conds initial_world Hd)
    as (cs1 & w1 & Hrun & (new & Hcalls & Hlen) & Hagain).
  exists cs1, w1. split; [exact Hrun |]. split; [| apply Hagain].
  rewrite Hcalls. simpl in *. exact Hlen.
Defined.

Lemma hr_conds_reuse_first_pass_witness :
  exists cs1 w1,
    Conds.setup_conds_txt2img (echo_conditioning "uc") (echo_conditioning "c")
      default_options "v1-5" false true false class_caches batch_request true
      ∅ ["a cat"; "a cat"]%string [""; ""]%string ∅ Conds.no_conds initial_world
    = Ok (cs1, w1)
    /\ cs1.(Conds.hr_c) = cs1.(Conds.c)
    /\ cs1.(Conds.hr_uc) = cs1.(Conds.uc).
Proof.
  destruct (hr_conds_reuse_first_pass (echo_conditioning "uc")
              (echo_conditioning "c") default_options "v1-5" false true false
              class_caches batch_request ∅ Conds.no_conds initial_world)
    as (cs0 & w0 & cs1 & _ & Hrun & Huc & Hc & Hhruc & Hhrc & _).
  - apply (bool_decide_unpack _). vm_compute. reflexivity.
  - reflexivity.
  - vm_compute. discriminate.
  - vm_compute. discriminate.
  - exists cs1, w0. split; [exact Hrun |]. split; congruence.
Defined.

(** ** Seeds, slices and the result of a run *)

Lemma bind_Ok_inv {A B} (m : result A) (k : A -> result B) (b : B) :
  m ≫= k = Ok b -> exists a, m = Ok a /\ k a = Ok b.
Proof. destruct m as [a | e]; [intros H; exists a; split; [reflexivity | exact H] | discriminate]. Qed.

Lemma getitem_0_Ok {A} (l : list A) (x : A) :
  getitem l 0 = Ok x -> head l = Some x.
Proof.
  destruct l as [ | y l]; [discriminate |].
  unfold getitem. cbn [length]. rewrite Nat2Z.inj_succ.
  change (0 <? 0)%Z with false. cbv beta iota zeta.
  destruct (_ || _); [discriminate |]. simpl. congruence.
Qed.

Lemma getitem_0_nil {A} : getitem ([] : list A) 0 = Raise IndexError.
Proof. reflexivity. Qed.

(** [l[lo:hi][j]] is [l[lo + j]] for non-negative bounds. *)
Lemma lookup_slice {A} (l : list A) (lo hi : Z) (j : nat) :
  (0 <= lo)%Z -> (Z.of_nat j < hi - lo)%Z ->
  slice l lo hi !! j = l !! (Z.to_nat lo + j)%nat.
Proof.
  intros Hlo Hj. unfold slice, slice_bound.
  destruct (Z.ltb_spec lo 0) as [? | _]; [lia |].
  destruct (Z.ltb_spec hi 0) as [? | _]; [lia |].
  set (n := Z.of_nat (length l)).
  destruct (decide (Z.to_nat lo + j < length l)%nat) as [Hin | Hout].
  - rewrite lookup_take_lt by lia. rewrite lookup_drop. f_equal. lia.
  - rewrite (proj2 (lookup_ge_None l _)) by lia.
    apply lookup_ge_None. rewrite length_take, length_drop. lia.
Qed.

Section RunFacts.
Context {RS : RandomSource} {C : Collaborators}.
Local Open Scope Z_scope.

Lemma asks_random_dec (s : seed_t) : asks_random s \/ ~ asks_random s.
Proof.
  unfold asks_random.
  destruct (decide (s = SeedNone)); destruct (decide (s = SeedEmpty));
    destruct (decide (s = SeedInt (-1))); tauto.
Qed.

Lemma get_fixed_seed_settled (s : seed_t) (g : rng_state) :
  ~ asks_random (get_fixed_seed s g).1.
Proof.
  destruct (asks_random_dec s) as [Hr | Hn].
  - destruct (get_fixed_seed_random s g Hr) as [-> Hb]. cbn [fst].
    intros [H | [H | H]]; try discriminate. injection H as H. lia.
  - rewrite get_fixed_seed_unchanged by exact Hn. exact Hn.
Qed.

(** [fix_seed] settles the seeds once and for all: afterwards neither
    seed is [None], the empty string or [-1], and fixing the request
    again changes nothing and draws no random number. *)
Theorem fix_seed_idempotent (p : StableDiffusionProcessing) (g : rng_state) :
  let p1 := (fix_seed p g).1 in
  ~ asks_random p1.(Processing.seed)
  /\ ~ asks_random p1.(Processing.subseed)
  /\ forall g', fix_seed p1 g' = (p1, g').
Proof.
  cbv zeta.
  assert (Hfixed : exists s ss g2,
            fix_seed p g
            = (p <| Processing.seed := s |> <| Processing.subseed := ss |>, g2)
            /\ ~ asks_random s /\ ~ asks_random ss).
  { unfold fix_seed.
    pose proof (get_fixed_seed_settled p.(Processing.seed) g) as Hs.
    destruct (get_fixed_seed p.(Processing.seed) g) as [s g1].
    change (Processing.subseed (p <| Processing.seed := s |>))
      with p.(Processing.subseed).
    pose proof (get_fixed_seed_settled p.(Processing.subseed) g1) as Hss.
    destruct (get_fixed_seed p.(Processing.subseed) g1) as [ss g2].
    exists s, ss, g2. split; [reflexivity | split; assumption]. }
  destruct Hfixed as (s & ss & g2 & -> & Hs & Hss). cbn [fst].
  split; [exact Hs | split; [exact Hss |]].
  intros g'. unfold fix_seed.
  change (Processing.seed (p <| Processing.seed := s |> <| Processing.subseed := ss |>))
    with s.
  rewrite (get_fixed_seed_unchanged s g' Hs).
  change (Processing.subseed
            (p <| Processing.seed := s |> <| Processing.subseed := ss |>
               <| Processing.seed := s |>))
    with ss.
  rewrite (get_fixed_seed_unchanged ss g' Hss).
  destruct p. reflexivity.
Qed.

(** A run with nothing to generate fails before anything is sampled: an
    empty list of prompts fails the assertion at the top, and a prompt
    string with [batch_size * n_iter <= 0], or an empty list of negative
    prompts, raises [IndexError] when [setup_prompts] takes the main
    prompts. *)
Theorem process_images_inner_nothing_to_generate
    (p : StableDiffusionProcessing) (st : State) (g : rng_state) :
  (p.(Processing.prompt) = PromptList [] ->
   process_images_inner p st g = Raise AssertionError)
  /\ (forall s, p.(Processing.prompt) = PromptStr s ->
        p.(Processing.batch_size) * p.(Processing.n_iter) <= 0 ->
        process_images_inner p st g = Raise IndexError)
  /\ (p.(Processing.prompt) <> PromptList [] ->
      p.(Processing.negative_prompt) = PromptList [] ->
      process_images_inner p st g = Raise IndexError).
Proof.
  unfold process_images_inner, resolve_seeds, setup_prompts.
  destruct (get_fixed_seed _ g) as [s1 g1]. destruct (get_fixed_seed _ g1) as [s2 g2].
  split; [| split].
  - intros ->. reflexivity.
  - intros s -> Hn. cbn [py_assert mbind result_bind].
    assert (Hz : Z.to_nat (p.(Processing.batch_size) * p.(Processing.n_iter)) = 0%nat)
      by lia.
    unfold list_mul. rewrite Hz. reflexivity.
  - intros Hp ->.
    assert (Hassert : match p.(Processing.prompt) with
                      | PromptList l => py_assert (0 <? len l)
                      | PromptStr _ => Ok tt
                      end = Ok tt).
    { destruct p.(Processing.prompt) as [s | [ | x l]]; try reflexivity. congruence. }
    rewrite Hassert, bind_Ok. cbn [fmap list_fmap].
    rewrite getitem_0_nil.
    destruct (getitem _ 0) as [mp | e] eqn:Hmp.
    + reflexivity.
    + rewrite (getitem_raises _ _ _ Hmp). reflexivity.
Qed.

Lemma setup_prompts_batch_size (p p1 : StableDiffusionProcessing) :
  setup_prompts p = Ok p1 ->
  p1.(Processing.batch_size) = p.(Processing.batch_size).
Proof.
  unfold setup_prompts.
  destruct (getitem _ 0) as [mn | e]; destruct (getitem _ 0) as [mp | e'];
    simpl; try discriminate.
  intros [= <-]. reflexivity.
Qed.

(** The slices hand each image its own prompt and seed: in iteration [n],
    position [j] of the batch holds entry [n * batch_size + j] of the
    run's lists.  For a seed [s] that is an int once fixed, that seed is
    [s + n * batch_size + j] when [subseed_strength == 0] and [s]
    otherwise. *)
Theorem slice_batch_positions
    (p p1 : StableDiffusionProcessing) (g g1 : rng_state) (s n : Z) (j : nat) :
  resolve_seeds p g = Ok (p1, g1) ->
  (get_fixed_seed p.(Processing.seed) g).1 = SeedInt s ->
  0 <= n ->
  Z.of_nat j < p.(Processing.batch_size) ->
  let i := Z.to_nat (n * p.(Processing.batch_size)) in
  let b := slice_batch n p1 in
  b.(Processing.prompts) !! j
  = default [] p1.(Processing.all_prompts) !! (i + j)%nat
  /\ b.(Processing.negative_prompts) !! j
     = default [] p1.(Processing.all_negative_prompts) !! (i + j)%nat
  /\ b.(Processing.subseeds) !! j
     = default [] p1.(Processing.all_subseeds) !! (i + j)%nat
  /\ ((i + j < length (default [] p1.(Processing.all_prompts)))%nat ->
      b.(Processing.seeds) !! j
      = Some (s + (if PrimFloat.eqb p.(Processing.subseed_strength) 0%float
                   then n * p.(Processing.batch_size) + Z.of_nat j else 0))).
Proof.
  intros Hres Hseed Hn Hj i b.
  unfold resolve_seeds in Hres.
  destruct (get_fixed_seed p.(Processing.seed) g) as [s' g'].
  cbn [fst] in Hseed. subst s'.
  destruct (get_fixed_seed p.(Processing.subseed) g') as [ss g''].
  apply bind_Ok_inv in Hres as (p0 & Hsetup & Hres).
  apply bind_Ok_inv in Hres as (all_seeds & Hseeds & Hres).
  apply bind_Ok_inv in Hres as (all_subseeds & Hsub & Hres).
  injection Hres as <- <-.
  pose proof (setup_prompts_batch_size _ _ Hsetup) as Hbs.
  destruct (setup_prompts_frame _ _ Hsetup) as [Hstr _].
  assert (Hlo : 0 <= n * p.(Processing.batch_size)) by nia.
  assert (Hhi : Z.of_nat j
                < (n + 1) * p.(Processing.batch_size) - n * p.(Processing.batch_size))
    by lia.
  subst b i. unfold slice_batch. cbv zeta.
  rewrite expand_seeds_int in Hseeds. injection Hseeds as <-.
  destruct p0. simpl in Hbs, Hstr |- *. unfold constant.
  rewrite Hbs. rewrite !lookup_slice by assumption.
  split; [reflexivity |]. split; [reflexivity |]. split; [reflexivity |].
  intros Hin. rewrite Hstr.
  rewrite list_lookup_fmap, lookup_range by (unfold len; lia).
  cbn [fmap option_fmap option_map]. do 2 f_equal.
  destruct (PrimFloat.eqb _ _); lia.
Qed.

Lemma iterations_aligned (ns : list Z) (r r' : Run) :
  iterations ns r = Ok r' ->
  length r.(infotexts) = length r.(output_images) ->
  length r'.(infotexts) = length r'.(output_images).
Proof.
  revert r. induction ns as [ | n ns IH]; intros r; cbn [iterations].
  - intros [= <-]. trivial.
  - destruct (interrupted (clear_skipped _)); [intros [= <-]; trivial |].
    destruct (len _ =? 0); [intros [= <-]; trivial |].
    intros H Hr. apply bind_Ok_inv in H as ([[[imgs cs] p1] st1] & _ & H).
    apply (IH _ H). cbn [append_batch infotexts output_images].
    rewrite !length_app, length_fmap, length_range. unfold len. lia.
Qed.

(** A run that returns has something to show: before the scripts'
    [postprocess] hook sees it, the result holds at least one image,
    exactly one infotext for each image, and [info] is the first
    infotext. *)
Theorem process_images_inner_result_aligned
    (p p' : StableDiffusionProcessing) (st st' : State) (g g' : rng_state)
    (out : Processed.t Image) :
  process_images_inner p st g = Ok (out, p', st', g') ->
  exists res,
    out = scripts_postprocess p' res
    /\ res.(Processed.images) <> []
    /\ length res.(Processed.infotexts) = length res.(Processed.images)
    /\ head res.(Processed.infotexts) = Some res.(Processed.info).
Proof.
  unfold process_images_inner. intros H.
  apply bind_Ok_inv in H as (_ & _ & H).
  apply bind_Ok_inv in H as ([p1 g1] & _ & H). cbv beta iota zeta in H.
  apply bind_Ok_inv in H as ([p2 st2] & _ & H). cbv beta iota zeta in H.
  apply bind_Ok_inv in H as (r & Hloop & H).
  apply bind_Ok_inv in H as (res & Hres & H).
  injection H as <- <- <- <-.
  apply iterations_aligned in Hloop; [| reflexivity].
  unfold assemble in Hres.
  apply bind_Ok_inv in Hres as (seed0 & _ & Hres).
  apply bind_Ok_inv in Hres as (info0 & Hinfo & Hres).
  apply bind_Ok_inv in Hres as (subseed0 & _ & Hres).
  unfold Processed.init in Hres.
  apply bind_Ok_inv in Hres as (pr & _ & Hres).
  apply bind_Ok_inv in Hres as (npr & _ & Hres).
  apply bind_Ok_inv in Hres as (sd & _ & Hres).
  apply bind_Ok_inv in Hres as (ssd & _ & Hres).
  injection Hres as <-.
  eexists. split; [reflexivity |].
  cbn [Processed.images Processed.infotexts Processed.info].
  apply getitem_0_Ok in Hinfo.
  destruct r.(infotexts) as [ | i0 infos] eqn:Einfos; [discriminate |].
  cbn [or_list]. split; [| split; [exact Hloop | exact Hinfo]].
  destruct r.(output_images); [discriminate | discriminate].
Qed.

End RunFacts.

Lemma process_images_inner_nothing_to_generate_witness :
  process_images_inner (RS := lcg) (C := plain_pipeline None)
    (scenario_request <| Processing.prompt := PromptList [] |>)
    fresh_state (7%Z : @rng_state lcg)
  = Raise AssertionError
  /\ process_images_inner (RS := lcg) (C := plain_pipeline None)
       (scenario_request <| Processing.n_iter := 0%Z |>)
       fresh_state (7%Z : @rng_state lcg)
     = Raise IndexError
  /\ process_images_inner (RS := lcg) (C := plain_pipeline None)
       (scenario_request <| Processing.negative_prompt := PromptList [] |>)
       fresh_state (7%Z : @rng_state lcg)
     = Raise IndexError.
Proof.
  split; [| split].
  - apply (proj1 (process_images_inner_nothing_to_generate (RS := lcg)
                    (C := plain_pipeline None) _ _ _)).
    reflexivity.
  - apply (proj1 (proj2 (process_images_inner_nothing_to_generate (RS := lcg)
                           (C := plain_pipeline None) _ _ _)) "a cat"%string).
    + reflexivity.
    + vm_compute. discriminate.
  - apply (proj2 (proj2 (process_images_inner_nothing_to_generate (RS := lcg)
                           (C := plain_pipeline None) _ _ _))).
    + discriminate.
    + reflexivity.
Defined.

Lemma slice_batch_positions_witness :
  exists p1 g1,
    resolve_seeds (RS := lcg) (C := plain_pipeline None)
      (scenario_request <| Processing.n_iter := 3%Z |>) (7%Z : @rng_state lcg)
    = Ok (p1, g1)
    /\ (slice_batch 2 p1).(Processing.seeds) !! 1%nat = Some 47%Z.
Proof.
  destruct (resolve_seeds (RS := lcg) (C := plain_pipeline None)
              (scenario_request <| Processing.n_iter := 3%Z |>)
              (7%Z : @rng_state lcg)) as [[p1 g1] | e] eqn:E;
    [| vm_compute in E; discriminate].
  exists p1, g1. split; [reflexivity |].
  destruct (slice_batch_positions (RS := lcg) (C := plain_pipeline None)
              _ _ _ _ 42%Z 2%Z 1%nat E) as (_ & _ & _ & H).
  - reflexivity.
  - lia.
  - reflexivity.
  - vm_compute in E. injection E as <- <-. apply H. vm_compute. lia.
Defined.

Lemma process_images_inner_result_aligned_witness :
  exists res p' st' g',
    process_images_inner (RS := lcg) (C := plain_pipeline None)
      scenario_request fresh_state (7%Z : @rng_state lcg)
    = Ok (res, p', st', g')
    /\ length res.(Processed.infotexts) = length res.(Processed.images).
Proof.
  destruct (process_images_inner (RS := lcg) (C := plain_pipeline None)
              scenario_request fresh_state (7%Z : @rng_state lcg))
    as [[[[out p'] st'] g'] | e] eqn:E; [| vm_compute in E; discriminate].
  exists out, p', st', g'. split; [reflexivity |].
  destruct (process_images_inner_result_aligned (RS := lcg)
              (C := plain_pipeline None) _ _ _ _ _ _ _ E)
    as (res & Hout & _ & Hlen & _).
  change (scripts_postprocess (Collaborators := plain_pipeline None) p' res)
    with res in Hout.
  rewrite Hout. exact Hlen.
Defined.

(** ** What [Processed] refuses, and what it guarantees *)

Section ProcessedEdgeFacts.
Context {Image : Type}.

Lemma scalar_prompt_raises (x : prompt_t) (e : exn) :
  Processed.scalar_prompt x = Raise e -> e = IndexError /\ x = PromptList [].
Proof.
  destruct x as [s | [ | y l]]; simpl; try discriminate.
  rewrite getitem_0_nil. intros [= <-]. split; reflexivity.
Qed.

Lemma scalar_seed_raises (x : seed_t) (e : exn) :
  Processed.scalar_seed x = Raise e ->
  (e = IndexError /\ x = SeedList []) \/ (e = ValueError /\ x = SeedEmpty).
Proof.
  destruct x as [ | | z | [ | y l]]; simpl; try discriminate.
  - intros [= <-]. right. split; reflexivity.
  - rewrite getitem_0_nil. intros [= <-]. left. split; reflexivity.
Qed.

(** The constructor of [Processed] fails in two ways only: [IndexError],
    when the request's prompt or negative prompt, or the seed or subseed
    it is given, is an empty list; and [ValueError], when the seed or
    subseed is the empty string. *)
Theorem Processed_init_raises
    (p : StableDiffusionProcessing) (images_list : list Image)
    (seed : seed_t) (info : string) (subseed : seed_t)
    (all_prompts all_negative_prompts : option (list string))
    (all_seeds all_subseeds : option (list Z))
    (index_of_first_image : Z) (infotexts : option (list string))
    (comments : string) (e : exn) :
  Processed.init p images_list seed info subseed all_prompts
    all_negative_prompts all_seeds all_subseeds index_of_first_image
    infotexts comments = Raise e ->
  (e = IndexError
   /\ (p.(Processing.prompt) = PromptList []
       \/ p.(Processing.negative_prompt) = PromptList []
       \/ seed = SeedList [] \/ subseed = SeedList []))
  \/ (e = ValueError /\ (seed = SeedEmpty \/ subseed = SeedEmpty)).
Proof.
  unfold Processed.init.
  destruct (Processed.scalar_prompt p.(Processing.prompt)) as [pr | e1] eqn:E1.
  2:{ intros [= <-]. destruct (scalar_prompt_raises _ _ E1) as [-> ->]. tauto. }
  destruct (Processed.scalar_prompt p.(Processing.negative_prompt)) as [npr | e2] eqn:E2.
  2:{ intros [= <-]. destruct (scalar_prompt_raises _ _ E2) as [-> ->]. tauto. }
  destruct (Processed.scalar_seed seed) as [s | e3] eqn:E3.
  2:{ intros [= <-]. destruct (scalar_seed_raises _ _ E3) as [[-> ->] | [-> ->]]; tauto. }
  destruct (Processed.scalar_seed subseed) as [ss | e4] eqn:E4.
  2:{ intros [= <-]. destruct (scalar_seed_raises _ _ E4) as [[-> ->] | [-> ->]]; tauto. }
  discriminate.
Qed.

Lemma or_list_nonempty {A} (a : option (list A)) (b : list A) :
  b <> [] -> or_list a b <> [].
Proof. destruct a as [[ | x l] | ]; simpl; congruence. Qed.

(** Whatever it is given, a [Processed] holds no empty list of prompts,
    negative prompts, seeds, subseeds or infotexts: each falls back to
    the request's list, and from there to the singleton of the scalar.
    So [all_prompts[0]] and [all_negative_prompts[0]], which [js] reads,
    exist. *)
Theorem Processed_lists_nonempty
    (p : StableDiffusionProcessing) (images_list : list Image)
    (seed : seed_t) (info : string) (subseed : seed_t)
    (all_prompts all_negative_prompts : option (list string))
    (all_seeds all_subseeds : option (list Z))
    (index_of_first_image : Z) (infotexts : option (list string))
    (comments : string) (r : Processed.t Image) :
  Processed.init p images_list seed info subseed all_prompts
    all_negative_prompts all_seeds all_subseeds index_of_first_image
    infotexts comments = Ok r ->
  is_ok (getitem r.(Processed.all_prompts) 0) = true
  /\ is_ok (getitem r.(Processed.all_negative_prompts) 0) = true
  /\ r.(Processed.all_seeds) <> []
  /\ r.(Processed.all_subseeds) <> []
  /\ r.(Processed.infotexts) <> [].
Proof.
  unfold Processed.init. intros H.
  apply bind_Ok_inv in H as (pr & _ & H).
  apply bind_Ok_inv in H as (npr & _ & H).
  apply bind_Ok_inv in H as (s & _ & H).
  apply bind_Ok_inv in H as (ss & _ & H).
  injection H as <-.
  cbn [Processed.all_prompts Processed.all_negative_prompts Processed.all_seeds
       Processed.all_subseeds Processed.infotexts].
  assert (Hget : forall (A : Type) (l : list A), l <> [] -> is_ok (getitem l 0) = true).
  { intros A [ | x l] Hl; [congruence |]. unfold getitem. simpl. reflexivity. }
  repeat split;
    try apply Hget; repeat apply or_list_nonempty; discriminate.
Qed.

End ProcessedEdgeFacts.

Lemma Processed_init_raises_witness :
  Processed.init (Image := Z) scenario_request [] SeedEmpty "" SeedNone
    None None None None 0 None ""
  = Raise ValueError.
Proof.
  destruct (Processed.init (Image := Z) scenario_request [] SeedEmpty "" SeedNone
              None None None None 0 None "") as [r | e] eqn:E;
    [vm_compute in E; discriminate |].
  destruct (Processed_init_raises _ _ _ _ _ _ _ _ _ _ _ _ _ E)
    as [[-> _] | [-> _]]; [vm_compute in E; discriminate | reflexivity].
Defined.

Lemma Processed_lists_nonempty_witness :
  exists r,
    Processed.init (Image := Z) scenario_request [] (SeedInt 42) "" SeedNone
      (Some []) None None None 0 None ""
    = Ok r
    /\ r.(Processed.all_prompts) <> [].
Proof.
  destruct (Processed.init (Image := Z) scenario_request [] (SeedInt 42) "" SeedNone
              (Some []) None None None 0 None "") as [r | e] eqn:E;
    [| vm_compute in E; discriminate].
  exists r. split; [reflexivity |].
  destruct (Processed_lists_nonempty _ _ _ _ _ _ _ _ _ _ _ _ _ E) as (H & _).
  intros Hnil. rewrite Hnil in H. discriminate.
Defined.

(** ** Decoding: one fallback at most *)

Section DecodeInvariants.
Context {V : Decode.VAE}.
Import Decode.

Lemma explanations_app (a b : list event) :
  explanations (a ++ b) = (explanations a + explanations b)%nat.
Proof. unfold explanations. rewrite List.filter_app, length_app. reflexivity. Qed.

Lemma decodes_app (a b : list event) :
  decodes (a ++ b) = (decodes a + decodes b)%nat.
Proof. unfold decodes. rewrite List.filter_app, length_app. reflexivity. Qed.

Lemma decode_from_invariant opts (check : bool) (batch : list Latent) :
  forall (i : nat) (samples : list Sample) (dev : devices),
  exists new,
    (decode_from opts check i batch samples dev).2.(trace) = dev.(trace) ++ new
    /\ ((decode_from opts check i batch samples dev).2.(dtype_vae) = dev.(dtype_vae)
         /\ explanations new = 0%nat
        \/ dev.(dtype_vae) <> float32
           /\ (decode_from opts check i batch samples dev).2.(dtype_vae) = float32
           /\ explanations new = 1%nat
           /\ check = true /\ opts.(auto_vae_precision) = true)
    /\ (decodes new <= length batch + explanations new)%nat
    /\ match (decode_from opts check i batch samples dev).1 with
       | Ok out =>
           length out = (length samples + length batch)%nat
           /\ decodes new = (length batch + explanations new)%nat
       | Raise e => e = NansException /\ check = true
       end.
Proof.
  induction batch as [ | x batch IH]; intros i samples dev.
  - exists []. cbn [decode_from fst snd length]. rewrite app_nil_r.
    split; [reflexivity |]. split; [left; split; reflexivity |].
    split; [cbn; lia |]. split; [lia | reflexivity].
  - cbn [decode_from decode_first_stage].
    set (d := dev.(dtype_vae)).
    set (dev1 := dev <| trace := dev.(trace) ++ [Decoded i d] |>).
    destruct (check && has_nans (decode d x)) eqn:Hnan.
    + apply andb_prop in Hnan as [-> Hnan].
      change (dtype_vae dev1) with d.
      destruct (bool_decide (d = float32) || negb opts.(auto_vae_precision)) eqn:Hstop.
      * exists [Decoded i d]. cbn [fst snd]. split; [reflexivity |].
        split; [left; split; reflexivity |].
        split; [cbn; lia |]. split; reflexivity.
      * apply orb_false_elim in Hstop as [Hd Hauto].
        apply bool_decide_eq_false in Hd. apply negb_false_iff in Hauto.
        set (dev2 := dev1 <| trace := dev1.(trace) ++ [PrintErrorExplanation] |>
                          <| dtype_vae := float32 |>).
        set (dev3 := dev2 <| trace := dev2.(trace) ++ [Decoded i dev2.(dtype_vae)] |>).
        destruct (IH (S i) (samples ++ [decode dev2.(dtype_vae) x]) dev3)
          as (new & Htr & Hdt & Hbound & Hres).
        exists ([Decoded i d; PrintErrorExplanation; Decoded i float32] ++ new).
        split.
        { rewrite Htr. destruct dev. cbn. rewrite <- !app_assoc. reflexivity. }
        destruct Hdt as [[Hdt Hex] | [Hne _]]; [| destruct Hne; reflexivity].
        rewrite explanations_app, decodes_app, Hex.
        change (explanations [Decoded i d; PrintErrorExplanation; Decoded i float32])
          with 1%nat.
        change (decodes [Decoded i d; PrintErrorExplanation; Decoded i float32])
          with 2%nat.
        split.
        { right. split; [exact Hd |]. split; [rewrite Hdt; reflexivity |].
          repeat split; exact Hauto. }
        rewrite Hex in Hbound, Hres. split; [cbn [length]; lia |].
        destruct (decode_from _ _ _ _ _ _).1 as [out | e].
        -- destruct Hres as [Hlen Hdec]. rewrite length_app in Hlen.
           cbn [length] in *. lia.
        -- exact Hres.
    + destruct (IH (S i) (samples ++ [decode d x]) dev1)
        as (new & Htr & Hdt & Hbound & Hres).
      exists ([Decoded i d] ++ new).
      split.
      { rewrite Htr. destruct dev. cbn. rewrite <- !app_assoc. reflexivity. }
      rewrite explanations_app, decodes_app.
      change (explanations [Decoded i d]) with 0%nat.
      change (decodes [Decoded i d]) with 1%nat.
      split.
      { destruct Hdt as [[Hdt Hex] | (Hne & Hdt & Hex & Hc & Hauto)].
        - left. split; [rewrite Hdt; reflexivity | lia].
        - right. rewrite Hex. repeat split; assumption. }
      split; [cbn [length]; lia |].
      destruct (decode_from _ _ _ _ _ _).1 as [out | e].
      * destruct Hres as [Hlen Hdec]. rewrite length_app in Hlen.
        cbn [length] in *. lia.
      * exact Hres.
Qed.

(** One call of [decode_latent_batch] falls back to 32-bit floats at most
    once: the explanation is printed at most once, and then the precision
    was not [float32] before and is afterwards; otherwise the precision
    is unchanged.  The VAE is called once per sample decoded, plus once
    for the retry.  A call that returns gives one sample per latent, and
    the only exception it raises is [NansException], with the check on. *)
Theorem decode_latent_batch_falls_back_once opts (batch : list Latent)
    (check_for_nans : bool) (dev : devices) :
  let r := (decode_latent_batch opts batch check_for_nans dev).1 in
  let dev' := (decode_latent_batch opts batch check_for_nans dev).2 in
  exists new,
    dev'.(trace) = dev.(trace) ++ new
    /\ (explanations new <= 1)%nat
    /\ (decodes new <= length batch + explanations new)%nat
    /\ (explanations new = 0%nat -> dev'.(dtype_vae) = dev.(dtype_vae))
    /\ (explanations new = 1%nat ->
        dev.(dtype_vae) <> float32 /\ dev'.(dtype_vae) = float32
        /\ opts.(auto_vae_precision) = true)
    /\ match r with
       | Ok out =>
           length out = length batch
           /\ decodes new = (length batch + explanations new)%nat
       | Raise e => e = NansException /\ check_for_nans = true
       end.
Proof.
  cbv zeta. unfold decode_latent_batch.
  destruct (decode_from_invariant opts check_for_nans batch 0 [] dev)
    as (new & Htr & Hdt & Hbound & Hres).
  exists new. split; [exact Htr |].
  split; [destruct Hdt as [[_ ->] | (_ & _ & -> & _)]; lia |].
  split; [exact Hbound |].
  split; [| split; [| exact Hres]].
  - intros H0. destruct Hdt as [[Hd _] | (_ & _ & H1 & _)]; [exact Hd | lia].
  - intros H1. destruct Hdt as [[_ H0] | (Hne & Hd & _ & _ & Hauto)]; [lia |].
    split; [exact Hne | split; [exact Hd | exact Hauto]].
Qed.

End DecodeInvariants.

(** ** The parameter line is one line *)

Section InfotextLineFacts.
Context {R : Infotext.Repr}.
Import Infotext.

Lemma contains_app (c : ascii) (a b : string) :
  contains c (a ++ b) = contains c a || contains c b.
Proof.
  induction a as [ | x a IH]; [reflexivity |].
  simpl. rewrite IH, orb_assoc. reflexivity.
Qed.

Lemma contains_concat (c : ascii) (sep : string) (l : list string) :
  contains c sep = false ->
  Forall (fun s => contains c s = false) l ->
  contains c (String.concat sep l) = false.
Proof.
  intros Hsep Hl. induction Hl as [ | s l Hs Hl IH]; [reflexivity |].
  destruct l as [ | s' l]; [exact Hs |].
  change (String.concat sep (s :: s' :: l))
    with (String.append s (String.append sep (String.concat sep (s' :: l)))).
  rewrite !contains_app, Hs, Hsep. exact IH.
Qed.

Lemma json_string_no_newline (s : string) :
  contains newline (json_string s) = false.
Proof.
  unfold json_string. cbn [contains]. rewrite contains_app.
  rewrite json_escape_no_newline. reflexivity.
Qed.

Lemma quote_no_newline (v : pyval) :
  (forall f, contains newline (float_repr f) = false) ->
  contains newline (str (quote v)) = false.
Proof.
  intros Hfloat. rewrite str_quote.
  destruct (has_special (str v)) eqn:Hsp.
  - destruct v as [ | [ | ] | z | f | s | l]; try reflexivity.
    + cbn [str] in Hsp. rewrite str_of_Z_plain in Hsp. discriminate.
    + apply Hfloat.
    + apply json_string_no_newline.
    + cbn [json_dumps]. rewrite !contains_app.
      change (contains newline "[") with false.
      change (contains newline "]") with false.
      rewrite orb_false_r, orb_false_l. apply contains_concat; [reflexivity |].
      apply Forall_fmap, Forall_forall. intros s _. apply json_string_no_newline.
  - unfold has_special in Hsp.
    apply orb_false_elim in Hsp as [Hsp _].
    apply orb_false_elim in Hsp as [_ Hnl]. exact Hnl.
Qed.

(** The text of the generation parameters never spans lines: when no key
    holds a newline (and [repr] of a float has none), the line has no
    newline, whatever the values are, since a value with a newline is
    written in its JSON form. *)
Theorem generation_params_text_single_line (generation_params : dict) :
  (forall f, contains newline (float_repr f) = false) ->
  Forall (fun kv => contains newline kv.1 = false) generation_params ->
  contains newline (generation_params_text generation_params) = false.
Proof.
  intros Hfloat Hkeys. unfold generation_params_text.
  apply contains_concat; [reflexivity |].
  induction Hkeys as [ | [k v] d Hk Hd IH]; [constructor |].
  cbn [generation_params_items].
  assert (Hitem : contains newline
                    (if key_eq k v then k else k ++ ": " ++ str (quote v))%string
                  = false).
  { cbn [fst] in Hk. destruct (key_eq k v); [exact Hk |].
    rewrite !contains_app, Hk, quote_no_newline by exact Hfloat. reflexivity. }
  destruct v; try (constructor; [exact Hitem | exact IH]). exact IH.
Qed.

End InfotextLineFacts.

Lemma generation_params_text_single_line_witness :
  Infotext.contains Infotext.newline
    (Infotext.generation_params_text (R := example_repr)
       [("Steps", PyInt 20);
        ("Hires prompt", PyStr (String "a" (String Infotext.newline "b")));
        ("Tiling", PyStr "True")]%string)
  = false.
Proof.
  apply (generation_params_text_single_line (R := example_repr)).
  - intros f. unfold Infotext.float_repr, example_repr.
    destruct (PrimFloat.is_nan f); [reflexivity |].
    destruct (PrimFloat.is_infinity f); reflexivity.
  - repeat constructor.
Defined.

(** ** The second pass: what [init] and [sample] do once, and refuse *)

Section HiresEdgeFacts.
Import Txt2Img.
Local Open Scope Z_scope.

(** The old first-pass sizing is applied once per size: when
    [apply_old_hires_behavior] has run, running it again on the result
    changes nothing (the size it produced is remembered in
    [applied_old_hires_behavior_to]); and when it does apply, the size
    asked for becomes the target of the second pass. *)
Theorem apply_old_hires_behavior_once (opts : Options) (self self1 : t) :
  apply_old_hires_behavior opts self = Ok self1 ->
  apply_old_hires_behavior opts self1 = Ok self1
  /\ (opts.(use_old_hires_fix_width_height) = true ->
      self.(applied_old_hires_behavior_to) <> Some (width self, height self) ->
      self1.(hr_resize_x) = width self /\ self1.(hr_resize_y) = height self
      /\ target self1 = (width self, height self)
      /\ old_hires_fix_first_pass_dimensions (width self) (height self)
         = Ok (width self1, height self1)).
Proof.
  unfold apply_old_hires_behavior.
  destruct (use_old_hires_fix_width_height opts) eqn:Hopt; cbn [andb].
  2:{ intros [= <-]. split; [reflexivity | discriminate]. }
  destruct (bool_decide _) eqn:Hdone; cbn [negb].
  { intros [= <-]. rewrite Hdone. split; [reflexivity |].
    apply bool_decide_eq_true in Hdone. intros _ Hne. destruct (Hne Hdone). }
  destruct self as [b hr sc up st rx ry ux uy sn hp hn tx ty done pass].
  destruct b. unfold width, height, set_size, target. simpl. unfold constant.
  destruct (old_hires_fix_first_pass_dimensions _ _) as [[w h] | e]; [| discriminate].
  rewrite bind_Ok. simpl. intros [= <-]. simpl.
  rewrite bool_decide_eq_true_2 by reflexivity. simpl.
  split; [reflexivity |]. intros _ _. repeat split.
Qed.

Lemma announce_hires_enable_hr (self : t) (state : State) :
  (announce_hires self state).1.(enable_hr) = self.(enable_hr)
  /\ (announce_hires self state).1.(hr_second_pass_steps) = self.(hr_second_pass_steps)
  /\ (announce_hires self state).1.(base).(Processing.n_iter)
     = self.(base).(Processing.n_iter)
  /\ (announce_hires self state).1.(base).(Processing.steps)
     = self.(base).(Processing.steps).
Proof.
  unfold announce_hires. cbn [fst].
  destruct self as [b hr sc up st rx ry ux uy sn hp hn tx ty done pass].
  destruct b. simpl. destruct (st =? 0); destruct up; repeat split.
Qed.

Lemma init_state_refined (opts : Options) (self self1 : t) (st st1 : State) :
  st.(processing_has_refined_job_count) = true ->
  init opts self st = Ok (self1, st1) -> st1 = st.
Proof.
  intros Hflag. unfold init.
  destruct (enable_hr self); cbn [negb]; [| intros [= _ <-]; reflexivity].
  destruct (resolve_hires opts self) as [self' | e]; [| discriminate].
  rewrite bind_Ok. destruct (_ && _); [intros [= _ <-]; reflexivity |].
  unfold announce_hires. rewrite Hflag. cbn [negb]. intros [= _ <-]. reflexivity.
Qed.

(** A run whose second pass stays enabled reports its jobs once: [init]
    sets [state.processing_has_refined_job_count]; if the flag was clear
    it doubles [state.job_count] (taken as [n_iter] when it was [-1]) and
    sets the progress total to [(steps + hires steps) * job_count]; if it
    was set it leaves the state alone, as does every later [init]. *)
Theorem init_refines_job_count_once
    (opts : Options) (self self1 : t) (st st1 : State) :
  init opts self st = Ok (self1, st1) ->
  self1.(enable_hr) = true ->
  let jobs := if st.(job_count) =? -1
              then self1.(base).(Processing.n_iter) else st.(job_count) in
  let hr_steps := if self1.(hr_second_pass_steps) =? 0
                  then self1.(base).(Processing.steps)
                  else self1.(hr_second_pass_steps) in
  st1.(processing_has_refined_job_count) = true
  /\ (st.(processing_has_refined_job_count) = false ->
      st1.(job_count) = jobs * 2
      /\ st1.(tqdm_total) = (self1.(base).(Processing.steps) + hr_steps) * jobs)
  /\ (st.(processing_has_refined_job_count) = true -> st1 = st)
  /\ forall self' self2 st2, init opts self' st1 = Ok (self2, st2) -> st2 = st1.
Proof.
  intros Hinit Hhr jobs hr_steps.
  assert (Hflag1 : st1.(processing_has_refined_job_count) = true
                   /\ (st.(processing_has_refined_job_count) = false ->
                       st1.(job_count) = jobs * 2
                       /\ st1.(tqdm_total)
                          = (self1.(base).(Processing.steps) + hr_steps) * jobs)).
  { revert Hinit. unfold init.
    destruct (enable_hr self) eqn:Hen; cbn [negb].
    2:{ intros [= <- <-]. congruence. }
    destruct (resolve_hires opts self) as [self' | e]; [| discriminate].
    rewrite bind_Ok.
    destruct (_ && _).
    { intros [= <- <-]. unfold disable_hr, pop_param in Hhr.
      destruct self'. discriminate. }
    destruct (announce_hires self' st) as [self2 st2] eqn:Hann.
    intros [= <- <-].
    pose proof (announce_hires_enable_hr self' st) as (_ & Hh & Hn & Hs).
    rewrite Hann in Hh, Hn, Hs. cbn [fst] in Hh, Hn, Hs.
    subst jobs hr_steps. rewrite Hh, Hn, Hs.
    unfold announce_hires in Hann. injection Hann as _ <-.
    destruct st as [i sk jc jn flag tq]. cbn [processing_has_refined_job_count].
    destruct flag; cbn [negb].
    - split; [reflexivity | discriminate].
    - cbn. destruct (jc =? -1); cbn; split; try reflexivity; intros _; split;
        reflexivity. }
  destruct Hflag1 as [Hflag1 Hfresh].
  split; [exact Hflag1 |]. split; [exact Hfresh |].
  split.
  - intros Hflag. exact (init_state_refined _ _ _ _ _ Hflag Hinit).
  - intros self' self2 st2. apply init_state_refined. exact Hflag1.
Qed.

(** [sample] fails in two ways only, both with the second pass enabled:
    with "could not find upscaler named ..." when the upscaler is neither
    a latent upscale mode nor one of [shared.sd_upscalers], and with
    [TypeError] when the latent upscale mode found is a bare string (the
    ["nearest"] the lookup of the default mode falls back to), which
    cannot be indexed by ["mode"]. *)
Theorem sample_raises (shared : Shared) (self : t) (x : shape) (e : exn) :
  sample shared self x = Raise e <->
  self.(enable_hr) = true
  /\ ((latent_scale_mode shared self = None
       /\ Forall (fun name => self.(hr_upscaler) <> Some name) shared.(sd_upscalers)
       /\ e = Exception ("could not find upscaler named "
                         ++ default "None" self.(hr_upscaler))%string)
      \/ (exists s, latent_scale_mode shared self = Some (ModeStr s))
         /\ e = TypeError).
Proof.
  unfold sample.
  assert (Hex : existsb (fun name => bool_decide (Some name = self.(hr_upscaler)))
                  shared.(sd_upscalers) = false
                <-> Forall (fun name => self.(hr_upscaler) <> Some name)
                      shared.(sd_upscalers)).
  { induction shared.(sd_upscalers) as [ | n l IH]; cbn [existsb].
    - split; [constructor | reflexivity].
    - rewrite orb_false_iff, IH, Forall_cons, bool_decide_eq_false.
      split; intros [H1 H2]; (split; [congruence | exact H2]). }
  destruct (enable_hr self) eqn:Hen; cbn [andb negb].
  2:{ rewrite bind_Ok. split; [discriminate | intros [H _]; discriminate]. }
  unfold upscale. rewrite latent_scale_mode_hr_pass.
  destruct (latent_scale_mode shared self) as [[mode aa | s] | ] eqn:Hmode.
  - rewrite bool_decide_eq_true_2 by eauto. cbn [negb]. rewrite bind_Ok.
    destruct x as [[[b c] h] w]. rewrite bind_Ok.
    split; [discriminate |].
    intros [_ [(H & _) | ((s & H) & _)]]; discriminate.
  - rewrite bool_decide_eq_true_2 by eauto. cbn [negb]. rewrite bind_Ok.
    destruct x as [[[b c] h] w]. cbn [mbind result_bind].
    split.
    + intros [= <-]. split; [reflexivity |]. right. split; [eauto | reflexivity].
    + intros [_ [(H & _) | (_ & ->)]]; [discriminate | reflexivity].
  - rewrite bool_decide_eq_false_2 by (intros [? ?]; discriminate). cbn [negb].
    destruct (existsb _ _) eqn:Hfound; cbn [negb].
    + rewrite bind_Ok. destruct x as [[[b c] h] w]. rewrite bind_Ok.
      split; [discriminate |].
      intros [_ [(_ & Hall & _) | ((s & H) & _)]]; [| discriminate].
      apply Hex in Hall. congruence.
    + cbn [mbind result_bind]. split.
      * intros [= <-]. split; [reflexivity |]. left.
        split; [reflexivity |]. split; [apply Hex; reflexivity | reflexivity].
      * intros [_ [(_ & _ & ->) | ((s & H) & _)]]; [reflexivity | discriminate].
Qed.

End HiresEdgeFacts.

Lemma apply_old_hires_behavior_once_witness :
  exists self1,
    Txt2Img.apply_old_hires_behavior old_hires_options
      (hires_request 2 0 0 None None) = Ok self1
    /\ Txt2Img.apply_old_hires_behavior old_hires_options self1 = Ok self1.
Proof.
  destruct (Txt2Img.apply_old_hires_behavior old_hires_options
              (hires_request 2 0 0 None None)) as [self1 | e] eqn:E;
    [| vm_compute in E; discriminate].
  exists self1. split; [reflexivity |].
  exact (proj1 (apply_old_hires_behavior_once _ _ _ E)).
Defined.

Lemma init_refines_job_count_once_witness :
  exists self1 st1,
    Txt2Img.init default_options (hires_request 2 0 0 None None) fresh_state
    = Ok (self1, st1)
    /\ st1.(job_count) = 2%Z.
Proof.
  destruct (Txt2Img.init default_options (hires_request 2 0 0 None None) fresh_state)
    as [[self1 st1] | e] eqn:E; [| vm_compute in E; discriminate].
  exists self1, st1. split; [reflexivity |].
  assert (Hhr : self1.(Txt2Img.enable_hr) = true).
  { vm_compute in E. injection E as <- _. reflexivity. }
  destruct (init_refines_job_count_once _ _ _ _ _ E Hhr) as (_ & Hfresh & _).
  destruct (Hfresh eq_refl) as [Hjobs _]. rewrite Hjobs.
  vm_compute in E. injection E as <- _. reflexivity.
Defined.

(** ** What [init] leaves in the generation parameters *)

Section HiresParamsFacts.
Import Txt2Img.
Local Open Scope Z_scope.

Lemma get_set_ne (k k' : string) (v : pyval) (d : dict) :
  k' <> k -> Dict.get k' (Dict.set k v d) = Dict.get k' d.
Proof.
  intros Hne. unfold Dict.get.
  induction d as [ | [k0 v0] d IH]; cbn [Dict.set lookup_key].
  - cbn. rewrite (proj2 (String.eqb_neq k' k) Hne). reflexivity.
  - destruct (String.eqb_spec k k0) as [-> | Hk]; cbn.
    + rewrite (proj2 (String.eqb_neq k' k0) Hne). reflexivity.
    + rewrite IH. reflexivity.
Qed.

Lemma get_set_param_ne (k k' : string) (v : pyval) (self : t) :
  k' <> k ->
  Dict.get k' (extra_generation_params (set_param k v self))
  = Dict.get k' (extra_generation_params self).
Proof.
  intros Hne. destruct self as [b ? ? ? ? ? ? ? ? ? ? ? ? ? ? ?]. destruct b.
  unfold set_param, extra_generation_params. cbn. apply get_set_ne, Hne.
Qed.

Lemma get_pop_param_ne (k k' : string) (self : t) :
  k' <> k ->
  Dict.get k' (extra_generation_params (pop_param k self))
  = Dict.get k' (extra_generation_params self).
Proof.
  intros Hne. destruct self as [b ? ? ? ? ? ? ? ? ? ? ? ? ? ? ?]. destruct b.
  unfold pop_param, extra_generation_params. cbn. apply get_pop_ne, Hne.
Qed.

Lemma apply_old_hires_behavior_params (opts : Options) (self self1 : t) :
  apply_old_hires_behavior opts self = Ok self1 ->
  extra_generation_params self1 = extra_generation_params self.
Proof.
  unfold apply_old_hires_behavior.
  destruct (_ && _); [| intros [= <-]; reflexivity].
  destruct self as [b ? ? ? ? ? ? ? ? ? ? ? ? ? ? ?]. destruct b.
  unfold width, height, set_size, extra_generation_params. cbn. unfold constant.
  destruct (old_hires_fix_first_pass_dimensions _ _) as [[w h] | e]; [| discriminate].
  rewrite bind_Ok. intros [= <-]. reflexivity.
Qed.

Lemma resolve_target_params (self self1 : t) (k : string) :
  resolve_target self = Ok self1 ->
  k <> "Hires upscale"%string -> k <> "Hires resize"%string ->
  Dict.get k (extra_generation_params self1)
  = Dict.get k (extra_generation_params self).
Proof.
  intros H Hup Hre. revert H. unfold resolve_target.
  destruct self as [b ? ? ? ? ? ? ? ? ? ? ? ? ? ? ?]. destruct b.
  unfold width, height, set_param, extra_generation_params.
  cbn -[Dict.get Dict.set int_of_float floordiv truediv]. unfold constant.
  repeat match goal with
         | |- context [if ?c then _ else _] => destruct c
         | |- context [floordiv ?a ?b] =>
             destruct (floordiv a b); cbn [mbind result_bind]
         | |- context [truediv ?a ?b] =>
             destruct (truediv a b); cbn [mbind result_bind]
         | |- context [float_of_Z ?a] =>
             destruct (float_of_Z a); cbn [mbind result_bind]
         | |- context [int_of_float ?f] =>
             destruct (int_of_float f); cbn [mbind result_bind]
         | |- context [Ok _ ≫= _] =>
             rewrite bind_Ok;
             cbn -[Dict.get Dict.set int_of_float floordiv truediv]
         | |- context [Raise _ ≫= _] => rewrite bind_Raise
         | |- Raise _ = Ok _ -> _ => discriminate
         | |- Ok _ = Ok _ -> _ =>
             intros [= <-]; cbn -[Dict.get Dict.set]
         end;
    rewrite ?get_set_ne by assumption; reflexivity.
Qed.

Lemma cond_set_param_fields (c : bool) (k : string) (v : pyval) (self : t) :
  let self' := if c then set_param k v self else self in
  self'.(hr_prompt) = self.(hr_prompt)
  /\ self'.(hr_negative_prompt) = self.(hr_negative_prompt)
  /\ self'.(base).(Processing.prompt) = self.(base).(Processing.prompt)
  /\ self'.(base).(Processing.negative_prompt)
     = self.(base).(Processing.negative_prompt).
Proof. destruct c; repeat split. Qed.

Lemma cond_set_param_get (c : bool) (k0 k : string) (v : pyval) (self : t) :
  (c = true -> k <> k0) ->
  Dict.get k (extra_generation_params (if c then set_param k0 v self else self))
  = Dict.get k (extra_generation_params self).
Proof.
  destruct c; [| reflexivity]. intros Hne. apply get_set_param_ne, Hne, eq_refl.
Qed.

Lemma resolve_hires_params (opts : Options) (self self1 : t) (k : string) :
  resolve_hires opts self = Ok self1 ->
  k <> "Hires sampler"%string ->
  k <> "Hires upscale"%string -> k <> "Hires resize"%string ->
  (k = "Hires prompt"%string ->
   tuple_of_prompt self.(hr_prompt)
   = tuple_of_prompt self.(base).(Processing.prompt)) ->
  (k = "Hires negative prompt"%string ->
   tuple_of_prompt self.(hr_negative_prompt)
   = tuple_of_prompt self.(base).(Processing.negative_prompt)) ->
  Dict.get k (extra_generation_params self1)
  = Dict.get k (extra_generation_params self).
Proof.
  unfold resolve_hires. intros H Hs Hup Hre Hp Hn.
  apply bind_Ok_inv in H as (self_b & Hold & Htarget).
  rewrite (resolve_target_params _ _ _ Htarget Hup Hre).
  rewrite (apply_old_hires_behavior_params _ _ _ Hold).
  clear Hold Htarget self_b self1.
  set (s1 := match self.(hr_sampler_name) with
             | Some h =>
                 if negb (bool_decide (Some h = self.(base).(Processing.sampler_name)))
                 then set_param "Hires sampler" (PyStr h) self else self
             | None => self
             end).
  assert (H1 : Dict.get k (extra_generation_params s1)
               = Dict.get k (extra_generation_params self)
               /\ s1.(hr_prompt) = self.(hr_prompt)
               /\ s1.(hr_negative_prompt) = self.(hr_negative_prompt)
               /\ s1.(base).(Processing.prompt) = self.(base).(Processing.prompt)
               /\ s1.(base).(Processing.negative_prompt)
                  = self.(base).(Processing.negative_prompt)).
  { subst s1. destruct (hr_sampler_name self) as [h | ]; [| repeat split].
    split; [apply cond_set_param_get; intros _; exact Hs |].
    apply cond_set_param_fields. }
  destruct H1 as (Hget1 & Hp1 & Hn1 & Hbp1 & Hbn1).
  clearbody s1. cbv zeta.
  set (c2 := negb (bool_decide (tuple_of_prompt s1.(hr_prompt)
                                = tuple_of_prompt s1.(base).(Processing.prompt)))).
  set (s2 := if c2 then set_param "Hires prompt" (pyval_of_prompt s1.(hr_prompt)) s1
             else s1).
  destruct (cond_set_param_fields c2 "Hires prompt"
              (pyval_of_prompt s1.(hr_prompt)) s1) as (_ & Hn2 & _ & Hbn2).
  cbv zeta in Hn2, Hbn2. fold s2 in Hn2, Hbn2.
  rewrite cond_set_param_get.
  - subst s2. rewrite cond_set_param_get; [exact Hget1 |].
    subst c2. intros Hc ->. apply negb_true_iff, bool_decide_eq_false in Hc.
    apply Hc. rewrite Hp1, Hbp1. apply Hp. reflexivity.
  - intros Hc ->. apply negb_true_iff, bool_decide_eq_false in Hc.
    apply Hc. rewrite Hn2, Hbn2, Hn1, Hbn1. apply Hn. reflexivity.
Qed.

Lemma init_params (opts : Options) (self self1 : t) (st st1 : State) (k : string) :
  init opts self st = Ok (self1, st1) ->
  k <> "Hires sampler"%string ->
  k <> "Hires upscale"%string -> k <> "Hires resize"%string ->
  k <> "Hires steps"%string -> k <> "Hires upscaler"%string ->
  (k = "Hires prompt"%string ->
   tuple_of_prompt self.(hr_prompt)
   = tuple_of_prompt self.(base).(Processing.prompt)) ->
  (k = "Hires negative prompt"%string ->
   tuple_of_prompt self.(hr_negative_prompt)
   = tuple_of_prompt self.(base).(Processing.negative_prompt)) ->
  Dict.get k (extra_generation_params self1)
  = Dict.get k (extra_generation_params self).
Proof.
  unfold init. intros H Hs Hup Hre Hst Hu Hp Hn.
  destruct (enable_hr self); cbn [negb] in H; [| injection H as <- _; reflexivity].
  apply bind_Ok_inv in H as (self_c & Hres & H).
  rewrite <- (resolve_hires_params _ _ _ _ Hres Hs Hup Hre Hp Hn).
  destruct (_ && _).
  - injection H as <- _. unfold disable_hr.
    rewrite !get_pop_param_ne by assumption.
    destruct self_c as [b ? ? ? ? ? ? ? ? ? ? ? ? ? ? ?]. destruct b. reflexivity.
  - injection H as <- _. unfold announce_hires. cbn [fst].
    destruct (negb (hr_second_pass_steps self_c =? 0)).
    + destruct (hr_upscaler (set_param _ _ self_c)) eqn:Eu;
        rewrite ?get_set_param_ne by assumption; reflexivity.
    + destruct (hr_upscaler self_c) eqn:Eu;
        rewrite ?get_set_param_ne by assumption; reflexivity.
Qed.

(** [init] writes and removes nothing in [extra_generation_params]
    besides its seven "Hires ..." keys: every other entry reads after
    [init] as it did before. *)
Theorem init_params_frame
    (opts : Options) (self self1 : t) (st st1 : State) (k : string) :
  init opts self st = Ok (self1, st1) ->
  k ∉ hires_keys ->
  Dict.get k (extra_generation_params self1)
  = Dict.get k (extra_generation_params self).
Proof.
  intros H Hk. unfold hires_keys in Hk. rewrite !not_elem_of_cons in Hk.
  destruct Hk as (H1 & H2 & H3 & H4 & H5 & H6 & H7 & _).
  apply (init_params _ _ _ _ _ _ H); try assumption; intros ->; congruence.
Qed.

Section WithCollaborators.
Context {C : Collaborators}.

(** A request that leaves [hr_prompt] and [hr_negative_prompt] empty
    runs its second pass on the prompts of the first:
    [setup_prompts] copies the prompts, so the lists of the second pass
    are the first pass's lists, and the [init] that follows records
    neither "Hires prompt" nor "Hires negative prompt". *)
Theorem hr_prompts_default (opts : Options) (self self1 : t)
    (hr : option HrPrompts.lists) :
  self.(enable_hr) = true ->
  self.(hr_prompt) = PromptStr "" ->
  self.(hr_negative_prompt) = PromptStr "" ->
  HrPrompts.setup_prompts self = Ok (self1, hr) ->
  hr = Some {| HrPrompts.all_hr_prompts :=
                 default [] self1.(base).(Processing.all_prompts);
               HrPrompts.all_hr_negative_prompts :=
                 default [] self1.(base).(Processing.all_negative_prompts) |}
  /\ self1.(hr_prompt) = self.(base).(Processing.prompt)
  /\ self1.(hr_negative_prompt) = self.(base).(Processing.negative_prompt)
  /\ forall st self2 st2,
       init opts self1 st = Ok (self2, st2) ->
       Dict.get "Hires prompt" (extra_generation_params self2)
       = Dict.get "Hires prompt" (extra_generation_params self)
       /\ Dict.get "Hires negative prompt" (extra_generation_params self2)
          = Dict.get "Hires negative prompt" (extra_generation_params self).
Proof.
  intros Hen Hp Hn H. unfold HrPrompts.setup_prompts in H.
  apply bind_Ok_inv in H as (b1 & Hbase & H).
  destruct self as [b ? ? ? ? ? ? ? ? ? hp hn ? ? ? ?].
  cbn [enable_hr hr_prompt hr_negative_prompt base] in *. subst.
  unfold setup_prompts in Hbase.
  apply bind_Ok_inv in Hbase as (mp & _ & Hbase).
  apply bind_Ok_inv in Hbase as (mn & _ & Hbase).
  injection Hbase as <-.
  destruct b. cbn in H. unfold constant in H. injection H as <- <-.
  split; [reflexivity |]. split; [reflexivity |]. split; [reflexivity |].
  intros st self2 st2 Hinit.
  split; apply (init_params _ _ _ _ _ _ Hinit); try discriminate; reflexivity.
Qed.

End WithCollaborators.

End HiresParamsFacts.

Lemma init_params_frame_witness :
  exists self1 st1,
    Txt2Img.init default_options tagged_hires_request fresh_state = Ok (self1, st1)
    /\ Dict.get "Lora hashes" (Txt2Img.extra_generation_params self1)
       = Some (PyStr "abc").
Proof.
  destruct (Txt2Img.init default_options tagged_hires_request fresh_state)
    as [[self1 st1] | e] eqn:E; [| vm_compute in E; discriminate].
  exists self1, st1. split; [reflexivity |].
  rewrite (init_params_frame _ _ _ _ _ "Lora hashes" E); [reflexivity |].
  unfold hires_keys. rewrite !not_elem_of_cons.
  repeat split; try discriminate. apply not_elem_of_nil.
Defined.

Lemma hr_prompts_default_witness :
  exists self1,
    HrPrompts.setup_prompts (C := plain_pipeline None) plain_hires_request
    = Ok (self1,
          Some {| HrPrompts.all_hr_prompts := ["a cat"]%string;
                  HrPrompts.all_hr_negative_prompts := [""]%string |}).
Proof.
  destruct (HrPrompts.setup_prompts (C := plain_pipeline None) plain_hires_request)
    as [[self1 hr] | e] eqn:E; [| vm_compute in E; discriminate].
  exists self1.
  destruct (hr_prompts_default (C := plain_pipeline None) default_options
              plain_hires_request self1 hr eq_refl eq_refl eq_refl E) as (-> & _).
  vm_compute in E. injection E as <-. reflexivity.
Defined.

(** ** The batch of image-to-image: one entry per image *)

Section Img2ImgBatchFacts.
Context {I : Img2ImgInit.ImageOps}.
Import Img2ImgInit.
Local Open Scope Z_scope.

Lemma length_seq_mul {A} (l : list A) (n : Z) :
  length (seq_mul l n) = (Z.to_nat n * length l)%nat.
Proof.
  unfold seq_mul. induction (Z.to_nat n) as [ | k IH]; [reflexivity |].
  change (mjoin (replicate (S k) l)) with (l ++ mjoin (replicate k l)).
  rewrite length_app, IH. lia.
Qed.

Lemma fmap_snoc_app {A} (o : option (list A)) (x : A) (l : list A) :
  (fun l0 => l0 ++ l) <$> ((fun l0 => l0 ++ [x]) <$> o)
  = (fun l0 => l0 ++ x :: l) <$> o.
Proof. destruct o as [l0 | ]; [| reflexivity]. cbn. rewrite <- app_assoc. reflexivity. Qed.

Lemma fmap_app_nil {A} (o : option (list A)) : (fun l0 => l0 ++ []) <$> o = o.
Proof. destruct o as [l0 | ]; [| reflexivity]. cbn. rewrite app_nil_r. reflexivity. Qed.

(** The loop appends one array per init image, one overlay per image
    when there is a mask, and one colour correction per image when it
    collects them; it leaves the batch size alone. *)
Lemma prepare_fold (m : option masks) (crop_region : option (Z * Z * Z * Z))
    (add : bool) (images : list Img) :
  forall (imgs : list Array) (self : request),
  let r := fold_left (prepare m crop_region add) images (imgs, self) in
  length r.1 = (length imgs + length images)%nat
  /\ r.2.(batch_size) = self.(batch_size)
  /\ (exists ov, r.2.(overlay_images) = (fun l => l ++ ov) <$> self.(overlay_images)
                 /\ (is_Some m -> length ov = length images))
  /\ (exists cs, r.2.(color_corrections)
                 = (fun l => l ++ cs) <$> self.(color_corrections)
                 /\ (add = true -> length cs = length images)
                 /\ (add = false -> cs = [])).
Proof.
  induction images as [ | img images IH]; intros imgs self; cbn [fold_left].
  - cbn [fst snd length]. split; [lia |]. split; [reflexivity |].
    split; exists []; rewrite fmap_app_nil; repeat split; reflexivity.
  - cbv zeta in IH. destruct self as [ims rm wd ht fl bs ovs ccs].
    destruct m as [ms | ]; destruct add;
      (match goal with
       | |- context [prepare ?m0 crop_region ?b0 (imgs, ?s0) img] =>
           destruct (prepare m0 crop_region b0 (imgs, s0) img)
             as [imgs1 self1] eqn:Hstep
       end;
       destruct (IH imgs1 self1)
         as (Hlen & Hbs & (ov & Hov & Hovlen) & (cs & Hcs & Hcs1 & Hcs0));
       unfold prepare in Hstep; cbv zeta in Hstep;
       injection Hstep as <- <-;
       rewrite length_app in Hlen; cbn [length] in Hlen |- *;
       split; [lia |];
       split; [rewrite Hbs; reflexivity |];
       split;
       [ first
           [ eexists (_ :: ov); split;
             [ rewrite Hov; cbn; apply fmap_snoc_app
             | intros _; cbn [length]; rewrite Hovlen by eauto; reflexivity ]
           | exists ov; split;
             [ rewrite Hov; reflexivity | intros [? ?]; discriminate ] ]
       | first
           [ eexists (_ :: cs); split;
             [ rewrite Hcs; cbn; apply fmap_snoc_app
             | split; [ intros _; cbn [length]; rewrite Hcs1 by reflexivity;
                        reflexivity
                      | discriminate ] ]
           | exists cs; split;
             [ rewrite Hcs; reflexivity
             | split; [ discriminate | exact Hcs0 ] ] ] ]).
Qed.

Lemma collect_counts (img2img_color_correction : bool) (m : option masks)
    (crop_region : option (Z * Z * Z * Z)) (self : request) :
  let r := collect img2img_color_correction m crop_region self in
  length r.1 = length self.(init_images)
  /\ r.2.(batch_size) = self.(batch_size)
  /\ (is_Some m ->
      exists ov, r.2.(overlay_images) = Some ov
                 /\ length ov = length self.(init_images))
  /\ (img2img_color_correction = true -> self.(color_corrections) = None ->
      exists cs, r.2.(color_corrections) = Some cs
                 /\ length cs = length self.(init_images)).
Proof.
  cbv zeta. unfold collect. cbv zeta.
  destruct self as [ims rm wd ht fl bs ovs ccs].
  destruct m as [ms | ]; destruct img2img_color_correction;
    destruct ccs as [cc0 | ];
    cbn -[prepare fold_left];
    (match goal with
     | |- context [fold_left (prepare ?m0 crop_region ?add) ?images (?imgs, ?s0)] =>
         destruct (prepare_fold m0 crop_region add images imgs s0)
           as (Hlen & Hbs & (ov & Hov & Hovlen) & (cs & Hcs & Hcs1 & _))
     end;
     cbn -[prepare fold_left] in Hlen, Hbs, Hov, Hcs, Hcs1;
     split; [exact Hlen |];
     split; [exact Hbs |];
     split;
     [ intros Hm;
       first [ destruct Hm; discriminate
             | exists ov; split; [exact Hov | exact (Hovlen Hm)] ]
     | intros H1 H2;
       first [ discriminate
             | exists cs; split; [exact Hcs | exact (Hcs1 eq_refl)] ] ]).
Qed.

(** After the batching of [init], the request is consistent with the
    batch: [batch_size] is the number of images in the batch (the single
    init image repeated [batch_size] times, or the init images themselves
    with [batch_size] lowered to their number), there is one overlay per
    image of the batch when a mask is used, and one colour correction per
    image when this call collected them. *)
Theorem init_batch_counts (img2img_color_correction : bool) (m : option masks)
    (crop_region : option (Z * Z * Z * Z)) (self self' : request)
    (batch_images : list Array) :
  init_batch img2img_color_correction m crop_region self = Ok (batch_images, self') ->
  Z.of_nat (length batch_images) = self'.(batch_size)
  /\ (length self.(init_images) = 1%nat /\ self'.(batch_size) = self.(batch_size)
      \/ length self.(init_images) <> 1%nat
         /\ self'.(batch_size) = Z.of_nat (length self.(init_images))
         /\ self'.(batch_size) <= self.(batch_size))
  /\ (is_Some m ->
      exists ov, self'.(overlay_images) = Some ov
                 /\ Z.of_nat (length ov) = self'.(batch_size))
  /\ (img2img_color_correction = true -> self.(color_corrections) = None ->
      exists cs, self'.(color_corrections) = Some cs
                 /\ Z.of_nat (length cs) = self'.(batch_size)).
Proof.
  unfold init_batch.
  pose proof (collect_counts img2img_color_correction m crop_region self) as Hc.
  cbv zeta in Hc.
  destruct (collect img2img_color_correction m crop_region self) as [imgs s1].
  cbn [fst snd] in Hc. destruct Hc as (Hlen & Hbs & Hov & Hcs).
  unfold batch.
  destruct s1 as [ims1 rm1 wd1 ht1 fl1 bs1 ovs1 ccs1].
  cbn [batch_size overlay_images color_corrections] in Hbs, Hov, Hcs |- *.
  destruct imgs as [ | img [ | img2 imgs]].
  - (* no image *)
    destruct (Z.leb_spec (Z.of_nat (length (@nil Array))) bs1) as [Hle | Hgt];
      [| discriminate].
    intros [= <- <-]. cbn [length] in Hlen, Hle |- *.
    cbn [batch_size overlay_images color_corrections]. unfold constant.
    split; [reflexivity |].
    split; [right; rewrite <- Hlen; repeat split; lia |].
    split.
    + intros Hm. destruct (Hov Hm) as (ov & Ho & Hl). exists ov.
      split; [exact Ho |]. rewrite Hl, <- Hlen. reflexivity.
    + intros H1 H2. destruct (Hcs H1 H2) as (cs & Hc & Hl). exists cs.
      split; [exact Hc |]. rewrite Hl, <- Hlen. reflexivity.
  - (* one image *)
    destruct (Z.ltb_spec bs1 0) as [Hneg | Hpos]; [discriminate |].
    cbn [length] in Hlen.
    assert (Hone : forall (A : Type) (l : list A),
              length l = 1%nat -> Z.of_nat (length (seq_mul l bs1)) = bs1).
    { intros A l Hl. rewrite length_seq_mul, Hl. lia. }
    destruct ccs1 as [[ | c [ | c2 cs1]] | ];
      (intros [= <- <-];
       cbn [batch_size overlay_images color_corrections fmap option_fmap option_map];
       unfold constant;
       split; [unfold list_mul; rewrite length_replicate; lia |];
       split; [left; split; [lia | exact Hbs] |];
       split;
       [ intros Hm; destruct (Hov Hm) as (ov & -> & Hl);
         eexists; split; [reflexivity |]; apply Hone; lia
       | intros H1 H2; destruct (Hcs H1 H2) as (cs & Hc & Hl);
         first
           [ discriminate
           | injection Hc as <-; cbn [length] in Hl;
             first [ lia
                   | eexists; split; [reflexivity |]; apply Hone; reflexivity ] ] ]).
  - (* several images *)
    destruct (Z.leb_spec (Z.of_nat (length (img :: img2 :: imgs))) bs1)
      as [Hle | Hgt]; [| discriminate].
    intros [= <- <-].
    cbn [batch_size overlay_images color_corrections]. unfold constant.
    split; [reflexivity |].
    split.
    { right. rewrite <- Hlen, <- Hbs. cbn [length] in *. repeat split; lia. }
    split.
    + intros Hm. destruct (Hov Hm) as (ov & Ho & Hl). exists ov.
      split; [exact Ho |]. rewrite Hl, <- Hlen. reflexivity.
    + intros H1 H2. destruct (Hcs H1 H2) as (cs & Hc & Hl). exists cs.
      split; [exact Hc |]. rewrite Hl, <- Hlen. reflexivity.
Qed.

(** The batching refuses two requests only: a single init image with a
    negative [batch_size] (NumPy's [ValueError]), and a number of init
    images other than one that exceeds [batch_size], with the message
    "bad number of images passed". *)
Theorem init_batch_raises (img2img_color_correction : bool) (m : option masks)
    (crop_region : option (Z * Z * Z * Z)) (self : request) (e : exn) :
  let n := Z.of_nat (length self.(init_images)) in
  init_batch img2img_color_correction m crop_region self = Raise e <->
  (n = 1 /\ self.(batch_size) < 0 /\ e = ValueError)
  \/ (n <> 1 /\ self.(batch_size) < n
      /\ e = RuntimeError
               ("bad number of images passed: " ++ str_of_Z n ++ "; expecting "
                ++ str_of_Z self.(batch_size) ++ " or less")%string).
Proof.
  cbv zeta. unfold init_batch.
  pose proof (collect_counts img2img_color_correction m crop_region self) as Hc.
  cbv zeta in Hc.
  destruct (collect img2img_color_correction m crop_region self) as [imgs s1].
  cbn [fst snd] in Hc. destruct Hc as (Hlen & Hbs & _ & _).
  rewrite <- Hlen, <- Hbs. unfold batch.
  destruct imgs as [ | img [ | img2 imgs]].
  - destruct (Z.leb_spec (Z.of_nat (length (@nil Array))) s1.(batch_size)) as [Hle | Hgt].
    + split; [discriminate |]. cbn [length] in *. intros [(? & _) | (_ & ? & _)]; lia.
    + split.
      * intros [= <-]. right. cbn [length] in *. repeat split; lia.
      * cbn [length]. intros [(? & _) | (_ & _ & ->)]; [lia | reflexivity].
  - cbn [length]. destruct (Z.ltb_spec s1.(batch_size) 0) as [Hneg | Hpos].
    + split.
      * intros [= <-]. left. repeat split; lia.
      * intros [(_ & _ & ->) | (? & _)]; [reflexivity | lia].
    + split; [discriminate |]. intros [(_ & ? & _) | (? & _)]; lia.
  - destruct (Z.leb_spec (Z.of_nat (length (img :: img2 :: imgs))) s1.(batch_size))
      as [Hle | Hgt].
    + split; [discriminate |]. cbn [length] in *. intros [(? & _) | (_ & ? & _)]; lia.
    + split.
      * intros [= <-]. right. cbn [length] in *. repeat split; lia.
      * intros [(? & _) | (_ & _ & ->)]; [cbn [length] in *; lia | reflexivity].
Qed.

End Img2ImgBatchFacts.

Lemma init_batch_counts_witness :
  exists batch_images self',
    Img2ImgInit.init_batch true (Some inpaint_masks) None (inpaint_request ["a"; "b"]%string)
    = Ok (batch_images, self')
    /\ self'.(Img2ImgInit.batch_size) = 2%Z
    /\ exists ov, self'.(Img2ImgInit.overlay_images) = Some ov
                  /\ Z.of_nat (length ov) = 2%Z.
Proof.
  destruct (Img2ImgInit.init_batch true (Some inpaint_masks) None
              (inpaint_request ["a"; "b"]%string))
    as [[batch_images self'] | e] eqn:E; [| vm_compute in E; discriminate].
  exists batch_images, self'. split; [reflexivity |].
  destruct (init_batch_counts _ _ _ _ _ _ E) as (_ & Hbs & Hov & _).
  assert (H2 : self'.(Img2ImgInit.batch_size) = 2%Z).
  { destruct Hbs as [[H1 _] | (_ & -> & _)]; [discriminate | reflexivity]. }
  split; [exact H2 |]. rewrite <- H2. apply Hov. eauto.
Defined.

(** ** AnimateDiff: the sizes [set_p] settles *)

Section AnimateDiffFacts.
Context {Frame : Type}.
Import AnimateDiff.
Local Open Scope Z_scope.
Implicit Types (self : AnimateDiffProcess Frame) (p : StableDiffusionProcessing).

Lemma check_Ok self :
  _check self = Ok tt <->
  0 <= self.(video_length) /\ 0 < self.(fps)
  /\ saves_some_format self.(format) = true.
Proof.
  unfold _check, py_assert. split.
  - intros H.
    destruct (Z.leb_spec 0 self.(video_length)); destruct (Z.ltb_spec 0 self.(fps));
      cbn in H; try discriminate.
    destruct (saves_some_format self.(format)); [auto | discriminate].
  - intros (H1 & H2 & H3).
    rewrite (proj2 (Z.leb_le _ _) H1), (proj2 (Z.ltb_lt _ _) H2), H3. reflexivity.
Qed.

(** What [set_p] computes once the check has passed. *)
Lemma set_p_Ok self p (d : bool) :
  _check self = Ok tt ->
  set_p self p d
  = Ok (self <| video_length :=
                  if self.(video_length) =? 0
                  then Z.max self.(video_length) self.(batch_size)
                  else self.(video_length) |>
             <| video_default := Some (self.(video_length) =? 0) |>
             <| overlap :=
                  if self.(overlap) =? -1 then self.(batch_size) / 4
                  else self.(overlap) |>,
        p <| Processing.batch_size := Z.max self.(video_length) self.(batch_size) |>,
        d || negb (existsb (String.eqb "PNG") self.(format))).
Proof.
  intros Hcheck. unfold set_p. rewrite Hcheck, bind_Ok.
  destruct self as [md en vl fp lo cl bs st ov fm it ix rv vs vp lp ls lf lpl lsl vd].
  destruct p. cbn -[String.eqb Z.div Z.max]. unfold constant.
  destruct (Z.ltb_spec vl bs) as [Hlt | Hge];
    [rewrite (Z.max_r vl bs) by lia | rewrite (Z.max_l vl bs) by lia];
    destruct (Z.eqb_spec vl 0) as [Hz | Hnz]; cbn -[String.eqb Z.div Z.max];
    destruct (Z.eqb_spec ov (-1)); cbn -[String.eqb Z.div Z.max];
    destruct (existsb (String.eqb "PNG") fm); cbn -[String.eqb Z.div Z.max];
    destruct d; reflexivity.
Qed.

(** [set_p] goes through only for a request that passes [_check], and
    then makes the batch hold the whole video: [p.batch_size] becomes the
    larger of [video_length] and [batch_size]; a [video_length] of [0]
    becomes that batch size, and is flagged in [video_default]; the
    resulting [video_length] is between [0] and [p.batch_size]; an
    [overlap] of [-1] becomes [batch_size // 4]; and saving the samples
    is switched off when "PNG" is not among the formats. *)
Theorem set_p_sizes self p (do_not_save_samples : bool) self' p'
    (do_not_save_samples' : bool) :
  set_p self p do_not_save_samples = Ok (self', p', do_not_save_samples') ->
  (0 <= self.(video_length) /\ 0 < self.(fps)
   /\ saves_some_format self.(format) = true)
  /\ p'.(Processing.batch_size) = Z.max self.(video_length) self.(batch_size)
  /\ self'.(video_length)
     = (if self.(video_length) =? 0 then p'.(Processing.batch_size)
        else self.(video_length))
  /\ 0 <= self'.(video_length) <= p'.(Processing.batch_size)
  /\ self'.(video_default) = Some (self.(video_length) =? 0)
  /\ self'.(overlap)
     = (if self.(overlap) =? -1 then self.(batch_size) / 4 else self.(overlap))
  /\ self'.(batch_size) = self.(batch_size)
  /\ do_not_save_samples'
     = (do_not_save_samples || negb (existsb (String.eqb "PNG") self.(format))).
Proof.
  intros H.
  assert (Hcheck : _check self = Ok tt).
  { unfold set_p in H. apply bind_Ok_inv in H as ([] & Hcheck & _). exact Hcheck. }
  rewrite (set_p_Ok _ _ _ Hcheck) in H. injection H as <- <- <-.
  apply check_Ok in Hcheck. destruct Hcheck as (Hlen & Hfps & Hfmt).
  split; [repeat split; assumption |].
  destruct self as [md en vl fp lo cl bs st ov fm it ix rv vs vp lp ls lf lpl lsl vd].
  destruct p. cbn -[String.eqb Z.div Z.max] in *. unfold constant.
  repeat split; try reflexivity; destruct (Z.eqb_spec vl 0); lia.
Qed.

(** Running [set_p] again on what it produced settles the same sizes and
    forgets one thing: it succeeds, leaves [p] and every attribute but
    [video_default] as they are, and sets [video_default] to
    [video_length == 0] for the length the first run left.  So the flag
    of a video length that was defaulted to a positive batch size is
    [True] after one run and [False] after two. *)
Theorem set_p_twice self p (d : bool) self1 p1 (d1 : bool) :
  set_p self p d = Ok (self1, p1, d1) ->
  set_p self1 p1 d1
  = Ok (self1 <| video_default := Some (self1.(video_length) =? 0) |>, p1, d1)
  /\ (self.(video_length) = 0 -> 0 < self.(batch_size) ->
      self1.(video_default) = Some true /\ (self1.(video_length) =? 0) = false).
Proof.
  intros H.
  assert (Hcheck : _check self = Ok tt).
  { unfold set_p in H. apply bind_Ok_inv in H as ([] & Hcheck & _). exact Hcheck. }
  rewrite (set_p_Ok _ _ _ Hcheck) in H. injection H as <- <- <-.
  apply check_Ok in Hcheck. destruct Hcheck as (Hlen & Hfps & Hfmt).
  destruct self as [md en vl fp lo cl bs st ov fm it ix rv vs vp lp ls lf lpl lsl vd].
  destruct p. cbn -[String.eqb Z.div Z.max] in *. unfold constant.
  split.
  - rewrite set_p_Ok.
    2:{ apply check_Ok. cbn -[String.eqb Z.div Z.max].
        repeat split; try assumption. destruct (Z.eqb_spec vl 0); lia. }
    cbn -[String.eqb Z.div Z.max]. unfold constant.
    set (vl1 := if vl =? 0 then Z.max vl bs else vl).
    set (ov1 := if ov =? -1 then bs / 4 else ov).
    assert (Hvl : (if vl1 =? 0 then Z.max vl1 bs else vl1) = vl1).
    { subst vl1. destruct (Z.eqb_spec vl 0) as [-> | ?].
      - destruct (Z.eqb_spec (Z.max 0 bs) 0); lia.
      - destruct (Z.eqb_spec vl 0); lia. }
    assert (Hmax : Z.max vl1 bs = Z.max vl bs).
    { subst vl1. destruct (Z.eqb_spec vl 0); lia. }
    assert (Hov : (if ov1 =? -1 then bs / 4 else ov1) = ov1).
    { subst ov1. destruct (Z.eqb_spec ov (-1)) as [-> | ?].
      - destruct (Z.eqb_spec (bs / 4) (-1)); congruence.
      - destruct (Z.eqb_spec ov (-1)); congruence. }
    rewrite Hvl, Hmax, Hov. do 2 f_equal.
    match goal with
    | |- ?a || ?b || ?c = _ =>
        change c with b; rewrite <- orb_assoc, orb_diag; reflexivity
    end.
  - intros -> Hbs. split; [reflexivity |].
    change (0 =? 0) with true. cbv iota. apply Z.eqb_neq. lia.
Qed.

(** [get_list(False)] drops the last five attributes, whichever they
    are.  On a new instance these are the five settings of
    image-to-image, and fifteen values are left, ending with
    [video_path].  Once [set_p] has added [video_default], that flag is
    among the five dropped and [latent_power] no longer is: sixteen
    values are left, ending with [latent_power]. *)
Theorem get_list_after_set_p self p (d : bool) self' p' (d' : bool) :
  self.(video_default) = None ->
  set_p self p d = Ok (self', p', d') ->
  length (get_list self true) = 20%nat
  /\ get_list self true
     = get_list self false
       ++ [AInt self.(latent_power); AInt self.(latent_scale);
           of_option AFrame self.(last_frame); AInt self.(latent_power_last);
           AInt self.(latent_scale_last)]
  /\ last (get_list self false) = Some (AStr self.(video_path))
  /\ length (get_list self' true) = 21%nat
  /\ get_list self' true
     = get_list self' false
       ++ [AInt self.(latent_scale); of_option AFrame self.(last_frame);
           AInt self.(latent_power_last); AInt self.(latent_scale_last);
           ABool (self.(video_length) =? 0)]
  /\ last (get_list self' false) = Some (AInt self.(latent_power)).
Proof.
  intros Hnone H.
  assert (Hcheck : _check self = Ok tt).
  { unfold set_p in H. apply bind_Ok_inv in H as ([] & Hcheck & _). exact Hcheck. }
  rewrite (set_p_Ok _ _ _ Hcheck) in H. injection H as <- _ _.
  destruct self as [md en vl fp lo cl bs st ov fm it ix rv vs vp lp ls lf lpl lsl vd].
  cbn in Hnone. subst vd.
  unfold get_list, vars_values.
  cbn [video_default model enable video_length fps loop_number closed_loop
       batch_size stride overlap format interp interp_x reverse video_source
       video_path latent_power latent_scale last_frame latent_power_last
       latent_scale_last negb app].
  repeat split.
Qed.

End AnimateDiffFacts.

Lemma set_p_sizes_witness :
  exists self' p' d',
    AnimateDiff.set_p (Frame := string) AnimateDiff.new scenario_request false
    = Ok (self', p', d')
    /\ p'.(Processing.batch_size) = 16%Z
    /\ self'.(AnimateDiff.video_length) = 16%Z
    /\ self'.(AnimateDiff.overlap) = 4%Z.
Proof.
  destruct (AnimateDiff.set_p (Frame := string) AnimateDiff.new scenario_request false)
    as [[[self' p'] d'] | e] eqn:E; [| vm_compute in E; discriminate].
  exists self', p', d'. split; [reflexivity |].
  destruct (set_p_sizes _ _ _ _ _ _ E) as (_ & Hbs & Hvl & _ & _ & Hov & _).
  rewrite Hvl, Hbs, Hov. repeat split.
Defined.

Lemma set_p_twice_witness :
  exists self1 p1 d1 self2,
    AnimateDiff.set_p (Frame := string) AnimateDiff.new scenario_request false
    = Ok (self1, p1, d1)
    /\ AnimateDiff.set_p self1 p1 d1 = Ok (self2, p1, d1)
    /\ self1.(AnimateDiff.video_default) = Some true
    /\ self2.(AnimateDiff.video_default) = Some false.
Proof.
  destruct (AnimateDiff.set_p (Frame := string) AnimateDiff.new scenario_request false)
    as [[[self1 p1] d1] | e] eqn:E; [| vm_compute in E; discriminate].
  destruct (set_p_twice AnimateDiff.new _ _ _ _ _ E) as (Hagain & Hflag).
  destruct (Hflag eq_refl eq_refl) as (H1 & H2).
  eexists self1, p1, d1, _. split; [reflexivity |].
  split; [exact Hagain |]. split; [exact H1 |].
  destruct self1. cbn in *. rewrite H2. reflexivity.
Defined.

Lemma get_list_after_set_p_witness :
  exists self' p' d',
    AnimateDiff.set_p (Frame := string) AnimateDiff.new scenario_request false
    = Ok (self', p', d')
    /\ last (AnimateDiff.get_list (Frame := string) AnimateDiff.new false)
       = Some (AnimateDiff.AStr "")
    /\ last (AnimateDiff.get_list self' false) = Some (AnimateDiff.AInt 1).
Proof.
  destruct (AnimateDiff.set_p (Frame := string) AnimateDiff.new scenario_request false)
    as [[[self' p'] d'] | e] eqn:E; [| vm_compute in E; discriminate].
  exists self', p', d'. split; [reflexivity |].
  destruct (get_list_after_set_p AnimateDiff.new _ _ _ _ _ eq_refl E)
    as (_ & _ & H1 & _ & _ & H2).
  split; [exact H1 | exact H2].
Defined.

(** ** The first-pass size of the legacy arguments *)

Section FirstPhaseFacts.
Import Txt2Img.
Local Open Scope Z_scope.

(** What [init] computes does not depend on the targets the constructor
    left in [hr_upscale_to_x] and [hr_upscale_to_y]: each branch writes
    them before it reads them. *)
Lemma resolve_target_ignores_target (self : t) (a b : Z) :
  resolve_target (self <| hr_upscale_to_x := a |> <| hr_upscale_to_y := b |>)
  = resolve_target self.
Proof.
  destruct self as [bs en sc up st rx ry ux uy sn hp hn tx ty done pass].
  destruct bs.
  unfold resolve_target, set_param, width, height, extra_generation_params.
  cbn -[Dict.set int_of_float floordiv truediv Z.div Z.mul PrimFloat.ltb
        float_of_Z str_of_Z String.append].
  unfold constant.
  destruct (rx =? 0); destruct (ry =? 0);
    cbn -[Dict.set int_of_float floordiv truediv Z.div Z.mul PrimFloat.ltb
          float_of_Z str_of_Z String.append];
    repeat
      (match goal with
       | |- context [floordiv ?x ?y] => destruct (floordiv x y)
       | |- context [truediv ?x ?y] => destruct (truediv x y)
       | |- context [float_of_Z ?x] => destruct (float_of_Z x)
       | |- context [int_of_float ?f] => destruct (int_of_float f)
       | |- context [PrimFloat.ltb ?x ?y] => destruct (PrimFloat.ltb x y)
       end;
       cbn -[Dict.set int_of_float floordiv truediv Z.div Z.mul PrimFloat.ltb
             float_of_Z str_of_Z String.append]);
    reflexivity.
Qed.

Lemma old_behavior_ignores_target (opts : Options) (self : t) (a b : Z) :
  apply_old_hires_behavior opts
    (self <| hr_upscale_to_x := a |> <| hr_upscale_to_y := b |>)
  ≫= resolve_target
  = apply_old_hires_behavior opts self ≫= resolve_target.
Proof.
  unfold apply_old_hires_behavior.
  assert (Hsame : bool_decide
                    ((self <| hr_upscale_to_x := a |> <| hr_upscale_to_y := b |>)
                       .(applied_old_hires_behavior_to)
                     = Some (width (self <| hr_upscale_to_x := a |>
                                         <| hr_upscale_to_y := b |>),
                             height (self <| hr_upscale_to_x := a |>
                                          <| hr_upscale_to_y := b |>)))
                  = bool_decide (self.(applied_old_hires_behavior_to)
                                 = Some (width self, height self))).
  { destruct self. reflexivity. }
  rewrite Hsame.
  destruct (use_old_hires_fix_width_height opts && negb (bool_decide _)).
  - destruct self as [bs en sc up st rx ry ux uy sn hp hn tx ty done pass].
    destruct bs. reflexivity.
  - rewrite !bind_Ok. apply resolve_target_ignores_target.
Qed.

Lemma set_param_keeps_target (k : string) (v : pyval) (self : t) (a b : Z) :
  set_param k v (self <| hr_upscale_to_x := a |> <| hr_upscale_to_y := b |>)
  = (set_param k v self) <| hr_upscale_to_x := a |> <| hr_upscale_to_y := b |>.
Proof. destruct self. reflexivity. Qed.

Lemma cond_set_param_keeps_target (c : bool) (k : string) (v : pyval)
    (self : t) (a b : Z) :
  (if c
   then set_param k v (self <| hr_upscale_to_x := a |> <| hr_upscale_to_y := b |>)
   else self <| hr_upscale_to_x := a |> <| hr_upscale_to_y := b |>)
  = (if c then set_param k v self else self)
      <| hr_upscale_to_x := a |> <| hr_upscale_to_y := b |>.
Proof. destruct c; [apply set_param_keeps_target | reflexivity]. Qed.

Lemma resolve_hires_ignores_target (opts : Options) (self : t) (a b : Z) :
  resolve_hires opts (self <| hr_upscale_to_x := a |> <| hr_upscale_to_y := b |>)
  = resolve_hires opts self.
Proof.
  unfold resolve_hires.
  change (hr_sampler_name (self <| hr_upscale_to_x := a |> <| hr_upscale_to_y := b |>))
    with (hr_sampler_name self).
  change (base (self <| hr_upscale_to_x := a |> <| hr_upscale_to_y := b |>))
    with (base self).
  set (s1 := match self.(hr_sampler_name) with
             | Some h =>
                 if negb (bool_decide (Some h = self.(base).(Processing.sampler_name)))
                 then set_param "Hires sampler" (PyStr h) self else self
             | None => self
             end).
  assert (H1 : match self.(hr_sampler_name) with
               | Some h =>
                   if negb (bool_decide
                              (Some h = self.(base).(Processing.sampler_name)))
                   then set_param "Hires sampler" (PyStr h)
                          (self <| hr_upscale_to_x := a |> <| hr_upscale_to_y := b |>)
                   else self <| hr_upscale_to_x := a |> <| hr_upscale_to_y := b |>
               | None => self <| hr_upscale_to_x := a |> <| hr_upscale_to_y := b |>
               end
               = s1 <| hr_upscale_to_x := a |> <| hr_upscale_to_y := b |>).
  { subst s1. destruct (hr_sampler_name self) as [h | ]; [| reflexivity].
    apply cond_set_param_keeps_target. }
  rewrite H1. clearbody s1. clear H1. cbv zeta.
  change (hr_prompt (s1 <| hr_upscale_to_x := a |> <| hr_upscale_to_y := b |>))
    with (hr_prompt s1).
  change (base (s1 <| hr_upscale_to_x := a |> <| hr_upscale_to_y := b |>))
    with (base s1).
  rewrite cond_set_param_keeps_target.
  set (s2 := if negb (bool_decide (tuple_of_prompt s1.(hr_prompt)
                                   = tuple_of_prompt s1.(base).(Processing.prompt)))
             then set_param "Hires prompt" (pyval_of_prompt s1.(hr_prompt)) s1
             else s1).
  clearbody s2.
  change (hr_negative_prompt (s2 <| hr_upscale_to_x := a |> <| hr_upscale_to_y := b |>))
    with (hr_negative_prompt s2).
  change (base (s2 <| hr_upscale_to_x := a |> <| hr_upscale_to_y := b |>))
    with (base s2).
  rewrite cond_set_param_keeps_target.
  apply old_behavior_ignores_target.
Qed.

(** The legacy arguments [firstphase_width] and [firstphase_height] only
    rename the size: with the second pass enabled, [init] treats a
    request built with them exactly as one built with that size as
    [width] and [height].  The size the request was given as [width] and
    [height], which the constructor keeps as the target, is overwritten
    before it is read. *)
Theorem firstphase_size_replaces_size (opts : Options) (state : State)
    (kwargs : StableDiffusionProcessing) (denoising_strength : option float)
    (firstphase_width firstphase_height : Z) (hr_scale : float)
    (hr_upscaler : option string) (hr_second_pass_steps hr_resize_x hr_resize_y : Z)
    (hr_sampler_name : option string) (hr_prompt hr_negative_prompt : prompt_t) :
  firstphase_width <> 0 \/ firstphase_height <> 0 ->
  init opts
    (new kwargs true denoising_strength firstphase_width firstphase_height
       hr_scale hr_upscaler hr_second_pass_steps hr_resize_x hr_resize_y
       hr_sampler_name hr_prompt hr_negative_prompt) state
  = init opts
      (new (kwargs <| Processing.width := firstphase_width |>
                   <| Processing.height := firstphase_height |>)
         true denoising_strength 0 0
         hr_scale hr_upscaler hr_second_pass_steps hr_resize_x hr_resize_y
         hr_sampler_name hr_prompt hr_negative_prompt) state.
Proof.
  intros Hfirst.
  assert (Hcond : negb (firstphase_width =? 0) || negb (firstphase_height =? 0) = true).
  { destruct (Z.eqb_spec firstphase_width 0); destruct (Z.eqb_spec firstphase_height 0);
      try reflexivity. lia. }
  match goal with
  | |- init opts ?s1 state = init opts ?s2 state =>
      assert (Hnew : s1 = s2 <| hr_upscale_to_x := kwargs.(Processing.width) |>
                             <| hr_upscale_to_y := kwargs.(Processing.height) |>)
  end.
  { unfold new. rewrite Hcond. destruct kwargs. reflexivity. }
  rewrite Hnew. unfold init.
  rewrite resolve_hires_ignores_target. reflexivity.
Qed.

End FirstPhaseFacts.

Lemma firstphase_size_replaces_size_witness :
  Txt2Img.init default_options
    (Txt2Img.new (Processing.default_processing (PromptStr "a cat"))
       true (Some 0.75%float) 256 256 2%float (Some "Latent"%string) 0 0 0 None
       (PromptStr "") (PromptStr "")) fresh_state
  = Txt2Img.init default_options
      (Txt2Img.new
         ((Processing.default_processing (PromptStr "a cat"))
            <| Processing.width := 256%Z |> <| Processing.height := 256%Z |>)
         true (Some 0.75%float) 0 0 2%float (Some "Latent"%string) 0 0 0 None
         (PromptStr "") (PromptStr "")) fresh_state.
Proof.
  apply firstphase_size_replaces_size. left. discriminate.
Defined.

(** ** Closing a request: four new lists *)

Section CloseFacts.
Context {Tensor : Type}.

Lemma new_list_spec (σ : Cache.store Tensor) :
  let l := (Conds.new_list σ).1 in
  let σ' := (Conds.new_list σ).2 in
  (l ∉ dom σ)
  /\ dom σ' = {[l]} ∪ dom σ
  /\ Cache.read σ' l = Cache.empty_slot
  /\ (forall l', l' <> l -> σ' !! l' = σ !! l').
Proof.
  cbv zeta. unfold Conds.new_list. cbn [fst snd].
  split; [apply is_fresh |].
  split; [unfold Cache.store in *; apply dom_insert_L |].
  split; [apply read_insert |].
  intros l' Hne. unfold Cache.store in *. apply lookup_insert_ne. congruence.
Qed.

(** After [close] of a text-to-image request with a non-persistent cache,
    the four class attributes are four different new lists, all
    [[None, None]], none of them a list that existed before; the lists
    that existed are left as they were (an instance that still refers to
    them still finds its conds there), and no conditioning function is
    called. *)
Theorem close_txt2img_fresh (cls : Conds.caches) (w : Cache.world Tensor) :
  let cls' := (Conds.close_txt2img false cls w).1 in
  let w' := (Conds.close_txt2img false cls w).2 in
  Conds.distinct cls'
  /\ Forall (fun l => (l ∉ dom (Cache.slots w))
                      /\ Cache.read (Cache.slots w') l = Cache.empty_slot)
       [cls'.(Conds.cached_uc); cls'.(Conds.cached_c);
        cls'.(Conds.cached_hr_uc); cls'.(Conds.cached_hr_c)]
  /\ (forall l, l ∈ dom (Cache.slots w) -> Cache.slots w' !! l = Cache.slots w !! l)
  /\ Cache.calls w' = Cache.calls w.
Proof.
  cbv zeta. unfold Conds.close_txt2img, Conds.close. cbn [negb].
  pose proof (new_list_spec (Cache.slots w)) as H1. cbv zeta in H1.
  destruct (Conds.new_list (Cache.slots w)) as [lc σ1].
  cbn [fst snd] in H1. destruct H1 as (Hc & Hd1 & Hr1 & Hf1).
  pose proof (new_list_spec σ1) as H2. cbv zeta in H2.
  destruct (Conds.new_list σ1) as [luc σ2].
  cbn [fst snd] in H2. destruct H2 as (Huc & Hd2 & Hr2 & Hf2).
  cbn [Cache.slots Cache.calls].
  pose proof (new_list_spec σ2) as H3. cbv zeta in H3.
  destruct (Conds.new_list σ2) as [lhuc σ3].
  cbn [fst snd] in H3. destruct H3 as (Hhuc & Hd3 & Hr3 & Hf3).
  pose proof (new_list_spec σ3) as H4. cbv zeta in H4.
  destruct (Conds.new_list σ3) as [lhc σ4].
  cbn [fst snd] in H4. destruct H4 as (Hhc & Hd4 & Hr4 & Hf4).
  cbn [fst snd Conds.cached_uc Conds.cached_c Conds.cached_hr_uc
       Conds.cached_hr_c Cache.slots Cache.calls].
  rewrite Hd1 in Huc. rewrite Hd2, Hd1 in Hhuc. rewrite Hd3, Hd2, Hd1 in Hhc.
  apply not_elem_of_union in Huc as (Huc1 & Huc).
  apply not_elem_of_union in Hhuc as (Hh1 & Hhuc).
  apply not_elem_of_union in Hhuc as (Hh2 & Hhuc).
  apply not_elem_of_union in Hhc as (Hg1 & Hhc).
  apply not_elem_of_union in Hhc as (Hg2 & Hhc).
  apply not_elem_of_union in Hhc as (Hg3 & Hhc).
  rewrite not_elem_of_singleton in Huc1, Hh1, Hh2, Hg1, Hg2, Hg3.
  assert (Hread : forall (σ σ' : Cache.store Tensor) l,
            σ' !! l = σ !! l -> Cache.read σ' l = Cache.read σ l).
  { intros σ σ' l Heq. unfold Cache.read. rewrite Heq. reflexivity. }
  split; [| split; [| split; [| reflexivity]]].
  - unfold Conds.distinct. cbn [Conds.cached_uc Conds.cached_c Conds.cached_hr_uc
                                Conds.cached_hr_c].
    rewrite !NoDup_cons, !not_elem_of_cons.
    repeat split; try congruence; try apply not_elem_of_nil. apply NoDup_nil_2.
  - repeat constructor; try assumption.
    + rewrite (Hread _ _ _ (Hf4 luc ltac:(congruence))).
      rewrite (Hread _ _ _ (Hf3 luc ltac:(congruence))). exact Hr2.
    + rewrite (Hread _ _ _ (Hf4 lc ltac:(congruence))).
      rewrite (Hread _ _ _ (Hf3 lc ltac:(congruence))).
      rewrite (Hread _ _ _ (Hf2 lc ltac:(congruence))). exact Hr1.
    + rewrite (Hread _ _ _ (Hf4 lhuc ltac:(congruence))). exact Hr3.
  - intros l Hl.
    rewrite Hf4, Hf3, Hf2, Hf1; [reflexivity | | | |]; intros ->; tauto.
Qed.

End CloseFacts.

(** ** The comments of a run *)

Section CommentFacts.
Context {C : Collaborators}.

Lemma existsb_eqb_elem_of (c : string) (acc : list string) :
  existsb (String.eqb c) acc = true <-> c ∈ acc.
Proof.
  induction acc as [ | x acc IH]; cbn [existsb].
  - split; [discriminate | intros H; inversion H].
  - rewrite orb_true_iff, IH, elem_of_cons, String.eqb_eq. reflexivity.
Qed.

Lemma add_comment_spec (acc : list string) (c : string) :
  NoDup acc ->
  NoDup (add_comment acc c)
  /\ acc `prefix_of` add_comment acc c
  /\ c ∈ add_comment acc c.
Proof.
  intros Hnd. unfold add_comment.
  destruct (existsb (String.eqb c) acc) eqn:Hin.
  - apply existsb_eqb_elem_of in Hin. repeat split; [exact Hnd | reflexivity | exact Hin].
  - assert (Hnot : c ∉ acc).
    { intros H. apply existsb_eqb_elem_of in H. congruence. }
    split; [| split].
    + apply NoDup_app. split; [exact Hnd |]. split.
      * intros x Hx Hx'. apply list_elem_of_singleton in Hx'. subst x. exact (Hnot Hx).
      * apply NoDup_singleton.
    + apply prefix_app_r. reflexivity.
    + apply elem_of_app. right. apply list_elem_of_singleton. reflexivity.
Qed.

Lemma add_comments_spec (cs acc : list string) :
  NoDup acc ->
  NoDup (fold_left add_comment cs acc)
  /\ acc `prefix_of` fold_left add_comment cs acc
  /\ (forall c, c ∈ cs -> c ∈ fold_left add_comment cs acc).
Proof.
  revert acc. induction cs as [ | c cs IH]; intros acc Hnd; cbn [fold_left].
  - repeat split; [exact Hnd | reflexivity |]. intros c Hc. inversion Hc.
  - destruct (add_comment_spec acc c Hnd) as (Hnd1 & Hpre1 & Hin1).
    destruct (IH _ Hnd1) as (Hnd2 & Hpre2 & Hin2).
    split; [exact Hnd2 |]. split; [etransitivity; eassumption |].
    intros c' Hc'. apply elem_of_cons in Hc' as [-> | Hc'].
    + destruct Hpre2 as [rest ->]. apply elem_of_app. left. exact Hin1.
    + apply Hin2, Hc'.
Qed.


End CommentFacts.


(** ** AnimateDiff: what [set_p] refuses *)

Section AnimateDiffCheckFacts.
Context {Frame : Type}.
Import AnimateDiff.
Local Open Scope Z_scope.

(** [set_p] raises nothing but the [AssertionError] of [_check], and
    raises it exactly for a negative [video_length], an [fps] that is
    not positive, or a list of formats with none of GIF, MP4 and PNG. *)
Theorem set_p_raises (self : AnimateDiffProcess Frame)
    (p : StableDiffusionProcessing) (do_not_save_samples : bool) (e : exn) :
  set_p self p do_not_save_samples = Raise e <->
  e = AssertionError
  /\ (self.(video_length) < 0 \/ self.(fps) <= 0
      \/ saves_some_format self.(format) = false).
Proof.
  unfold set_p, _check, py_assert.
  destruct (Z.leb_spec 0 self.(video_length)) as [Hlen | Hlen];
    destruct (Z.ltb_spec 0 self.(fps)) as [Hfps | Hfps];
    cbn [andb mbind result_bind];
    try (split; [intros [= <-]; split; [reflexivity | lia]
                | intros [-> _]; reflexivity]).
  destruct (saves_some_format self.(format)) eqn:Hfmt; cbn [mbind result_bind].
  - split; [discriminate |]. intros [_ [? | [? | ?]]]; first [lia | discriminate].
  - split; [intros [= <-]; split; [reflexivity | auto] | intros [-> _]; reflexivity].
Qed.

End AnimateDiffCheckFacts.
